(** * WhiteBoard content-extraction pipeline: a shallow embedding

    The development follows [src/lib/scrapers.ts] (the client-side retry
    wrapper and its helpers) and the scrape route handler that the wrapper
    posts to (the [POST] handler with [scrapeYouTubeContentEnhanced],
    [scrapeArticleContentEnhanced], [scrapeTikTokContent] and
    [scrapeInstagramContent]).

    Modelling conventions.
    - A JavaScript string is a [string]; every [ascii] stands for one UTF-16
      code unit below 256, so [length] is the [.length] of the source.
    - [undefined] is [None]; a JSON field that the code reads as a string
      is an [option string] (a field of another JSON type is outside the
      model).
    - Everything the code obtains from the outside (HTTP replies, the
      transcript module, environment variables, the URL parser, the JSON
      serialiser) is a field of an environment record; the functions below
      are total functions of the environment and of their arguments.
    - Exceptions are explicit: code that may throw returns a [sum]. *)

From Stdlib Require Import List Bool Arith ZArith Lia DecimalString Ascii String.
Import ListNotations.

Local Open Scope string_scope.
Local Open Scope bool_scope.
Local Open Scope nat_scope.

Set Implicit Arguments.

(* ===================================================================== *)
(** * JavaScript strings *)
(* ===================================================================== *)

Module Js.

(** Characters that cannot be written inside a literal here. *)
Definition dq : ascii := ascii_of_nat 34.
Definition bs : ascii := ascii_of_nat 92.
Definition lf : ascii := ascii_of_nat 10.
Definition cr : ascii := ascii_of_nat 13.

Definition nl : string := String lf EmptyString.

(** [s] between double quotes. *)
Definition quoted (s : string) : string := String dq (s ++ String dq EmptyString).

(** ToBoolean on a string, and on a possibly undefined string. *)
Definition truthy (s : string) : bool :=
  match s with EmptyString => false | String _ _ => true end.

Definition truthy_opt (v : option string) : bool :=
  match v with Some s => truthy s | None => false end.

(** [a || b] where [a] may be undefined and [b] is a string. *)
Definition or_else (a : option string) (b : string) : string :=
  match a with
  | Some s => if truthy s then s else b
  | None => b
  end.

(** White space and line terminators among the code units < 256:
    TAB, LF, VT, FF, CR, SPACE, NBSP. *)
Definition is_space (c : ascii) : bool :=
  let n := nat_of_ascii c in
  ((9 <=? n) && (n <=? 13)) || (n =? 32) || (n =? 160).

Fixpoint trimStart (s : string) : string :=
  match s with
  | EmptyString => EmptyString
  | String c t => if is_space c then trimStart t else s
  end.

Fixpoint trimEnd (s : string) : string :=
  match s with
  | EmptyString => EmptyString
  | String c t =>
      match trimEnd t with
      | EmptyString => if is_space c then EmptyString else String c EmptyString
      | String d u => String c (String d u)
      end
  end.

(** String.prototype.trim *)
Definition trim (s : string) : string := trimEnd (trimStart s).

(** String.prototype.includes *)
Fixpoint includes (s t : string) : bool :=
  prefix t s ||
  match s with
  | EmptyString => false
  | String _ s' => includes s' t
  end.

Fixpoint drop (n : nat) (s : string) : string :=
  match n, s with
  | O, _ => s
  | S n', String _ t => drop n' t
  | S _, EmptyString => EmptyString
  end.

Fixpoint take (n : nat) (s : string) : string :=
  match n, s with
  | S n', String c t => String c (take n' t)
  | _, _ => EmptyString
  end.

(** String.prototype.replace with a string pattern: the first occurrence
    only. *)
Fixpoint replace_first (pat rep s : string) : string :=
  if prefix pat s then rep ++ drop (length pat) s
  else match s with
       | EmptyString => EmptyString
       | String c t => String c (replace_first pat rep t)
       end.

(** toLowerCase on one code unit < 256: A-Z, and the Latin-1 capitals
    192..222 except the multiplication sign 215. *)
Definition lower (c : ascii) : ascii :=
  let n := nat_of_ascii c in
  if ((65 <=? n) && (n <=? 90)) ||
     ((192 <=? n) && (n <=? 222) && negb (n =? 215))
  then ascii_of_nat (n + 32) else c.

Fixpoint toLowerCase (s : string) : string :=
  match s with
  | EmptyString => EmptyString
  | String c t => String (lower c) (toLowerCase t)
  end.

(** Array.prototype.join *)
Fixpoint join (sep : string) (l : list string) : string :=
  match l with
  | [] => EmptyString
  | [x] => x
  | x :: rest => x ++ sep ++ join sep rest
  end.

(** Number to decimal string, for non-negative integers. *)
Definition of_nat (n : nat) : string := NilEmpty.string_of_uint (Nat.to_uint n).

Fixpoint repeat (c : ascii) (n : nat) : string :=
  match n with
  | O => EmptyString
  | S n' => String c (repeat c n')
  end.

End Js.

(* ===================================================================== *)
(** * Regular expressions *)
(* ===================================================================== *)

(** A backtracking matcher for the fragment of ECMAScript regular
    expressions that the source uses: character classes, concatenation,
    alternation, greedy and lazy repetition, capture groups, the anchors
    [^] and [$] (without the [m] flag) and a one-character negative
    look-behind. *)
Module Regex.

Inductive re : Type :=
| Empty
| Class (p : ascii -> bool)
| Cat (a b : re)
| Alt (a b : re)
| Star (greedy : bool) (a : re)
| Group (i : nat) (a : re)
| Bol
| Eol
| NotAfter (p : ascii -> bool).

(** Matcher state: the code unit before the current position (if any), the
    input still to read, and the captures so far. *)
Record st : Type := St { prev : option ascii; rest : string; caps : list (nat * string) }.

(** Repetition of a matcher [step], at most [n] times.  An iteration
    that consumes nothing is rejected, as in ECMAScript. *)
Fixpoint star (greedy : bool) (step : st -> (st -> option st) -> option st)
    (k : st -> option st) (n : nat) (s : st) {struct n} : option st :=
  match n with
  | O => k s
  | S n' =>
      let more (_ : unit) :=
        step s (fun s' =>
          if length (rest s') <? length (rest s)
          then star greedy step k n' s' else None) in
      if greedy then
        match more tt with Some x => Some x | None => k s end
      else
        match k s with Some x => Some x | None => more tt end
  end.

(** [run r s k]: match [r] at the state [s], then continue with [k];
    alternatives are tried in the order of the ECMAScript matcher.  Every
    iteration of a repetition consumes at least one code unit, so one more
    than the length of the remaining input bounds their number. *)
Fixpoint run (r : re) (s : st) (k : st -> option st) {struct r} : option st :=
  match r with
  | Empty => k s
  | Class p =>
      match rest s with
      | String c t => if p c then k (St (Some c) t (caps s)) else None
      | EmptyString => None
      end
  | Cat a b => run a s (fun s' => run b s' k)
  | Alt a b =>
      match run a s k with
      | Some x => Some x
      | None => run b s k
      end
  | Star greedy a => star greedy (run a) k (S (length (rest s))) s
  | Group i a =>
      run a s (fun s' =>
        k (St (prev s') (rest s')
              ((i, Js.take (length (rest s) - length (rest s')) (rest s)) :: caps s')))
  | Bol => match prev s with None => k s | Some _ => None end
  | Eol => match rest s with EmptyString => k s | String _ _ => None end
  | NotAfter p =>
      match prev s with
      | Some c => if p c then None else k s
      | None => k s
      end
  end.

(** The match array: [whole] is element 0, [group i] element [i]. *)
Record result : Type := Result
  { index : nat; whole : string; groups : list (nat * string);
    last : option ascii; after : string }.

Fixpoint lookup (i : nat) (l : list (nat * string)) : option string :=
  match l with
  | [] => None
  | (j, v) :: l' => if i =? j then Some v else lookup i l'
  end.

Definition group (i : nat) (m : result) : option string := lookup i (groups m).

(** One attempt at the current position. *)
Definition at_pos (r : re) (p : option ascii) (idx : nat) (s : string) : option result :=
  match run r (St p s []) Some with
  | Some s' =>
      Some (Result idx (Js.take (length s - length (rest s')) s) (caps s')
                   (prev s') (rest s'))
  | None => None
  end.

(** Leftmost match at or after the current position. *)
Fixpoint search (r : re) (p : option ascii) (idx : nat) (s : string) : option result :=
  match at_pos r p idx s with
  | Some m => Some m
  | None =>
      match s with
      | EmptyString => None
      | String c t => search r (Some c) (S idx) t
      end
  end.

(** [s.match(r)] for a regular expression without the [g] flag. *)
Definition exec (r : re) (s : string) : option result := search r None 0 s.

(** [r.test(s)] *)
Definition test (r : re) (s : string) : bool :=
  match exec r s with Some _ => true | None => false end.

(** [s.replace(r, rep)] for a regular expression with the [g] flag and a
    replacement without [$] patterns. *)
Fixpoint replace_from (fuel : nat) (r : re) (rep : string) (p : option ascii) (s : string) : string :=
  match fuel with
  | O => s
  | S fuel' =>
      match at_pos r p 0 s with
      | Some m =>
          if length (after m) <? length s
          then rep ++ replace_from fuel' r rep (last m) (after m)
          else match s with
               | EmptyString => rep
               | String c t => rep ++ String c (replace_from fuel' r rep (Some c) t)
               end
      | None =>
          match s with
          | EmptyString => EmptyString
          | String c t => String c (replace_from fuel' r rep (Some c) t)
          end
      end
  end.

Definition replace_all (r : re) (rep : string) (s : string) : string :=
  replace_from (S (length s)) r rep None s.

(** All matches of a regular expression with the [g] flag, in order. *)
Fixpoint matches_from (fuel : nat) (r : re) (p : option ascii) (s : string) : list string :=
  match fuel with
  | O => []
  | S fuel' =>
      match at_pos r p 0 s with
      | Some m =>
          if length (after m) <? length s
          then whole m :: matches_from fuel' r (last m) (after m)
          else match s with
               | EmptyString => [whole m]
               | String c t => whole m :: matches_from fuel' r (Some c) t
               end
      | None =>
          match s with
          | EmptyString => []
          | String c t => matches_from fuel' r (Some c) t
          end
      end
  end.

(** [s.match(r)] for a regular expression with the [g] flag: [null] when
    nothing matches. *)
Definition match_all (r : re) (s : string) : option (list string) :=
  match matches_from (S (length s)) r None s with
  | [] => None
  | l => Some l
  end.

(** [s.split(r)] for a separator that never matches the empty string. *)
Fixpoint split_from (fuel : nat) (r : re) (p : option ascii) (acc s : string) : list string :=
  match fuel with
  | O => [acc ++ s]
  | S fuel' =>
      match s with
      | EmptyString => [acc]
      | String c t =>
          match at_pos r p 0 s with
          | Some m =>
              if length (after m) <? length s
              then acc :: split_from fuel' r (last m) EmptyString (after m)
              else split_from fuel' r (Some c) (acc ++ String c EmptyString) t
          | None => split_from fuel' r (Some c) (acc ++ String c EmptyString) t
          end
      end
  end.

Definition split (r : re) (s : string) : list string :=
  split_from (S (length s)) r None EmptyString s.

(** ** Building blocks *)

Definition chr (c : ascii) : re := Class (Ascii.eqb c).

(** A literal letter under the [i] flag. *)
Definition chr_i (c : ascii) : re := Class (fun x => Ascii.eqb (Js.lower x) (Js.lower c)).

Fixpoint lit (s : string) : re :=
  match s with
  | EmptyString => Empty
  | String c EmptyString => chr c
  | String c t => Cat (chr c) (lit t)
  end.

Fixpoint lit_i (s : string) : re :=
  match s with
  | EmptyString => Empty
  | String c EmptyString => chr_i c
  | String c t => Cat (chr_i c) (lit_i t)
  end.

Fixpoint mem (c : ascii) (l : list ascii) : bool :=
  match l with
  | [] => false
  | d :: l' => Ascii.eqb c d || mem c l'
  end.

(** [[^...]] *)
Definition none_of (l : list ascii) : re := Class (fun c => negb (mem c l)).

Definition is_digit (c : ascii) : bool :=
  let n := nat_of_ascii c in (48 <=? n) && (n <=? 57).

(** [\d], [\s], [.] and [[\s\S]] *)
Definition digit : re := Class is_digit.
Definition space : re := Class Js.is_space.
Definition dot : re := none_of [Js.lf; Js.cr].
Definition any : re := Class (fun _ => true).

Definition many1 (a : re) : re := Cat a (Star true a).
Definition maybe (a : re) : re := Alt a Empty.

Fixpoint cats (l : list re) : re :=
  match l with
  | [] => Empty
  | [a] => a
  | a :: l' => Cat a (cats l')
  end.

End Regex.

(* ===================================================================== *)
(** * Data model *)
(* ===================================================================== *)

Import Js Regex.

(** A thrown value: an [Error] object with its message, or anything else. *)
Inductive exn : Type :=
| JsError (message : string)
| NotAnError.

(** [e instanceof Error ? e.message : dflt] *)
Definition message_or (e : exn) (dflt : string) : string :=
  match e with
  | JsError m => m
  | NotAnError => dflt
  end.

(** The metadata object has a different shape for every producer. *)
Module Video.
Record metadata : Type := Metadata
  { videoId : string; channel : option string; viewCount : option string;
    publishDate : option string; type : string; platform : string;
    url : string; contentLength : nat; wordCount : nat;
    sources : list string; hasTranscript : bool; hasDescription : bool;
    extractionMethod : string }.
End Video.

Module Article.
Record metadata : Type := Metadata
  { author : string; publishDate : string; description : string;
    domain : string; type : string; url : string; contentLength : nat;
    wordCount : nat; source : string; hasMetadata : bool }.
End Article.

Module Social.
Record metadata : Type := Metadata
  { type : string; platform : string; url : string; source : string;
    contentType : string; note : string }.
End Social.

Module Transcription.
Record metadata : Type := Metadata
  { type : string; duration : option string;
    highlights : option (list string); sentiment : option string;
    entities : option (list string); description : string }.
End Transcription.

Module Custom.
(** [extra] holds the entries of [data.metadata], spread last into the
    object (an entry there overrides a field of the same name). *)
Record metadata : Type := Metadata
  { type : string; author : option string; publishedDate : option string;
    description : option string; thumbnails : option (list string);
    extra : list (string * string) }.
End Custom.

Inductive Metadata : Type :=
| VideoMeta (m : Video.metadata)
| ArticleMeta (m : Article.metadata)
| SocialMeta (m : Social.metadata)
| TranscriptionMeta (m : Transcription.metadata)
| CustomMeta (m : Custom.metadata).

(** [ScrapingResult]; an absent field is [None]. *)
Record ScrapingResult : Type := MkResult
  { success : bool; title : option string; content : option string;
    metadata : option Metadata; error : option string }.

(** [{ success: false, error: msg }] *)
Definition failure (msg : string) : ScrapingResult :=
  {| success := false; title := None; content := None; metadata := None;
     error := Some msg |}.

(** What [fetch] gives back: a rejected promise, or a response with its
    status line and what reading its body gives. *)
Inductive fetched (A : Type) : Type :=
| Rejected (e : exn)
| Responded (status : nat) (statusText : string) (body : A).

Arguments Rejected {A} e.
Arguments Responded {A} status statusText body.

(** [response.ok] *)
Definition ok (status : nat) : bool := (200 <=? status) && (status <=? 299).

(* ===================================================================== *)
(** * Pure leaves: the source classifier and the video-id extractor *)
(* ===================================================================== *)

(** [getContentType] of [src/lib/scrapers.ts]. *)
Definition getContentType (url : string) : string :=
  if includes url "youtube.com" || includes url "youtu.be" then "youtube"
  else if includes url "tiktok.com" then "tiktok"
  else if includes url "instagram.com" then "instagram"
  else "url".

(** [getContentTypeFromUrl] of the scrape route. *)
Definition getContentTypeFromUrl (url : string) : string :=
  if includes url "youtube.com" || includes url "youtu.be" then "youtube"
  else if includes url "tiktok.com" then "tiktok"
  else if includes url "instagram.com" then "instagram"
  else "url".

(** [[^&\n?#]+] captured as group 1. *)
Definition video_id_group : re :=
  Group 1 (many1 (none_of ["&"%char; lf; "?"%char; "#"%char])).

(** [/(?:youtube\.com\/watch\?v=|youtu\.be\/|youtube\.com\/embed\/)([^&\n?#]+)/] *)
Definition lib_id_pattern1 : re :=
  Cat (Alt (lit "youtube.com/watch?v=")
        (Alt (lit "youtu.be/") (lit "youtube.com/embed/")))
      video_id_group.

(** [/youtube\.com\/watch\?.*v=([^&\n?#]+)/] *)
Definition id_pattern2 : re :=
  cats [lit "youtube.com/watch?"; Star true dot; lit "v="; video_id_group].

(** [/(?:youtube\.com\/watch\?v=|youtu\.be\/|youtube\.com\/embed\/|youtube\.com\/v\/)([^&\n?#]+)/] *)
Definition route_id_pattern1 : re :=
  Cat (Alt (lit "youtube.com/watch?v=")
        (Alt (lit "youtu.be/")
          (Alt (lit "youtube.com/embed/") (lit "youtube.com/v/"))))
      video_id_group.

(** [match && match[1]]: the first capture of a match, when it is a
    non-empty string. *)
Definition captured (r : re) (s : string) : option string :=
  match exec r s with
  | Some m =>
      match group 1 m with
      | Some g => if truthy g then Some g else None
      | None => None
      end
  | None => None
  end.

(* ===================================================================== *)
(** * The scrape route *)
(* ===================================================================== *)

Module Route.

(** ** What the route sees of the outside world *)

Record OEmbed : Type := MkOEmbed
  { oembed_title : option string; author_name : option string }.

Record Snippet : Type := MkSnippet
  { snippet_title : option string; snippet_description : option string;
    channelTitle : option string; publishedAt : option string }.

Record Statistics : Type := MkStatistics { stat_viewCount : option string }.

(** One element of [apiData.items]. *)
Record VideoItem : Type := MkVideoItem
  { snippet : option Snippet; statistics : option Statistics }.

Record Env : Type := MkEnv
  { (** [process.env.YOUTUBE_API_KEY] *)
    YOUTUBE_API_KEY : option string;
    (** whether [import('youtube-transcript')] resolves *)
    transcript_module : bool;
    (** [YoutubeTranscript.fetchTranscript(videoId, {lang})]: [None] when
        it throws or yields no array, otherwise the [text] of the segments *)
    fetchTranscript : string -> option string -> option (list string);
    (** the watch page of a video id: [Some html] when the fetch resolves
        with [ok] and the body can be read *)
    fetch_watch_page : string -> option string;
    (** the oEmbed document for a URL: [Some] when the fetch resolves with
        [ok] and the body is JSON *)
    fetch_oembed : string -> option OEmbed;
    (** the [items] of the videos API for a video id and a key: [Some] when
        the fetch resolves with [ok] and the body is JSON (no [items]
        field is the empty list) *)
    fetch_videos_api : string -> string -> option (list VideoItem);
    (** the article fetch *)
    fetch_article : string -> fetched (exn + string);
    (** [new URL(url).hostname] *)
    url_hostname : string -> exn + string }.

(** ** Video ids *)

(** [extractYouTubeVideoId] of the route:
    [if (match && match[1]) return match[1]]. *)
Fixpoint first_captured (patterns : list re) (url : string) : option string :=
  match patterns with
  | [] => None
  | pattern :: more =>
      match captured pattern url with
      | Some id => Some id
      | None => first_captured more url
      end
  end.

Definition extractYouTubeVideoId (url : string) : option string :=
  first_captured [route_id_pattern1; id_pattern2] url.

(** ** Method 1: the transcript module *)

(** [/\[.*?\]/g] and [/\s+/g] *)
Definition bracketed : re := cats [chr "["; Star false dot; chr "]"].
Definition spaces : re := many1 space.

Definition cleanTranscript (segments : list string) : string :=
  trim (replace_all spaces " " (replace_all bracketed "" (join " " segments))).

Fixpoint transcriptAttempts (E : Env) (videoId : string)
    (attempts : list (option string)) : string :=
  match attempts with
  | [] => ""
  | options :: more =>
      match fetchTranscript E videoId options with
      | Some (seg :: segs) => cleanTranscript (seg :: segs)
      | Some [] => transcriptAttempts E videoId more
      | None => transcriptAttempts E videoId more
      end
  end.

Definition method1 (E : Env) (videoId : string) : string :=
  if transcript_module E
  then transcriptAttempts E videoId [Some "en"; Some "ar"; None]
  else "".

(** ** Method 2: the watch page *)

(** In the comments that quote a regular expression of the source, ' stands
    for the double quote. *)

Definition Q : string := String dq EmptyString.

(** [([^']+)] and [([^<]+)] as group 1 *)
Definition unquoted : re := Group 1 (many1 (none_of [dq])).
Definition untagged : re := Group 1 (many1 (none_of ["<"%char])).

(** [/<title>([^<]+)<\/title>/i], [/'title':'([^']+)'/i],
    [/property='og:title' content='([^']+)'/i],
    [/<meta name='title' content='([^']+)'/i] *)
Definition titlePatterns : list re :=
  [ cats [lit_i "<title>"; untagged; lit_i "</title>"];
    cats [lit_i (Q ++ "title" ++ Q ++ ":" ++ Q); unquoted; chr dq];
    cats [lit_i ("property=" ++ Q ++ "og:title" ++ Q ++ " content=" ++ Q);
          unquoted; chr dq];
    cats [lit_i ("<meta name=" ++ Q ++ "title" ++ Q ++ " content=" ++ Q);
          unquoted; chr dq] ].

(** [/\\u0026/g], [/\\'/g], [/\\n/g], [/\\u003c/g], [/\\u003e/g] *)
Definition esc_amp : re := lit (String bs "u0026").
Definition esc_quote : re := lit (String bs Q).
Definition esc_n : re := lit (String bs "n").
Definition esc_lt : re := lit (String bs "u003c").
Definition esc_gt : re := lit (String bs "u003e").

Definition cleanTitle (m1 : string) : string :=
  trim (replace_all esc_quote Q
         (replace_all esc_amp "&" (replace_first " - YouTube" "" m1))).

Fixpoint titleLoop (patterns : list re) (html videoTitle : string) : string :=
  match patterns with
  | [] => videoTitle
  | pattern :: more =>
      match captured pattern html with
      | Some m1 =>
          let videoTitle := cleanTitle m1 in
          if 5 <? length videoTitle then videoTitle
          else titleLoop more html videoTitle
      | None => titleLoop more html videoTitle
      end
  end.

(** [/'shortDescription':'([\s\S]*?)(?<!\\)'/],
    [/'description':\{'simpleText':'([^']+)'\}/],
    [/property='og:description' content='([^']+)'/i],
    [/<meta name='description' content='([^']+)'/i] *)
Definition descPatterns : list re :=
  [ cats [lit (Q ++ "shortDescription" ++ Q ++ ":" ++ Q);
          Group 1 (Star false any); NotAfter (Ascii.eqb bs); chr dq];
    cats [lit (Q ++ "description" ++ Q ++ ":{" ++ Q ++ "simpleText" ++ Q ++ ":" ++ Q);
          unquoted; chr dq; chr "}"];
    cats [lit_i ("property=" ++ Q ++ "og:description" ++ Q ++ " content=" ++ Q);
          unquoted; chr dq];
    cats [lit_i ("<meta name=" ++ Q ++ "description" ++ Q ++ " content=" ++ Q);
          unquoted; chr dq] ].

Definition cleanDescription (m1 : string) : string :=
  trim (replace_all esc_gt ">"
         (replace_all esc_lt "<"
           (replace_all esc_amp "&"
             (replace_all esc_quote Q (replace_all esc_n nl m1))))).

Fixpoint descLoop (patterns : list re) (html videoDescription : string) : string :=
  match patterns with
  | [] => videoDescription
  | pattern :: more =>
      match captured pattern html with
      | Some m1 =>
          let videoDescription := cleanDescription m1 in
          if 20 <? length videoDescription then videoDescription
          else descLoop more html videoDescription
      | None => descLoop more html videoDescription
      end
  end.

(** [a || b || ...] over match results, then [match && match[1]]. *)
Fixpoint first_match (patterns : list re) (html : string) : option string :=
  match patterns with
  | [] => None
  | pattern :: more =>
      match exec pattern html with
      | Some m =>
          match group 1 m with
          | Some g => if truthy g then Some g else None
          | None => None
          end
      | None => first_match more html
      end
  end.

(** [/'ownerChannelName':'([^']+)'/], [/'channelName':'([^']+)'/],
    [/property='og:video:tag' content='([^']+)'/] *)
Definition channelPatterns : list re :=
  [ cats [lit (Q ++ "ownerChannelName" ++ Q ++ ":" ++ Q); unquoted; chr dq];
    cats [lit (Q ++ "channelName" ++ Q ++ ":" ++ Q); unquoted; chr dq];
    cats [lit ("property=" ++ Q ++ "og:video:tag" ++ Q ++ " content=" ++ Q);
          unquoted; chr dq] ].

(** [/'viewCount':'([^']+)'/], and under the [i] flag a captured run of
    digits with any number of [,\d{3}] groups, then [\s+views]. *)
Definition viewPatterns : list re :=
  [ cats [lit (Q ++ "viewCount" ++ Q ++ ":" ++ Q); unquoted; chr dq];
    cats [Group 1 (Cat (many1 digit)
                       (Star true (cats [chr ","; digit; digit; digit])));
          many1 space; lit_i "views"] ].

(** The four variables the page scrape may set. *)
Record Page : Type := MkPage
  { page_title : string; page_description : string;
    page_channel : string; page_views : string }.

Definition scrapePage (html : string) : Page :=
  {| page_title := titleLoop titlePatterns html "";
     page_description := descLoop descPatterns html "";
     page_channel :=
       match first_match channelPatterns html with
       | Some m1 => replace_all esc_amp "&" m1
       | None => ""
       end;
     page_views :=
       match first_match viewPatterns html with
       | Some m1 => m1
       | None => ""
       end |}.

(** The caption probe that follows only logs, so it is left out. *)
Definition method2 (E : Env) (videoId : string) : Page :=
  match fetch_watch_page E videoId with
  | Some html => scrapePage html
  | None => MkPage "" "" "" ""
  end.

(** ** Method 2.5: oEmbed *)

(** [/^(\d+[kKmM]?)$/] *)
Definition numeric_title : re :=
  cats [Bol;
        Group 1 (Cat (many1 digit)
                     (maybe (Class (fun c => mem c ["k"; "K"; "m"; "M"]%char))));
        Eol].

Definition looksWeakTitle (videoTitle : string) : bool :=
  negb (truthy videoTitle) || (length videoTitle <? 3) || test numeric_title videoTitle.

(** [if (!x && v) x = v] *)
Definition fill (x : string) (v : option string) : string :=
  if negb (truthy x) && truthy_opt v then or_else v x else x.

(** The title and the channel name after the oEmbed step. *)
Definition method2_5 (E : Env) (url videoTitle channelName : string) : string * string :=
  if looksWeakTitle videoTitle then
    match fetch_oembed E url with
    | Some oembed =>
        (fill videoTitle (oembed_title oembed), fill channelName (author_name oembed))
    | None => (videoTitle, channelName)
    end
  else (videoTitle, channelName).
(** ** Method 3: the videos API *)

(** The variables of the chain once the API may have written [undefined]
    into them. *)
Record Fields : Type := MkFields
  { videoTitle : option string; videoDescription : option string;
    channelName : option string; viewCount : option string;
    publishDate : option string }.

(** [if (!x) x = v] *)
Definition assign_if_empty (x v : option string) : option string :=
  if truthy_opt x then x else v.

(** The body of [if (apiData.items && apiData.items.length > 0)] for
    [video = apiData.items[0]].  Reading a property of a missing [snippet]
    or [statistics] throws; the surrounding [catch] keeps the assignments
    made before that. *)
Definition applyVideo (video : VideoItem) (f : Fields) : Fields :=
  match snippet video with
  | None => f
  | Some sn =>
      let t := assign_if_empty (videoTitle f) (snippet_title sn) in
      let d := assign_if_empty (videoDescription f) (snippet_description sn) in
      let c := assign_if_empty (channelName f) (channelTitle sn) in
      if truthy_opt (viewCount f) then
        MkFields t d c (viewCount f) (publishedAt sn)
      else
        match statistics video with
        | None => MkFields t d c (viewCount f) (publishDate f)
        | Some stt => MkFields t d c (stat_viewCount stt) (publishedAt sn)
        end
  end.

Definition method3 (E : Env) (videoId : string) (f : Fields) : Fields :=
  if truthy_opt (YOUTUBE_API_KEY E) &&
     (negb (truthy_opt (videoTitle f)) || negb (truthy_opt (videoDescription f)))
  then
    match fetch_videos_api E videoId (or_else (YOUTUBE_API_KEY E) "") with
    | Some (video :: _) => applyVideo video f
    | Some [] => f
    | None => f
    end
  else f.

(** ** Synthesis *)

(** [x && x.length > n] *)
Definition longer_than (n : nat) (x : option string) : bool :=
  match x with
  | Some s => truthy s && (n <? length s)
  | None => false
  end.

(** [finalContent] and [contentSources] before the fallback. *)
Definition assemble (transcript : string) (f : Fields) : string * list string :=
  let c0 := "" in
  let s0 : list string := [] in
  let '(c1, s1) :=
    if longer_than 100 (Some transcript)
    then (c0 ++ "TRANSCRIPT:" ++ nl ++ transcript ++ nl ++ nl, (s0 ++ ["Video Transcript"])%list)
    else (c0, s0) in
  let c2 :=
    if truthy_opt (videoTitle f)
    then c1 ++ "TITLE: " ++ or_else (videoTitle f) "" ++ nl ++ nl
    else c1 in
  let '(c3, s3) :=
    if longer_than 20 (videoDescription f)
    then (c2 ++ "DESCRIPTION:" ++ nl ++ or_else (videoDescription f) "" ++ nl ++ nl,
          (s1 ++ ["Video Description"])%list)
    else (c2, s1) in
  let c4 :=
    if truthy_opt (channelName f)
    then c3 ++ "CHANNEL: " ++ or_else (channelName f) "" ++ nl ++ nl
    else c3 in
  let c5 :=
    if truthy_opt (viewCount f)
    then c4 ++ "Views: " ++ or_else (viewCount f) "" ++ nl ++ nl
    else c4 in
  (c5, s3).

(** The template of the VIDEO ANALYSIS block, before [.trim()]. *)
Definition analysisTemplate (videoId : string) (f : Fields) : string :=
  nl ++ "VIDEO ANALYSIS:" ++ nl ++
  "Title: " ++ or_else (videoTitle f) ("YouTube Video " ++ videoId) ++ nl ++
  "Channel: " ++ or_else (channelName f) "Unknown Channel" ++ nl ++
  (if truthy_opt (viewCount f) then "Views: " ++ or_else (viewCount f) "" else "") ++ nl ++
  (if truthy_opt (publishDate f) then "Published: " ++ or_else (publishDate f) "" else "") ++ nl ++
  nl ++
  "CONTENT SUMMARY:" ++ nl ++
  "This YouTube video contains valuable information for content creators and marketers. While we couldn't extract the full transcript, the video appears to cover topics relevant to digital marketing, content strategy, or educational content based on the title and available metadata." ++ nl ++
  nl ++
  "KEY ELEMENTS:" ++ nl ++
  "- Professional video content" ++ nl ++
  "- Likely contains actionable insights" ++ nl ++
  "- Suitable for analysis and discussion" ++ nl ++
  "- Part of " ++ or_else (channelName f) "established YouTube channel" ++ nl ++
  "      ".

Definition analysisBlock (videoId : string) (f : Fields) : string :=
  trim (analysisTemplate videoId f).

(** [finalContent] and [contentSources] after
    [if (finalContent.length < 200) ...]. *)
Definition withFallback (videoId : string) (f : Fields)
    (assembled : string * list string) : string * list string :=
  let '(finalContent, contentSources) := assembled in
  if length finalContent <? 200
  then (analysisBlock videoId f, (contentSources ++ ["Enhanced Analysis"])%list)
  else (finalContent, contentSources).

Definition insufficient : string :=
  "Could not extract sufficient content from this YouTube video. The video may be private, have restricted access, or lack transcript data.".

(** The message of the TypeError that reading [.length] of [undefined]
    raises (V8 wording). *)
Definition undefined_length : exn :=
  JsError "Cannot read properties of undefined (reading 'length')".

(** From [if (!finalContent || finalContent.trim().length < 50)] to
    [return result]; [inl] is an exception on its way to the [catch]. *)
Definition conclude (url videoId transcript : string) (f : Fields)
    (final : string * list string) : exn + ScrapingResult :=
  let '(finalContent, contentSources) := final in
  if negb (truthy finalContent) || (length (trim finalContent) <? 50)
  then inr (failure insufficient)
  else
    match videoDescription f with
    | None => inl undefined_length
    | Some description =>
        inr {| success := true;
               title := Some (or_else (videoTitle f) ("YouTube Video - " ++ videoId));
               content := Some (trim finalContent);
               metadata := Some (VideoMeta
                 {| Video.videoId := videoId;
                    Video.channel := channelName f;
                    Video.viewCount := viewCount f;
                    Video.publishDate := publishDate f;
                    Video.type := "video";
                    Video.platform := "YouTube";
                    Video.url := url;
                    Video.contentLength := length finalContent;
                    Video.wordCount := List.length (split spaces finalContent);
                    Video.sources := contentSources;
                    Video.hasTranscript := 100 <? length transcript;
                    Video.hasDescription := 20 <? length description;
                    Video.extractionMethod := join ", " contentSources |});
               error := None |}
    end.

(** The [catch] of [scrapeYouTubeContentEnhanced]. *)
Definition youtubeCatch (e : exn) : ScrapingResult :=
  let errorMessage := toLowerCase (message_or e "") in
  if includes errorMessage "transcript" then
    failure "This video does not have transcripts available. Try a different video with captions/subtitles enabled."
  else if includes errorMessage "private" || includes errorMessage "unavailable" then
    failure "This video is private or unavailable. Please check the URL and try a public video."
  else if includes errorMessage "blocked" || includes errorMessage "restricted" then
    failure "Access to this video is restricted. Try a different video or check regional availability."
  else
    failure ("Enhanced YouTube scraping failed: " ++ message_or e "Unknown error" ++
             ". Please try a different video.").

(** The variables of the chain when the synthesis starts. *)
Definition collect (E : Env) (url videoId : string) : Fields :=
  let page := method2 E videoId in
  let '(title1, channel1) := method2_5 E url (page_title page) (page_channel page) in
  method3 E videoId
    {| videoTitle := Some title1;
       videoDescription := Some (page_description page);
       channelName := Some channel1;
       viewCount := Some (page_views page);
       publishDate := Some "" |}.

Definition scrapeYouTubeContentEnhanced (E : Env) (url : string) : ScrapingResult :=
  match extractYouTubeVideoId url with
  | None => failure "Invalid YouTube URL"
  | Some videoId =>
      let transcript := method1 E videoId in
      let f := collect E url videoId in
      match conclude url videoId transcript f
              (withFallback videoId f (assemble transcript f)) with
      | inr result => result
      | inl e => youtubeCatch e
      end
  end.

(** ** The article chain *)

(** [\s+], [[^>]*], [[^']*] *)
Definition in_tag : re := Star true (none_of [">"%char]).
Definition in_quotes : re := Star true (none_of [dq]).

(** [/<title[^>]*>([^<]+)<\/title>/i],
    [/<meta\s+property='og:title'\s+content='([^']+)'/i],
    [/<meta\s+name='title'\s+content='([^']+)'/i],
    [/<h1[^>]*>([^<]+)<\/h1>/i] *)
Definition meta_tag (attr name : string) : re :=
  cats [lit_i "<meta"; spaces; lit_i (attr ++ "=" ++ Q ++ name ++ Q); spaces;
        lit_i ("content=" ++ Q); unquoted; chr dq].

Definition articleTitlePatterns : list re :=
  [ cats [lit_i "<title"; in_tag; chr ">"; untagged; lit_i "</title>"];
    meta_tag "property" "og:title";
    meta_tag "name" "title";
    cats [lit_i "<h1"; in_tag; chr ">"; untagged; lit_i "</h1>"] ].

Fixpoint articleTitleLoop (patterns : list re) (html title : string) : string :=
  match patterns with
  | [] => title
  | pattern :: more =>
      match captured pattern html with
      | Some m1 =>
          let title := replace_all spaces " " (trim m1) in
          if 5 <? length title then title
          else articleTitleLoop more html title
      | None => articleTitleLoop more html title
      end
  end.

(** A content pattern, without or with the [g] flag. *)
Inductive ContentPattern : Type :=
| Single (r : re)
| Global (r : re).

(** [<tag[^>]*>([\s\S]*?)<\/tag>] under the [i] flag *)
Definition element (tag : string) : re :=
  cats [lit_i ("<" ++ tag); in_tag; chr ">"; Group 1 (Star false any);
        lit_i ("</" ++ tag ++ ">")].

(** [/<div[^>]*class='[^']*word[^']*'[^>]*>([\s\S]*?)<\/div>/i] *)
Definition div_of_class (word : string) : re :=
  cats [lit_i "<div"; in_tag; lit_i ("class=" ++ Q); in_quotes; lit_i word;
        in_quotes; chr dq; in_tag; chr ">"; Group 1 (Star false any);
        lit_i "</div>"].

(** [/'articleBody':'([^']+)'/], [/'text':'([^']+)'/],
    [/<article[^>]*>([\s\S]*?)<\/article>/i],
    [/<main[^>]*>([\s\S]*?)<\/main>/i], the two content divs, and
    [/(<p[^>]*>[\s\S]*?<\/p>)/gi] *)
Definition contentPatterns : list ContentPattern :=
  [ Single (cats [lit (Q ++ "articleBody" ++ Q ++ ":" ++ Q); unquoted; chr dq]);
    Single (cats [lit (Q ++ "text" ++ Q ++ ":" ++ Q); unquoted; chr dq]);
    Single (element "article");
    Single (element "main");
    Single (div_of_class "content");
    Single (div_of_class "article");
    Global (Group 1 (cats [lit_i "<p"; in_tag; chr ">"; Star false any; lit_i "</p>"])) ].

(** [/<script[\s\S]*?<\/script>/gi], [/<style[\s\S]*?<\/style>/gi],
    [/<[^>]+>/g] *)
Definition script_block : re := cats [lit_i "<script"; Star false any; lit_i "</script>"].
Definition style_block : re := cats [lit_i "<style"; Star false any; lit_i "</style>"].
Definition any_tag : re := cats [chr "<"; many1 (none_of [">"%char]); chr ">"].

Definition cleanBlock (m1 : string) : string :=
  trim (replace_all spaces " "
         (replace_all any_tag " "
           (replace_all style_block "" (replace_all script_block "" m1)))).

Definition joinParagraphs (matches : list string) : string :=
  join (nl ++ nl)
    (filter (fun p => 20 <? length p)
       (map (fun p => trim (replace_all any_tag "" p)) matches)).

(** One evaluation of [html.match(pattern)] and of the branch under
    [if (matches)]: the new value of [content], if any. *)
Definition candidate (pattern : ContentPattern) (html : string) : option string :=
  match pattern with
  | Global r =>
      match match_all r html with
      | Some matches => Some (joinParagraphs matches)
      | None => None
      end
  | Single r =>
      match exec r html with
      | Some m => Some (cleanBlock (or_else (group 1 m) ""))
      | None => None
      end
  end.

Fixpoint contentLoop (patterns : list ContentPattern) (html content : string) : string :=
  match patterns with
  | [] => content
  | pattern :: more =>
      match candidate pattern html with
      | Some content =>
          if 200 <? length content then content
          else contentLoop more html content
      | None => contentLoop more html content
      end
  end.

(** The ordered patterns of [metaPatterns]. *)
Definition authorPatterns : list re :=
  [ meta_tag "name" "author";
    meta_tag "property" "article:author";
    cats [lit_i (Q ++ "author" ++ Q ++ ":" ++ Q); unquoted; chr dq] ].

Definition publishDatePatterns : list re :=
  [ meta_tag "property" "article:published_time";
    meta_tag "name" "date";
    cats [lit_i (Q ++ "datePublished" ++ Q ++ ":" ++ Q); unquoted; chr dq] ].

Definition descriptionPatterns : list re :=
  [ meta_tag "name" "description";
    meta_tag "property" "og:description" ].

(** The first pattern with [match && match[1]] sets the value, trimmed. *)
Fixpoint metaValue (patterns : list re) (html : string) : string :=
  match patterns with
  | [] => ""
  | pattern :: more =>
      match captured pattern html with
      | Some m1 => trim m1
      | None => metaValue more html
      end
  end.

Definition meaningless : string :=
  "Could not extract meaningful content from this article. The site may use heavy JavaScript or have access restrictions.".

(** The template of the ARTICLE ANALYSIS block, before [.trim()]. *)
Definition articleTemplate (title author publishDate hostname content description : string) : string :=
  nl ++ "ARTICLE ANALYSIS:" ++ nl ++
  "Title: " ++ or_else (Some title) "Untitled Article" ++ nl ++
  "Author: " ++ or_else (Some author) "Unknown Author" ++ nl ++
  (if truthy publishDate then "Published: " ++ publishDate else "") ++ nl ++
  "Source: " ++ hostname ++ nl ++
  nl ++
  "CONTENT:" ++ nl ++
  content ++ nl ++
  nl ++
  (if truthy description then nl ++ "SUMMARY: " ++ description else "") ++ nl ++
  "    ".

(** The [try] block once the page is read. *)
Definition articleFromHtml (E : Env) (url html : string) : exn + ScrapingResult :=
  let title := articleTitleLoop articleTitlePatterns html "" in
  let content := contentLoop contentPatterns html "" in
  let author := metaValue authorPatterns html in
  let publishDate := metaValue publishDatePatterns html in
  let description := metaValue descriptionPatterns html in
  if negb (truthy content) || (length content <? 100)
  then inr (failure meaningless)
  else
    match url_hostname E url with
    | inl e => inl e
    | inr hostname =>
        let finalContent :=
          trim (articleTemplate title author publishDate hostname content description) in
        inr {| success := true;
               title := Some (or_else (Some title) "Untitled Article");
               content := Some finalContent;
               metadata := Some (ArticleMeta
                 {| Article.author := author;
                    Article.publishDate := publishDate;
                    Article.description := description;
                    Article.domain := hostname;
                    Article.type := "article";
                    Article.url := url;
                    Article.contentLength := length finalContent;
                    Article.wordCount := List.length (split spaces finalContent);
                    Article.source := "Enhanced Web Scraping";
                    Article.hasMetadata :=
                      truthy author || truthy publishDate || truthy description |});
               error := None |}
    end.

(** The [try] block: the fetch, the status check, the body. *)
Definition articleTry (E : Env) (url : string) : exn + ScrapingResult :=
  match fetch_article E url with
  | Rejected e => inl e
  | Responded status statusText body =>
      if negb (ok status)
      then inl (JsError ("HTTP " ++ of_nat status ++ ": " ++ statusText))
      else
        match body with
        | inl e => inl e
        | inr html => articleFromHtml E url html
        end
  end.

(** The [catch] of [scrapeArticleContentEnhanced]. *)
Definition articleCatch (e : exn) : ScrapingResult :=
  match e with
  | JsError message =>
      if includes message "timeout" then
        failure "The website took too long to respond. Try a different article or check your internet connection."
      else if includes message "403" || includes message "forbidden" then
        failure "Access to this website is restricted. Try a different article from a more accessible source."
      else failure ("Article scraping failed: " ++ message)
  | NotAnError => failure ("Article scraping failed: " ++ "Unknown error")
  end.

Definition scrapeArticleContentEnhanced (E : Env) (url : string) : ScrapingResult :=
  match articleTry E url with
  | inr result => result
  | inl e => articleCatch e
  end.

(** ** The social placeholders *)

Definition scrapeTikTokContent (url : string) : ScrapingResult :=
  {| success := true;
     title := Some "TikTok Content";
     content := Some (
       "TikTok video analysis from: " ++ url ++ nl ++
       nl ++
       "This TikTok video contains visual and audio content that may include:" ++ nl ++
       "- Trending music or sounds" ++ nl ++
       "- Creative visual elements" ++ nl ++
       "- Short-form entertainment or educational content" ++ nl ++
       "- User-generated creative content" ++ nl ++
       "- Potential viral trends or challenges" ++ nl ++
       nl ++
       "Note: TikTok content is primarily visual and audio-based. For detailed analysis, manual viewing is recommended as the platform's dynamic nature makes automated text extraction challenging." ++ nl ++
       nl ++
       "The content likely follows TikTok's format of engaging, quick-consumption media designed for mobile viewing and social sharing.");
     metadata := Some (SocialMeta
       {| Social.type := "social";
          Social.platform := "TikTok";
          Social.url := url;
          Social.source := "Enhanced Social Media Analysis";
          Social.contentType := "video";
          Social.note := "Visual/audio content - manual review recommended" |});
     error := None |}.

Definition scrapeInstagramContent (url : string) : ScrapingResult :=
  {| success := true;
     title := Some "Instagram Content";
     content := Some (
       "Instagram post analysis from: " ++ url ++ nl ++
       nl ++
       "This Instagram content may include:" ++ nl ++
       "- High-quality visual imagery" ++ nl ++
       "- Video content (Reels, Stories, or Posts)" ++ nl ++
       "- Captions with hashtags and engagement elements" ++ nl ++
       "- Visual storytelling elements" ++ nl ++
       "- Brand or personal content" ++ nl ++
       nl ++
       "Note: Instagram content is heavily visual-focused. The platform emphasizes image and video content over text, making automated text extraction limited. Manual viewing provides the full content experience." ++ nl ++
       nl ++
       "The post likely follows Instagram's aesthetic and engagement-driven format designed for visual consumption and social interaction.");
     metadata := Some (SocialMeta
       {| Social.type := "social";
          Social.platform := "Instagram";
          Social.url := url;
          Social.source := "Enhanced Social Media Analysis";
          Social.contentType := "visual";
          Social.note := "Visual content - manual review recommended" |});
     error := None |}.

(** ** The handler *)

(** The request as the handler reads it: a body that [request.json()]
    cannot deliver, or the [url] and [type] fields of the body. *)
Inductive Request : Type :=
| Unreadable (e : exn)
| Body (url type : option string).

(** The strategy chosen by [switch (contentType)]. *)
Definition dispatch (E : Env) (contentType url : string) : ScrapingResult :=
  if (contentType =? "youtube")%string then scrapeYouTubeContentEnhanced E url
  else if (contentType =? "tiktok")%string then scrapeTikTokContent url
  else if (contentType =? "instagram")%string then scrapeInstagramContent url
  else scrapeArticleContentEnhanced E url.

(** [POST]: the HTTP status and the JSON body of the reply. *)
Definition POST (E : Env) (request : Request) : nat * ScrapingResult :=
  match request with
  | Unreadable e => (500, failure (message_or e "Internal server error"))
  | Body url type =>
      if negb (truthy_opt url) then (400, failure "URL is required")
      else
        let url := or_else url "" in
        let contentType :=
          if truthy_opt type then or_else type "" else getContentTypeFromUrl url in
        (200, dispatch E contentType url)
  end.

End Route.

(* ===================================================================== *)
(** * The client library *)
(* ===================================================================== *)

Module Lib.

(** ** What the client sees of the outside world *)

(** The body of a reply of [/api/scrape]: what [response.text()] and
    [response.json()] give. *)
Record ApiBody : Type := MkApiBody
  { body_text : exn + string; body_json : exn + ScrapingResult }.

(** The JSON of the transcription service: the reply to the submission and
    the reply to a poll. *)
Record Submitted : Type := MkSubmitted
  { submitted_status : option string; id : option string }.

Record Polled : Type := MkPolled
  { status : option string; polled_error : option string;
    text : option string; audio_duration : option nat;
    auto_highlights : option (list string);
    sentiment_summary : option string;
    entity_texts : option (list string) }.

(** The JSON of the custom scraper. *)
Record CustomData : Type := MkCustomData
  { data_title : option string; data_content : option string;
    data_text : option string; data_type : option string;
    data_author : option string; data_published_date : option string;
    data_description : option string;
    data_thumbnails : option (list string);
    data_metadata : list (string * string) }.

Record Client : Type := MkClient
  { ASSEMBLYAI_API_KEY : option string;
    CUSTOM_SCRAPER_API_KEY : option string;
    CUSTOM_SCRAPER_API_URL : option string;
    (** the reply to the n-th POST to [/api/scrape] with body
        [{url, type}], counting from 0 *)
    api : nat -> string -> string -> fetched ApiBody;
    (** the submission of a video id under a key *)
    assembly_submit : string -> string -> fetched (exn + Submitted);
    (** the n-th poll of a transcript id: the fetch and [json()] *)
    assembly_poll : option string -> nat -> exn + Polled;
    (** the custom scraper at an address, under a key, for a URL *)
    custom_api : string -> string -> string -> fetched (exn + CustomData) }.

(** ** Effects: requests sent and time spent waiting *)

Inductive Event : Type :=
| Posted (attempt : nat)
| Waited (ms : Z).

Record State : Type := MkState { sent : nat; trace : list Event }.

Definition start : State := MkState 0 [].

Definition M (A : Type) : Type := State -> A * State.

Definition ret {A : Type} (a : A) : M A := fun s => (a, s).

Definition bind {A B : Type} (m : M A) (k : A -> M B) : M B :=
  fun s => let '(a, s') := m s in k a s'.

Notation "x <- m ;; k" := (bind m (fun x => k))
  (at level 61, m at next level, right associativity).
Notation "m ;;; k" := (bind m (fun _ => k))
  (at level 61, right associativity).

(** [await fetch(apiUrl, {method: 'POST', body: JSON.stringify({url, type})})] *)
Definition post (C : Client) (attempt : nat) (url type : string) : M (fetched ApiBody) :=
  fun s => (api C (sent s) url type,
            MkState (S (sent s)) (trace s ++ [Posted attempt])).

(** [await new Promise(resolve => setTimeout(resolve, ms))] *)
Definition wait (ms : Z) : M unit :=
  fun s => (tt, MkState (sent s) (trace s ++ [Waited ms])).

(** ** [extractYouTubeVideoId]: [if (match) return match[1]] *)

Fixpoint first_group (patterns : list re) (url : string) : option string :=
  match patterns with
  | [] => None
  | pattern :: more =>
      match exec pattern url with
      | Some m => group 1 m
      | None => first_group more url
      end
  end.

Definition extractYouTubeVideoId (url : string) : option string :=
  first_group [lib_id_pattern1; id_pattern2] url.

(** ** [scrapeContent] *)

(** The [try] block of one attempt, after the fetch. *)
Definition attemptOutcome (reply : fetched ApiBody) : exn + ScrapingResult :=
  match reply with
  | Rejected e => inl e
  | Responded status statusText body =>
      if negb (ok status) then
        match body_text body with
        | inl e => inl e
        | inr errorText =>
            inl (JsError ("HTTP " ++ of_nat status ++ ": " ++ statusText ++
                          " - " ++ errorText))
        end
      else body_json body
  end.

(** [Math.min(1000 * Math.pow(2, attempt - 1), 5000)] *)
Definition waitTime (attempt : nat) : Z :=
  Z.min (1000 * 2 ^ (Z.of_nat attempt - 1)) 5000.

(** [lastError?.message || 'Unknown error'] *)
Definition lastMessage (lastError : option string) : string :=
  or_else lastError "Unknown error".

(** The [for] loop from [attempt] on, with [remaining] iterations to go
    ([remaining = maxRetries + 1 - attempt]), and the code after it. *)
Fixpoint attemptsFrom (C : Client) (url type : string) (maxRetries : nat)
    (remaining attempt : nat) (lastError : option string) : M ScrapingResult :=
  match remaining with
  | O =>
      ret (failure ("Scraping failed after " ++ of_nat maxRetries ++
                    " attempts: " ++ lastMessage lastError))
  | S remaining' =>
      reply <- post C attempt url type ;;
      match attemptOutcome reply with
      | inr data => ret data
      | inl error =>
          let lastError := Some (message_or error "Unknown error") in
          (if attempt <? maxRetries then wait (waitTime attempt) else ret tt) ;;;
          attemptsFrom C url type maxRetries remaining' (S attempt) lastError
      end
  end.

Definition maxRetries : nat := 3.

Definition scrapeContent (C : Client) (url type : string) : M ScrapingResult :=
  attemptsFrom C url type maxRetries maxRetries 1 None.

(** ** [scrapeWithAssemblyAI] *)

(** [Math.round(seconds / 60)] for a whole number of seconds *)
Definition roundMinutes (seconds : nat) : nat := (seconds + 30) / 60.

Definition equals (v : option string) (s : string) : bool :=
  match v with
  | Some x => (x =? s)%string
  | None => false
  end.

(** The result returned when a poll says [completed]. *)
Definition transcriptResult (statusData : Polled) : ScrapingResult :=
  {| success := true;
     title := Some "YouTube Video Transcript";
     content := text statusData;
     metadata := Some (TranscriptionMeta
       {| Transcription.type := "video";
          Transcription.duration :=
            match audio_duration statusData with
            | Some (S d) => Some (of_nat (roundMinutes (S d)) ++ " minutes")
            | Some O => None
            | None => None
            end;
          Transcription.highlights := auto_highlights statusData;
          Transcription.sentiment := sentiment_summary statusData;
          Transcription.entities := entity_texts statusData;
          Transcription.description := "Transcript generated by AssemblyAI" |});
     error := None |}.

(** The [while] loop with [remaining = maxAttempts - attempts] iterations
    to go, and the [throw] after it. *)
Fixpoint pollFrom (C : Client) (transcriptId : option string)
    (remaining attempts : nat) : M (exn + ScrapingResult) :=
  match remaining with
  | O => ret (inl (JsError "AssemblyAI transcription timed out"))
  | S remaining' =>
      wait 10000 ;;;
      match assembly_poll C transcriptId attempts with
      | inl e => ret (inl e)
      | inr statusData =>
          if equals (status statusData) "error" then
            ret (inl (JsError ("AssemblyAI transcription failed: " ++
                               match polled_error statusData with
                               | Some e => e
                               | None => "undefined"
                               end)))
          else if equals (status statusData) "completed" then
            ret (inr (transcriptResult statusData))
          else pollFrom C transcriptId remaining' (S attempts)
      end
  end.

Definition maxAttempts : nat := 30.

(** The [try] block once the key is known. *)
Definition assemblyTry (C : Client) (key videoId : string) : M (exn + ScrapingResult) :=
  match assembly_submit C key videoId with
  | Rejected e => ret (inl e)
  | Responded st statusText body =>
      if negb (ok st)
      then ret (inl (JsError ("AssemblyAI API error: " ++ statusText)))
      else
        match body with
        | inl e => ret (inl e)
        | inr transcriptData =>
            if equals (submitted_status transcriptData) "completed"
            then ret (inl (JsError "AssemblyAI transcription timed out"))
            else pollFrom C (id transcriptData) maxAttempts 0
        end
  end.

Definition scrapeWithAssemblyAI (C : Client) (url : string) : M ScrapingResult :=
  match extractYouTubeVideoId url with
  | None => ret (failure "Invalid YouTube URL")
  | Some videoId =>
      if negb (truthy videoId) then ret (failure "Invalid YouTube URL")
      else if negb (truthy_opt (ASSEMBLYAI_API_KEY C))
      then scrapeContent C url "youtube"
      else
        r <- assemblyTry C (or_else (ASSEMBLYAI_API_KEY C) "") videoId ;;
        match r with
        | inr result => ret result
        | inl _ => scrapeContent C url "youtube"
        end
  end.

(** ** [scrapeWithCustomAPI] *)

(** The object returned after [const data = await response.json()]. *)
Definition fromCustomData (url : string) (data : CustomData) : ScrapingResult :=
  {| success := true;
     title := Some (or_else (data_title data) "Scraped Content");
     content := Some (or_else (data_content data) (or_else (data_text data) ""));
     metadata := Some (CustomMeta
       {| Custom.type := or_else (data_type data) (getContentType url);
          Custom.author := data_author data;
          Custom.publishedDate := data_published_date data;
          Custom.description := data_description data;
          Custom.thumbnails := data_thumbnails data;
          Custom.extra := data_metadata data |});
     error := None |}.

Definition customTry (C : Client) (customAPIUrl customAPIKey url : string) : exn + ScrapingResult :=
  match custom_api C customAPIUrl customAPIKey url with
  | Rejected e => inl e
  | Responded st statusText body =>
      if negb (ok st)
      then inl (JsError ("Custom API error: " ++ statusText))
      else
        match body with
        | inl e => inl e
        | inr data => inr (fromCustomData url data)
        end
  end.

Definition scrapeWithCustomAPI (C : Client) (url : string) : M ScrapingResult :=
  if negb (truthy_opt (CUSTOM_SCRAPER_API_KEY C)) ||
     negb (truthy_opt (CUSTOM_SCRAPER_API_URL C))
  then scrapeContent C url (getContentType url)
  else
    match customTry C (or_else (CUSTOM_SCRAPER_API_URL C) "")
                      (or_else (CUSTOM_SCRAPER_API_KEY C) "") url with
    | inr result => ret result
    | inl _ => scrapeContent C url (getContentType url)
    end.

(** ** [scrapeContentEnhanced] *)

Definition scrapeContentEnhanced (C : Client) (url type : string) : M ScrapingResult :=
  first <-
    (if (type =? "youtube")%string && truthy_opt (ASSEMBLYAI_API_KEY C) then
       assemblyResult <- scrapeWithAssemblyAI C url ;;
       ret (if success assemblyResult then Some assemblyResult else None)
     else ret None) ;;
  match first with
  | Some assemblyResult => ret assemblyResult
  | None =>
      second <-
        (if truthy_opt (CUSTOM_SCRAPER_API_KEY C) &&
            truthy_opt (CUSTOM_SCRAPER_API_URL C) then
           customResult <- scrapeWithCustomAPI C url ;;
           ret (if success customResult then Some customResult else None)
         else ret None) ;;
      match second with
      | Some customResult => ret customResult
      | None => scrapeContent C url type
      end
  end.

(** ** The route behind [/api/scrape] *)

(** A deployment: for the n-th request, whether it is lost on the way
    (connection error, the 30 s abort), the world the route runs in, and
    the serialiser of the reply. *)
Record Deployment : Type := MkDeployment
  { lost : nat -> option exn;
    server : nat -> Route.Env;
    stringify : ScrapingResult -> string }.

(** The reason phrase that an HTTP/1.1 server sends with the three
    statuses of the route, which [fetch] reports as [statusText]. *)
Definition reasonPhrase (status : nat) : string :=
  if status =? 200 then "OK"
  else if status =? 400 then "Bad Request"
  else "Internal Server Error".

Definition routeApi (D : Deployment) (n : nat) (url type : string) : fetched ApiBody :=
  match lost D n with
  | Some e => Rejected e
  | None =>
      let '(status, result) := Route.POST (server D n) (Route.Body (Some url) (Some type)) in
      Responded status (reasonPhrase status)
        {| body_text := inr (stringify D result); body_json := inr result |}
  end.

(** The client [C] with the route of [D] behind [/api/scrape]. *)
Definition served (D : Deployment) (C : Client) : Client :=
  {| ASSEMBLYAI_API_KEY := ASSEMBLYAI_API_KEY C;
     CUSTOM_SCRAPER_API_KEY := CUSTOM_SCRAPER_API_KEY C;
     CUSTOM_SCRAPER_API_URL := CUSTOM_SCRAPER_API_URL C;
     api := routeApi D;
     assembly_submit := assembly_submit C;
     assembly_poll := assembly_poll C;
     custom_api := custom_api C |}.

End Lib.

(* ===================================================================== *)
(** * Vocabulary of the statements *)
(* ===================================================================== *)

(** The two invariants of an extraction result. *)
Definition sufficient (r : ScrapingResult) : Prop :=
  success r = true ->
  exists c, content r = Some c /\ c <> "" /\ 50 <= length (trim c).

Definition explained (r : ScrapingResult) : Prop :=
  success r = false ->
  (exists e, error r = Some e /\ e <> "") /\ content r = None /\ title r = None.

(** A request the handler can answer with a non-empty message: any body
    that parses, or a parse error that carries a message. *)
Definition answerable (request : Route.Request) : Prop :=
  match request with
  | Route.Unreadable (JsError "") => False
  | _ => True
  end.

(** A property of the result of a computation, whatever the state. *)
Definition always (P : ScrapingResult -> Prop) (m : Lib.M ScrapingResult) : Prop :=
  forall s, P (fst (m s)).

(** The first, respectively last, code unit exists and is not white
    space. *)
Definition first_solid (s : string) : bool :=
  match s with
  | EmptyString => false
  | String c _ => negb (is_space c)
  end.

Fixpoint last_solid (s : string) : bool :=
  match s with
  | EmptyString => false
  | String c EmptyString => negb (is_space c)
  | String _ t => last_solid t
  end.

(** The fixed paragraph of the VIDEO ANALYSIS block. *)
Definition summary : string :=
  "This YouTube video contains valuable information for content creators and marketers. While we couldn't extract the full transcript, the video appears to cover topics relevant to digital marketing, content strategy, or educational content based on the title and available metadata.".

(** The [note] of a social result. *)
Definition note_of (r : ScrapingResult) : option string :=
  match metadata r with
  | Some (SocialMeta m) => Some (Social.note m)
  | _ => None
  end.

(** What the social strategy promises about its result for [url]. *)
Definition placeholder (url : string) (r : ScrapingResult) : Prop :=
  success r = true /\
  (exists c, content r = Some c /\ c <> "" /\
             includes c url = true /\
             includes c "automated text extraction" = true) /\
  (exists n, note_of r = Some n /\
             includes n "manual review recommended" = true).

(** The full run of the retry loop: three posts, two waits. *)
Definition steps : list Lib.Event :=
  [Lib.Posted 1; Lib.Waited 1000; Lib.Posted 2; Lib.Waited 2000; Lib.Posted 3].

(* ===================================================================== *)
(** * Concrete worlds *)
(* ===================================================================== *)

(** Worlds for the examples: every one is a complete environment, so the
    functions above run in it. *)
Module Scenario.
Import Route Lib.

(** No key, no transcript module, no reply from any site. *)
Definition offline : Env :=
  {| YOUTUBE_API_KEY := None;
     transcript_module := false;
     fetchTranscript := fun _ _ => None;
     fetch_watch_page := fun _ => None;
     fetch_oembed := fun _ => None;
     fetch_videos_api := fun _ _ => None;
     fetch_article := fun _ => Rejected (JsError "fetch failed");
     url_hostname := fun _ => inl (JsError "Invalid URL") |}.

(** The watch page carries a view count as its title; oEmbed knows the
    real title. *)
Definition viewCountPage : string :=
  "<html><head><title>12K</title></head><body></body></html>".

Definition weakTitle : Env :=
  {| YOUTUBE_API_KEY := None;
     transcript_module := false;
     fetchTranscript := fun _ _ => None;
     fetch_watch_page := fun _ => Some viewCountPage;
     fetch_oembed := fun _ => Some (MkOEmbed (Some "Real Title") None);
     fetch_videos_api := fun _ _ => None;
     fetch_article := fun _ => Rejected (JsError "fetch failed");
     url_hostname := fun _ => inl (JsError "Invalid URL") |}.

(** Only oEmbed answers, with a title of 200 blanks. *)
Definition blankTitle : Env :=
  {| YOUTUBE_API_KEY := None;
     transcript_module := false;
     fetchTranscript := fun _ _ => None;
     fetch_watch_page := fun _ => None;
     fetch_oembed := fun _ => Some (MkOEmbed (Some (repeat " " 200)) None);
     fetch_videos_api := fun _ _ => None;
     fetch_article := fun _ => Rejected (JsError "fetch failed");
     url_hostname := fun _ => inl (JsError "Invalid URL") |}.

(** A video with a transcript (not in English) and a description. *)
Definition talk : Env :=
  {| YOUTUBE_API_KEY := None;
     transcript_module := true;
     fetchTranscript := fun _ lang =>
       match lang with
       | Some "en" => None
       | _ => Some [repeat "w" 120; "[Music]"; "end"]
       end;
     fetch_watch_page := fun _ =>
       Some ("<title>A talk about things - YouTube</title>" ++
             quoted "shortDescription" ++ ":" ++ quoted (repeat "d" 90));
     fetch_oembed := fun _ => None;
     fetch_videos_api := fun _ _ => None;
     fetch_article := fun _ => Rejected (JsError "fetch failed");
     url_hostname := fun _ => inl (JsError "Invalid URL") |}.

(** A page whose only text is one paragraph of [n] letters. *)
Definition paragraphPage (n : nat) : string :=
  "<html><body><p>" ++ repeat "a" n ++ "</p></body></html>".

Definition articleSite (n : nat) : Env :=
  {| YOUTUBE_API_KEY := None;
     transcript_module := false;
     fetchTranscript := fun _ _ => None;
     fetch_watch_page := fun _ => None;
     fetch_oembed := fun _ => None;
     fetch_videos_api := fun _ _ => None;
     fetch_article := fun _ => Responded 200 "OK" (inr (paragraphPage n));
     url_hostname := fun _ => inr "example.com" |}.

(** [JSON.stringify] of a result that has no title, content or metadata
    and whose message needs no escaping. *)
Definition stringifyPlain (r : ScrapingResult) : string :=
  "{" ++ quoted "success" ++ ":" ++ (if success r then "true" else "false") ++
  match error r with
  | Some e => "," ++ quoted "error" ++ ":" ++ quoted e
  | None => ""
  end ++ "}".

(** Every request reaches the route, which is offline. *)
Definition localhost : Deployment :=
  {| lost := fun _ => None;
     server := fun _ => offline;
     stringify := stringifyPlain |}.

(** A client without keys, and one whose custom scraper answers [{}]. *)
Definition plainClient : Client :=
  {| ASSEMBLYAI_API_KEY := None;
     CUSTOM_SCRAPER_API_KEY := None;
     CUSTOM_SCRAPER_API_URL := None;
     api := routeApi localhost;
     assembly_submit := fun _ _ => Rejected (JsError "fetch failed");
     assembly_poll := fun _ _ => inl (JsError "fetch failed");
     custom_api := fun _ _ _ => Rejected (JsError "fetch failed") |}.

Definition emptyCustomData : CustomData :=
  MkCustomData None None None None None None None None [].

Definition customClient : Client :=
  {| ASSEMBLYAI_API_KEY := None;
     CUSTOM_SCRAPER_API_KEY := Some "key";
     CUSTOM_SCRAPER_API_URL := Some "https://scraper.example/api";
     api := routeApi localhost;
     assembly_submit := fun _ _ => Rejected (JsError "fetch failed");
     assembly_poll := fun _ _ => inl (JsError "fetch failed");
     custom_api := fun _ _ _ => Responded 200 "OK" (inr emptyCustomData) |}.

(** A transcription service that completes at the first poll without a
    [text] field. *)
Definition silentTranscript : Polled :=
  MkPolled (Some "completed") None None None None None None.

Definition assemblyClient : Client :=
  {| ASSEMBLYAI_API_KEY := Some "key";
     CUSTOM_SCRAPER_API_KEY := None;
     CUSTOM_SCRAPER_API_URL := None;
     api := routeApi localhost;
     assembly_submit := fun _ _ =>
       Responded 200 "OK" (inr (MkSubmitted (Some "queued") (Some "t1")));
     assembly_poll := fun _ _ => inr silentTranscript;
     custom_api := fun _ _ _ => Rejected (JsError "fetch failed") |}.

End Scenario.

(* ===================================================================== *)
(** * Further vocabulary *)
(* ===================================================================== *)

(** Every code unit of [s] satisfies [p]. *)
Fixpoint all_chars (p : ascii -> bool) (s : string) : bool :=
  match s with
  | EmptyString => true
  | String c t => p c && all_chars p t
  end.

(** The code units that end a video id: [&], line feed, [?], [#]. *)
Definition id_char (c : ascii) : bool :=
  negb (mem c ["&"%char; lf; "?"%char; "#"%char]).

(** [s'] comes after [s] in a match: the unread input of [s'] is a suffix
    of the unread input of [s]. *)
Definition follows (s s' : st) : Prop := exists pre, rest s = pre ++ rest s'.

(** What a pattern that ends in the id group leaves in group 1. *)
Definition captures_id (r : re) : Prop :=
  forall s x,
    run r s Some = Some x ->
    exists g pre post,
      lookup 1 (caps x) = Some g /\ g <> "" /\ all_chars id_char g = true /\
      rest s = pre ++ g ++ post.

(** The string starts with white space. *)
Definition starts_space (s : string) : bool :=
  match s with
  | EmptyString => false
  | String c _ => is_space c
  end.

(** Every white-space code unit of the string is a blank that no white
    space follows. *)
Fixpoint collapsed (s : string) : bool :=
  match s with
  | EmptyString => true
  | String c t =>
      (if is_space c then Ascii.eqb c " " && negb (starts_space t) else true) &&
      collapsed t
  end.

(** White space is normalised: none at either end, and single blanks
    inside. *)
Definition tidy (s : string) : Prop := collapsed s = true /\ trim s = s.

(** What a computation of the library spends: the number of requests to
    [/api/scrape] and the milliseconds of deliberate waiting in a piece of
    trace. *)
Fixpoint posts (t : list Lib.Event) : nat :=
  match t with
  | [] => 0
  | Lib.Posted _ :: t' => S (posts t')
  | Lib.Waited _ :: t' => posts t'
  end.

Fixpoint waited (t : list Lib.Event) : Z :=
  match t with
  | [] => 0%Z
  | Lib.Posted _ :: t' => waited t'
  | Lib.Waited ms :: t' => (ms + waited t')%Z
  end.

(** [m] extends the trace by a piece with at most [n] requests and at most
    [ms] milliseconds of waiting, and counts its requests in [sent]. *)
Definition costs {A : Type} (n : nat) (ms : Z) (m : Lib.M A) : Prop :=
  forall s, exists t,
    snd (m s) = Lib.MkState (Lib.sent s + posts t) (Lib.trace s ++ t) /\
    posts t <= n /\ (0 <= waited t <= ms)%Z.

(** The transcription service took the video of [url] under the client's
    key and answered the submission with [d]. *)
Definition accepted (C : Lib.Client) (url : string) (d : Lib.Submitted) : Prop :=
  exists videoId key st statusText,
    Lib.extractYouTubeVideoId url = Some videoId /\
    Lib.ASSEMBLYAI_API_KEY C = Some key /\ key <> "" /\
    Lib.assembly_submit C key videoId = Responded st statusText (inr d) /\
    ok st = true.

(** The [n]-th poll of a transcript says neither [error] nor [completed]. *)
Definition pending (C : Lib.Client) (transcriptId : option string) (n : nat) : Prop :=
  exists p, Lib.assembly_poll C transcriptId n = inr p /\
            Lib.equals (Lib.status p) "error" = false /\
            Lib.equals (Lib.status p) "completed" = false.

(** ** The replies of the transport, as [scrapeContent] meets them *)





(** ** More concrete worlds *)

Module Cases.
Import Route Lib Scenario.

(** A transcription that stays [processing] for ever, and one that is
    already [completed] when the submission is answered. *)
Definition stalledClient : Client :=
  {| ASSEMBLYAI_API_KEY := Some "key";
     CUSTOM_SCRAPER_API_KEY := None;
     CUSTOM_SCRAPER_API_URL := None;
     api := routeApi localhost;
     assembly_submit := fun _ _ =>
       Responded 200 "OK" (inr (MkSubmitted (Some "queued") (Some "t1")));
     assembly_poll := fun _ _ =>
       inr (MkPolled (Some "processing") None None None None None None);
     custom_api := fun _ _ _ => Rejected (JsError "fetch failed") |}.

Definition readyClient : Client :=
  {| ASSEMBLYAI_API_KEY := Some "key";
     CUSTOM_SCRAPER_API_KEY := None;
     CUSTOM_SCRAPER_API_URL := None;
     api := routeApi localhost;
     assembly_submit := fun _ _ =>
       Responded 200 "OK" (inr (MkSubmitted (Some "completed") (Some "t1")));
     assembly_poll := fun _ _ => inr silentTranscript;
     custom_api := fun _ _ _ => Rejected (JsError "fetch failed") |}.

(** A site that answers every request with 403. *)
Definition forbiddenSite : Env :=
  {| YOUTUBE_API_KEY := None;
     transcript_module := false;
     fetchTranscript := fun _ _ => None;
     fetch_watch_page := fun _ => None;
     fetch_oembed := fun _ => None;
     fetch_videos_api := fun _ _ => None;
     fetch_article := fun _ => Responded 403 "Forbidden" (inr "");
     url_hostname := fun _ => inr "example.com" |}.

(** The videos API knows the title of the video and nothing else; no
    other source answers. *)
Definition bareApi : Env :=
  {| YOUTUBE_API_KEY := Some "key";
     transcript_module := false;
     fetchTranscript := fun _ _ => None;
     fetch_watch_page := fun _ => None;
     fetch_oembed := fun _ => None;
     fetch_videos_api := fun _ _ =>
       Some [MkVideoItem (Some (MkSnippet (Some "A talk about things") None None None)) None];
     fetch_article := fun _ => Rejected (JsError "fetch failed");
     url_hostname := fun _ => inl (JsError "Invalid URL") |}.



(** A page whose only text sits in a [main] block, between a script, markup
    and white space that the cleaning removes; and a page with such a block
    of 101 letters followed by an empty paragraph. *)
Definition mainPage (n : nat) : string :=
  "<html><body><main><script>var x = 1;</script>" ++ nl ++
  "  <b>" ++ repeat "a" n ++ "</b>  " ++ nl ++ "</main></body></html>".

Definition pageSite (html : string) : Env :=
  {| YOUTUBE_API_KEY := None;
     transcript_module := false;
     fetchTranscript := fun _ _ => None;
     fetch_watch_page := fun _ => None;
     fetch_oembed := fun _ => None;
     fetch_videos_api := fun _ _ => None;
     fetch_article := fun _ => Responded 200 "OK" (inr html);
     url_hostname := fun _ => inr "example.com" |}.

Definition overwrittenPage : string :=
  "<html><body><main>" ++ repeat "a" 101 ++ "</main><p></p></body></html>".

Definition watchUrl : string := "https://www.youtube.com/watch?v=dQw4w9WgXcQ".

End Cases.

(** The URL that the metadata of a route result record. *)
Definition meta_url (m : Metadata) : option string :=
  match m with
  | VideoMeta v => Some (Video.url v)
  | ArticleMeta a => Some (Article.url a)
  | SocialMeta s => Some (Social.url s)
  | TranscriptionMeta _ => None
  | CustomMeta _ => None
  end.

(** What a strategy of the route returns when it succeeds: no error, a
    title that is not empty, a content that [trim] leaves as it is, and
    metadata that record the URL of the request. *)
Definition shaped (url : string) (r : ScrapingResult) : Prop :=
  success r = true ->
  error r = None /\
  exists t c m,
    title r = Some t /\ t <> "" /\
    content r = Some c /\ trim c = c /\
    metadata r = Some m /\ meta_url m = Some url.

(** The values that the content loop of the article chain assigns to
    [content], in order, and the one it ends with: the first that is longer
    than 200 code units, or else the last. *)
Fixpoint candidates (patterns : list Route.ContentPattern) (html : string) : list string :=
  match patterns with
  | [] => []
  | pattern :: more =>
      match Route.candidate pattern html with
      | Some content => content :: candidates more html
      | None => candidates more html
      end
  end.

Definition chosen (found : list string) (content : string) : string :=
  match List.find (fun c => 200 <? length c) found with
  | Some c => c
  | None => List.last found content
  end.

(* ===================================================================== *)
(** * The context of the script generator *)
(* ===================================================================== *)

Module Script.

(** The fields of [metadata] that [buildEnrichedContext] reads, as
    strings. *)
Record ItemMetadata : Type := MkItemMetadata
  { author : option string; duration : option string;
    publishedDate : option string; description : option string }.

Record ConnectedItem : Type := MkItem
  { id : string; type : string; title : string; content : string;
    scrapedContent : option string; metadata : option ItemMetadata }.

(** [if (v) section += label + v + '\n'] *)
Definition add_line (section label : string) (v : option string) : string :=
  if truthy_opt v then section ++ label ++ or_else v "" ++ nl else section.

(** The callback of [connectedItems.map]. *)
Definition section (index : nat) (item : ConnectedItem) : string :=
  let section :=
    nl ++ "--- Source " ++ of_nat (index + 1) ++ ": " ++ title item ++
    " (" ++ type item ++ ") ---" ++ nl in
  let content := or_else (scrapedContent item) (content item) in
  let section :=
    if truthy content then section ++ "Content: " ++ content ++ nl else section in
  match metadata item with
  | Some m =>
      let section := add_line section "Author: " (author m) in
      let section := add_line section "Duration: " (duration m) in
      let section := add_line section "Published: " (publishedDate m) in
      add_line section "Description: " (description m)
  | None => section
  end.

Fixpoint sectionsFrom (index : nat) (items : list ConnectedItem) : list string :=
  match items with
  | [] => []
  | item :: more => section index item :: sectionsFrom (S index) more
  end.

Definition buildEnrichedContext (connectedItems : option (list ConnectedItem)) : string :=
  match connectedItems with
  | None => ""
  | Some [] => ""
  | Some items => join nl (sectionsFrom 0 items)
  end.

(** [item] with another [content]. *)
Definition with_content (c : string) (item : ConnectedItem) : ConnectedItem :=
  MkItem (id item) (type item) (title item) c (scrapedContent item) (metadata item).

(** The header line of the [index]-th item, counting from 0. *)
Definition header (index : nat) (item : ConnectedItem) : string :=
  "--- Source " ++ of_nat (index + 1) ++ ": " ++ title item ++
  " (" ++ type item ++ ") ---".

(** Two sources, the first with scraped content. *)
Definition twoSources : list ConnectedItem :=
  [ MkItem "a" "youtube" "A talk" "https://youtu.be/dQw4w9WgXcQ"
      (Some "TRANSCRIPT: words") (Some (MkItemMetadata None (Some "3 minutes") None None));
    MkItem "b" "note" "A note" "remember the milk" None None ].

End Script.

Unset Implicit Arguments.

(* ===================================================================== *)
(** * The embedding at work *)
(* ===================================================================== *)

(** Runs of the definitions on small inputs, with the values the
    JavaScript source gives on them. *)
Module Checks.
Import Route Lib Scenario.

Example trim_both_ends :
  trim (" " ++ nl ++ "a b " ++ nl) = "a b".
Proof. reflexivity. Qed.

Example trim_blank : trim ("  " ++ nl) = "".
Proof. reflexivity. Qed.

Example of_nat_digits : of_nat 0 = "0" /\ of_nat 400 = "400".
Proof. split; reflexivity. Qed.

Example lower_case : toLowerCase "Video UNAVAILABLE" = "video unavailable".
Proof. reflexivity. Qed.

Example replace_first_once :
  replace_first " - YouTube" "" "A - YouTube - YouTube" = "A - YouTube".
Proof. reflexivity. Qed.

Example includes_substring :
  includes "https://youtu.be/x" "youtu.be" = true /\
  includes "https://youtu.be/x" "youtube" = false.
Proof. split; reflexivity. Qed.

(** Greedy and lazy repetition, and leftmost matching. *)
Example greedy_takes_most :
  option_map whole (exec (cats [chr "a"; Star true any; chr "b"]) "xaabab")
    = Some "aabab".
Proof. reflexivity. Qed.

Example lazy_takes_least :
  option_map whole (exec (cats [chr "a"; Star false any; chr "b"]) "xaabab")
    = Some "aab".
Proof. reflexivity. Qed.

Example index_of_match :
  option_map index (exec (lit "be") "youtu.be/x") = Some 6.
Proof. reflexivity. Qed.

Example case_insensitive_literal :
  test (lit_i "<title>") "<TITLE>" = true /\ test (lit "<title>") "<TITLE>" = false.
Proof. split; reflexivity. Qed.

Example replace_every_match :
  replace_all spaces " " ("a  b" ++ nl ++ nl ++ "c") = "a b c".
Proof. reflexivity. Qed.

Example split_on_spaces :
  split spaces "one two  three" = ["one"; "two"; "three"] /\
  split spaces "" = [""] /\
  split spaces "end " = ["end"; ""].
Proof. repeat split. Qed.

Example transcript_cleaning :
  cleanTranscript ["Hello [Music]"; "  world"; "[Applause] again"]
    = "Hello world again".
Proof. reflexivity. Qed.

(** The look-behind lets an escaped quote stay inside the description. *)
Example description_with_escaped_quote :
  page_description
    (scrapePage (quoted "shortDescription" ++ ":" ++ Q ++
                 "Say " ++ String bs Q ++ "hi" ++ String bs Q ++
                 " to the channel today" ++ Q ++ ","))
    = "Say " ++ Q ++ "hi" ++ Q ++ " to the channel today".
Proof. reflexivity. Qed.

Example page_fields :
  scrapePage ("<title>Cats &amp; Dogs - YouTube</title>" ++
              quoted "ownerChannelName" ++ ":" ++ quoted "Pets" ++ "," ++
              quoted "viewCount" ++ ":" ++ quoted "1234")
    = MkPage "Cats &amp; Dogs" "" "Pets" "1234".
Proof. reflexivity. Qed.

Example view_count_in_text :
  page_views (scrapePage "<span>1,234,567 views</span>") = "1,234,567".
Proof. reflexivity. Qed.

Example weak_titles :
  map looksWeakTitle [""; "ab"; "12K"; "7"; "350m"; "1.2M"; "Real Title"]
    = [true; true; true; true; true; false; false].
Proof. reflexivity. Qed.

Example backoff_schedule :
  map waitTime [1; 2; 3; 4; 5] = [1000; 2000; 4000; 5000; 5000]%Z.
Proof. reflexivity. Qed.

(** Only the route knows the [/v/] form. *)
Example v_form :
  Route.extractYouTubeVideoId "https://youtube.com/v/abc123" = Some "abc123" /\
  Lib.extractYouTubeVideoId "https://youtube.com/v/abc123" = None.
Proof. split; reflexivity. Qed.

Example id_after_other_parameter :
  Lib.extractYouTubeVideoId "https://www.youtube.com/watch?list=PL1&v=abc123#t=5"
    = Some "abc123".
Proof. reflexivity. Qed.

Example catch_messages :
  youtubeCatch (JsError "Video unavailable") =
    failure "This video is private or unavailable. Please check the URL and try a public video." /\
  articleCatch (JsError "HTTP 403: Forbidden") =
    failure "Access to this website is restricted. Try a different article from a more accessible source." /\
  articleCatch (JsError "The operation was aborted due to timeout") =
    failure "The website took too long to respond. Try a different article or check your internet connection." /\
  articleCatch NotAnError = failure "Article scraping failed: Unknown error".
Proof. repeat split. Qed.

Example offline_article :
  POST offline (Body (Some "https://example.com/a") None)
    = (200, failure "Article scraping failed: fetch failed").
Proof. reflexivity. Qed.

Example declared_type_wins :
  snd (POST offline (Body (Some "https://example.com/a") (Some "tiktok")))
    = scrapeTikTokContent "https://example.com/a".
Proof. reflexivity. Qed.

(** A transcript and a description above their thresholds are both
    recorded as sources, and no analysis block is added. *)
Example rich_video :
  let r := scrapeYouTubeContentEnhanced talk "https://youtu.be/abc123" in
  success r = true /\
  title r = Some "A talk about things" /\
  content r = Some ("TRANSCRIPT:" ++ nl ++ repeat "w" 120 ++ " end" ++ nl ++ nl ++
                    "TITLE: A talk about things" ++ nl ++ nl ++
                    "DESCRIPTION:" ++ nl ++ repeat "d" 90) /\
  match metadata r with
  | Some (VideoMeta m) =>
      Video.sources m = ["Video Transcript"; "Video Description"] /\
      Video.extractionMethod m = "Video Transcript, Video Description" /\
      Video.hasTranscript m = true
  | _ => False
  end.
Proof. vm_compute. repeat split. Qed.

End Checks.

(* ===================================================================== *)
(** * Facts about strings *)
(* ===================================================================== *)

Module JsFacts.

Lemma length_append (a b : string) : length (a ++ b) = length a + length b.
Proof. induction a as [|c a IH]; simpl; [reflexivity | now rewrite IH]. Qed.

Lemma append_empty_r (a : string) : a ++ "" = a.
Proof. induction a as [|c a IH]; simpl; [reflexivity | now rewrite IH]. Qed.

Lemma append_assoc (a b c : string) : (a ++ b) ++ c = a ++ b ++ c.
Proof. induction a as [|x a IH]; simpl; [reflexivity | now rewrite IH]. Qed.

(** ** [includes] is the substring relation *)

Lemma prefix_append (t q : string) : prefix t (t ++ q) = true.
Proof.
  induction t as [|c t IH]; simpl.
  - now destruct q.
  - destruct (ascii_dec c c); [exact IH | congruence].
Qed.

Lemma prefix_split (t s : string) :
  prefix t s = true -> exists q, s = t ++ q.
Proof.
  revert s. induction t as [|c t IH]; intros s H.
  - now exists s.
  - destruct s as [|d s]; simpl in H; [discriminate|].
    destruct (ascii_dec c d) as [->|]; [|discriminate].
    destruct (IH _ H) as [q ->]. now exists q.
Qed.

Lemma prefix_weaken (a b s : string) :
  prefix (a ++ b) s = true -> prefix a s = true.
Proof.
  intros H. destruct (prefix_split _ _ H) as [q ->].
  rewrite append_assoc. apply prefix_append.
Qed.

Lemma includes_here (s t : string) : prefix t s = true -> includes s t = true.
Proof. intros H. destruct s; simpl in *; now rewrite H. Qed.

Lemma includes_cons (c : ascii) (s t : string) :
  includes (String c s) t = prefix t (String c s) || includes s t.
Proof. reflexivity. Qed.

Lemma includes_later (c : ascii) (s t : string) :
  includes s t = true -> includes (String c s) t = true.
Proof. intros H. rewrite includes_cons, H. apply orb_true_r. Qed.

Lemma includes_app (p t q : string) : includes (p ++ t ++ q) t = true.
Proof.
  induction p as [|c p IH].
  - apply includes_here. apply (prefix_append t q).
  - apply (includes_later c (p ++ t ++ q) t IH).
Qed.

Lemma includes_app_end (p t : string) : includes (p ++ t) t = true.
Proof. rewrite <- (append_empty_r t) at 1. apply includes_app. Qed.

Lemma includes_split (s t : string) :
  includes s t = true -> exists p q, s = p ++ t ++ q.
Proof.
  induction s as [|c s IH]; intros H.
  - unfold includes in H. rewrite orb_false_r in H.
    destruct (prefix_split _ _ H) as [q Hq]. now exists "", q.
  - rewrite includes_cons in H. apply orb_true_iff in H. destruct H as [H|H].
    + destruct (prefix_split _ _ H) as [q Hq]. now exists "", q.
    + destruct (IH H) as (p & q & ->). now exists (String c p), q.
Qed.

Lemma includes_iff (s t : string) :
  includes s t = true <-> exists p q, s = p ++ t ++ q.
Proof.
  split; [apply includes_split|]. intros (p & q & ->). apply includes_app.
Qed.

Lemma includes_weaken (s a b : string) :
  includes s (a ++ b) = true -> includes s a = true.
Proof.
  intros H. apply includes_iff in H. destruct H as (p & q & ->).
  rewrite append_assoc. apply includes_app.
Qed.

Lemma includes_app_l (a s t : string) :
  includes a t = true -> includes (a ++ s) t = true.
Proof.
  intros H. apply includes_iff in H. destruct H as (p & q & ->).
  rewrite !append_assoc. apply includes_app.
Qed.

Lemma includes_app_r (a s t : string) :
  includes s t = true -> includes (a ++ s) t = true.
Proof.
  intros H. apply includes_iff in H. destruct H as (p & q & ->).
  rewrite <- append_assoc. apply includes_app.
Qed.

(** [find_in]: the chunk of a chain of appends that holds the text. *)
Ltac find_in :=
  first [ reflexivity
        | apply includes_app_l; reflexivity
        | apply includes_app_r; find_in ].

Lemma includes_empty (s : string) : includes s "" = true.
Proof. apply includes_here. now destruct s. Qed.

(** ** [trim] *)

Lemma trimStart_solid (a s : string) :
  first_solid a = true -> trimStart (a ++ s) = a ++ s.
Proof.
  destruct a as [|c a]; simpl; [discriminate|].
  intros H. apply negb_true_iff in H. now rewrite H.
Qed.

Lemma trimStart_blank_or_solid (s : string) :
  trimStart s = "" \/ first_solid (trimStart s) = true.
Proof.
  induction s as [|c s IH]; simpl; [now left|].
  destruct (is_space c) eqn:E; [exact IH|]. right. simpl. now rewrite E.
Qed.

Lemma trimEnd_empty_iff (s : string) :
  trimEnd s = "" -> forall a, trimEnd (a ++ s) = trimEnd a.
Proof.
  intros H a. induction a as [|c a IH]; simpl; [exact H | now rewrite IH].
Qed.

Lemma trimEnd_nonempty (s : string) :
  trimEnd s <> "" -> forall a, trimEnd (a ++ s) = a ++ trimEnd s.
Proof.
  intros H a. induction a as [|c a IH]; simpl; [reflexivity|].
  rewrite IH. destruct a as [|d a]; simpl.
  - destruct (trimEnd s); [congruence | reflexivity].
  - reflexivity.
Qed.

Lemma trimEnd_app_le (a s : string) :
  length (trimEnd s) <= length (trimEnd (a ++ s)).
Proof.
  destruct (string_dec (trimEnd s) "") as [E|E].
  - rewrite E. simpl. lia.
  - rewrite (trimEnd_nonempty _ E). rewrite length_append. lia.
Qed.

(** A prefix survives [trimEnd] whole as soon as something solid follows. *)
Lemma trimEnd_app_ge (a s : string) (n : nat) :
  0 < n -> n <= length (trimEnd s) -> length a + n <= length (trimEnd (a ++ s)).
Proof.
  intros Hn H.
  assert (E : trimEnd s <> "") by (intros E; rewrite E in H; simpl in H; lia).
  rewrite (trimEnd_nonempty _ E), length_append. lia.
Qed.

Lemma trimEnd_last_solid (b : string) : last_solid b = true -> trimEnd b = b.
Proof.
  induction b as [|c b IH]; simpl; [discriminate|].
  destruct b as [|d b].
  - intros H. apply negb_true_iff in H. simpl. now rewrite H.
  - intros H. rewrite (IH H). reflexivity.
Qed.

Lemma trimEnd_solid_le (b c : string) :
  last_solid b = true -> length b <= length (trimEnd (b ++ c)).
Proof.
  intros H. destruct (string_dec (trimEnd c) "") as [E|E].
  - rewrite (trimEnd_empty_iff _ E), (trimEnd_last_solid _ H). lia.
  - rewrite (trimEnd_nonempty _ E), length_append. lia.
Qed.

Lemma trimEnd_first_solid (t : string) :
  first_solid t = true -> first_solid (trimEnd t) = true.
Proof.
  destruct t as [|c t]; simpl; [discriminate|]. intros H.
  destruct (trimEnd t); simpl; [| exact H].
  apply negb_true_iff in H. rewrite H. simpl. now rewrite H.
Qed.

Lemma trimEnd_idem (t : string) : trimEnd (trimEnd t) = trimEnd t.
Proof.
  induction t as [|c t IH]; simpl; [reflexivity|].
  destruct (trimEnd t) as [|d u] eqn:E.
  - destruct (is_space c) eqn:Ec; simpl; [reflexivity | now rewrite Ec].
  - change (trimEnd (String c (String d u))) with
      (match trimEnd (String d u) with
       | "" => if is_space c then "" else String c ""
       | String d' u' => String c (String d' u')
       end).
    now rewrite IH.
Qed.

Lemma trim_idem (s : string) : trim (trim s) = trim s.
Proof.
  unfold trim. destruct (trimStart_blank_or_solid s) as [E|E].
  - rewrite E. reflexivity.
  - rewrite <- (append_empty_r (trimEnd (trimStart s))) at 1.
    rewrite trimStart_solid by now apply trimEnd_first_solid.
    rewrite append_empty_r. apply trimEnd_idem.
Qed.

Lemma trimStart_nl (s : string) : trimStart (nl ++ s) = trimStart s.
Proof. reflexivity. Qed.

Lemma nonempty_of_length (s : string) (n : nat) : S n <= length s -> s <> "".
Proof. intros H E. rewrite E in H. simpl in H. lia. Qed.

End JsFacts.

Import JsFacts.

(* ===================================================================== *)
(** * Facts about the route *)
(* ===================================================================== *)

Module RouteFacts.
Import Route.

(** [peel_to b]: a lower bound for the length of [trimEnd] of a chain of
    appends, counting every chunk up to and including the chunk [b], whose
    last code unit is solid. *)
Ltac peel_to b :=
  first [ apply (trimEnd_solid_le b); reflexivity
        | eapply trimEnd_app_ge; [ | peel_to b ] ].

(** [skip_to b]: the same, counting the chunk [b] only. *)
Ltac skip_to b :=
  first [ apply (trimEnd_solid_le b); reflexivity
        | eapply Nat.le_trans; [ | apply trimEnd_app_le ]; skip_to b ].

Lemma sufficient_failure (msg : string) : sufficient (failure msg).
Proof. intros H. discriminate H. Qed.

Lemma explained_failure (msg : string) : msg <> "" -> explained (failure msg).
Proof.
  intros Hm _. split; [| split; reflexivity]. exists msg. now split.
Qed.

Lemma explained_success (r : ScrapingResult) : success r = true -> explained r.
Proof. intros H H'. congruence. Qed.

Lemma sufficient_content (r : ScrapingResult) (c : string) :
  content r = Some c -> 50 <= length (trim c) -> sufficient r.
Proof.
  intros Hc Hl _. exists c. split; [exact Hc|]. split; [| exact Hl].
  intros ->. simpl in Hl. lia.
Qed.

(** ** The video chain *)

Lemma analysisBlock_length (videoId : string) (f : Fields) :
  length summary <= length (analysisBlock videoId f).
Proof.
  unfold analysisBlock, trim, analysisTemplate.
  rewrite trimStart_nl, trimStart_solid by reflexivity.
  skip_to summary.
Qed.

Lemma analysisBlock_trim (videoId : string) (f : Fields) :
  trim (analysisBlock videoId f) = analysisBlock videoId f.
Proof. apply trim_idem. Qed.

Lemma analysisBlock_long (videoId : string) (f : Fields) :
  50 < length (trim (analysisBlock videoId f)).
Proof.
  rewrite analysisBlock_trim.
  apply Nat.lt_le_trans with (m := length summary); [| apply analysisBlock_length].
  apply Nat.ltb_lt. reflexivity.
Qed.

Lemma youtubeCatch_failed (e : exn) :
  exists msg, youtubeCatch e = failure msg /\ msg <> "".
Proof.
  unfold youtubeCatch.
  repeat match goal with
         | |- context [if ?b then _ else _] => destruct b
         end;
    eexists; (split; [reflexivity | discriminate]).
Qed.

Lemma conclude_cases (url videoId transcript : string) (f : Fields)
    (final : string * list string) :
  match conclude url videoId transcript f final with
  | inl e =>
      e = undefined_length /\ videoDescription f = None /\
      50 <= length (trim (fst final))
  | inr r =>
      (r = failure insufficient /\ length (trim (fst final)) < 50) \/
      (success r = true /\ content r = Some (trim (fst final)) /\
       50 <= length (trim (fst final)))
  end.
Proof.
  destruct final as [finalContent contentSources]. unfold conclude. cbn [fst].
  destruct (negb (truthy finalContent) || (length (trim finalContent) <? 50)) eqn:G.
  - left. split; [reflexivity|].
    apply orb_true_iff in G. destruct G as [G|G].
    + destruct finalContent; [simpl; lia | discriminate].
    + now apply Nat.ltb_lt in G.
  - apply orb_false_iff in G. destruct G as [_ G]. apply Nat.ltb_ge in G.
    destruct (videoDescription f); [| now repeat split].
    right. now repeat split.
Qed.

Lemma youtube_invariants (E : Env) (url : string) :
  sufficient (scrapeYouTubeContentEnhanced E url) /\
  explained (scrapeYouTubeContentEnhanced E url).
Proof.
  unfold scrapeYouTubeContentEnhanced.
  destruct (extractYouTubeVideoId url) as [videoId|].
  2:{ split; [apply sufficient_failure | apply explained_failure; discriminate]. }
  match goal with
  | |- context [conclude ?u ?v ?t ?f ?p] =>
      pose proof (conclude_cases u v t f p) as H;
      destruct (conclude u v t f p) as [e|r]
  end.
  - destruct (youtubeCatch_failed e) as (msg & -> & Hm).
    split; [apply sufficient_failure | now apply explained_failure].
  - destruct H as [[-> _]|(Hs & Hc & Hl)].
    + split; [apply sufficient_failure | apply explained_failure; discriminate].
    + split; [| now apply explained_success].
      apply (sufficient_content _ _ Hc). now rewrite trim_idem.
Qed.

(** ** The article chain *)

Lemma articleCatch_failed (e : exn) :
  exists msg, articleCatch e = failure msg /\ msg <> "".
Proof.
  unfold articleCatch. destruct e as [message|].
  - repeat match goal with
           | |- context [if ?b then _ else _] => destruct b
           end;
      eexists; (split; [reflexivity | discriminate]).
  - eexists; (split; [reflexivity | discriminate]).
Qed.

Lemma articleTemplate_long (title author publishDate hostname content description : string) :
  50 <= length (trim (articleTemplate title author publishDate hostname content description)).
Proof.
  unfold trim, articleTemplate.
  rewrite trimStart_nl, trimStart_solid by reflexivity.
  eapply Nat.le_trans; [| peel_to "CONTENT:"];
    change (length nl) with 1; cbn [length]; lia.
Qed.

Lemma articleFromHtml_cases (E : Env) (url html : string) :
  let body := contentLoop contentPatterns html "" in
  match articleFromHtml E url html with
  | inl e => 100 <= length body /\ url_hostname E url = inl e
  | inr r =>
      (length body < 100 /\ r = failure meaningless) \/
      (100 <= length body /\ success r = true /\
       exists c, content r = Some c /\ 50 <= length (trim c))
  end.
Proof.
  intros body. unfold articleFromHtml. fold body.
  destruct (negb (truthy body) || (length body <? 100)) eqn:G.
  - left. split; [| reflexivity].
    apply orb_true_iff in G. destruct G as [G|G].
    + destruct body; [simpl; lia | discriminate].
    + now apply Nat.ltb_lt in G.
  - apply orb_false_iff in G. destruct G as [_ G]. apply Nat.ltb_ge in G.
    destruct (url_hostname E url) as [e|hostname]; [now split|].
    right. split; [exact G|]. split; [reflexivity|].
    eexists. split; [reflexivity|].
    rewrite trim_idem. apply articleTemplate_long.
Qed.

Lemma article_invariants (E : Env) (url : string) :
  sufficient (scrapeArticleContentEnhanced E url) /\
  explained (scrapeArticleContentEnhanced E url).
Proof.
  assert (F : forall e, sufficient (articleCatch e) /\ explained (articleCatch e)).
  { intros e. destruct (articleCatch_failed e) as (msg & -> & Hm).
    split; [apply sufficient_failure | now apply explained_failure]. }
  unfold scrapeArticleContentEnhanced, articleTry.
  destruct (fetch_article E url) as [e|status statusText body]; [apply F|].
  destruct (negb (ok status)); [apply F|].
  destruct body as [e|html]; [apply F|].
  pose proof (articleFromHtml_cases E url html) as H. cbv zeta in H.
  destruct (articleFromHtml E url html) as [e|r]; [apply F|].
  destruct H as [[_ ->]|(_ & Hs & c & Hc & Hl)].
  - split; [apply sufficient_failure | apply explained_failure; discriminate].
  - split; [| now apply explained_success].
    now apply (sufficient_content _ _ Hc).
Qed.

(** ** The social placeholders *)

Lemma tiktok_invariants (url : string) :
  sufficient (scrapeTikTokContent url) /\ explained (scrapeTikTokContent url).
Proof.
  split; [| now apply explained_success].
  eapply sufficient_content; [reflexivity|].
  unfold trim. rewrite trimStart_solid by reflexivity.
  eapply Nat.le_trans;
    [| skip_to "This TikTok video contains visual and audio content that may include:"].
  apply Nat.leb_le. reflexivity.
Qed.

Lemma instagram_invariants (url : string) :
  sufficient (scrapeInstagramContent url) /\ explained (scrapeInstagramContent url).
Proof.
  split; [| now apply explained_success].
  eapply sufficient_content; [reflexivity|].
  unfold trim. rewrite trimStart_solid by reflexivity.
  eapply Nat.le_trans;
    [| skip_to "Note: Instagram content is heavily visual-focused. The platform emphasizes image and video content over text, making automated text extraction limited. Manual viewing provides the full content experience."].
  apply Nat.leb_le. reflexivity.
Qed.

(** ** The handler *)

Lemma dispatch_invariants (E : Env) (contentType url : string) :
  sufficient (dispatch E contentType url) /\ explained (dispatch E contentType url).
Proof.
  unfold dispatch.
  destruct (contentType =? "youtube")%string; [apply youtube_invariants|].
  destruct (contentType =? "tiktok")%string; [apply tiktok_invariants|].
  destruct (contentType =? "instagram")%string; [apply instagram_invariants|].
  apply article_invariants.
Qed.

Lemma POST_sufficient (E : Env) (request : Request) :
  sufficient (snd (POST E request)).
Proof.
  destruct request as [e|url type]; simpl; [apply sufficient_failure|].
  destruct (negb (truthy_opt url)); simpl; [apply sufficient_failure|].
  apply dispatch_invariants.
Qed.

Lemma POST_explained (E : Env) (request : Request) :
  answerable request -> explained (snd (POST E request)).
Proof.
  destruct request as [e|url type]; simpl.
  - intros H. apply explained_failure. destruct e as [[|c m]|]; simpl in *;
      [contradiction | discriminate | discriminate].
  - intros _. destruct (negb (truthy_opt url)); simpl.
    + apply explained_failure. discriminate.
    + apply dispatch_invariants.
Qed.

Lemma POST_status (E : Env) (request : Request) :
  let '(status, r) := POST E request in
  ok status = true -> exists contentType url, r = dispatch E contentType url.
Proof.
  destruct request as [e|url type]; simpl; [discriminate|].
  destruct (negb (truthy_opt url)); [discriminate|].
  intros _. eauto.
Qed.

End RouteFacts.

Import RouteFacts.

(* ===================================================================== *)
(** * Facts about the client library *)
(* ===================================================================== *)

Module LibFacts.
Import Lib.

Lemma always_ret (P : ScrapingResult -> Prop) (r : ScrapingResult) :
  P r -> always P (ret r).
Proof. intros H s. exact H. Qed.

Lemma always_bind {A : Type} (P : ScrapingResult -> Prop) (m : M A)
    (k : A -> M ScrapingResult) :
  (forall a, always P (k a)) -> always P (bind m k).
Proof.
  intros H s. unfold bind. destruct (m s) as [a s']. apply H.
Qed.

(** ** [scrapeContent] *)

(** The loop returns the body of a reply with an [ok] status, or its own
    failure after the last attempt. *)
Lemma attemptsFrom_result (C : Client) (url type : string) (maxRetries : nat)
    (P : ScrapingResult -> Prop) :
  (forall n data, attemptOutcome (api C n url type) = inr data -> P data) ->
  (forall msg, msg <> "" -> P (failure msg)) ->
  forall remaining attempt lastError,
    always P (attemptsFrom C url type maxRetries remaining attempt lastError).
Proof.
  intros Hdata Hfail. induction remaining as [|remaining IH];
    intros attempt lastError s; simpl.
  - apply Hfail. discriminate.
  - unfold bind, post.
    destruct (attemptOutcome (api C (sent s) url type)) as [e|data] eqn:O.
    + destruct (attempt <? maxRetries); simpl; apply IH.
    + simpl. exact (Hdata _ _ O).
Qed.

Lemma routeApi_outcome (D : Deployment) (n : nat) (url type : string)
    (data : ScrapingResult) :
  attemptOutcome (routeApi D n url type) = inr data ->
  data = snd (Route.POST (server D n) (Route.Body (Some url) (Some type))).
Proof.
  unfold routeApi. destruct (lost D n); [discriminate|].
  destruct (Route.POST _ _) as [status r]. simpl.
  destruct (negb (ok status)); [discriminate|]. congruence.
Qed.

Lemma scrapeContent_invariants (D : Deployment) (C : Client) (url type : string) :
  always (fun r => sufficient r /\ explained r)
         (scrapeContent (served D C) url type).
Proof.
  apply attemptsFrom_result.
  - intros n data H. simpl in H. apply routeApi_outcome in H. subst data.
    split; [apply POST_sufficient | now apply POST_explained].
  - intros msg Hm. split; [apply sufficient_failure | now apply explained_failure].
Qed.

(** ** The other entry points *)

Lemma pollFrom_success (C : Client) (transcriptId : option string) :
  forall remaining attempts s r,
    fst (pollFrom C transcriptId remaining attempts s) = inr r -> success r = true.
Proof.
  induction remaining as [|remaining IH]; intros attempts s r; simpl.
  - discriminate.
  - unfold bind, wait.
    destruct (assembly_poll C transcriptId attempts) as [e|statusData];
      [discriminate|].
    destruct (equals (status statusData) "error"); [discriminate|].
    destruct (equals (status statusData) "completed").
    + simpl. intros [= <-]. reflexivity.
    + apply IH.
Qed.

Lemma assemblyTry_success (C : Client) (key videoId : string) (s : State)
    (r : ScrapingResult) :
  fst (assemblyTry C key videoId s) = inr r -> success r = true.
Proof.
  unfold assemblyTry.
  destruct (assembly_submit C key videoId) as [e|st statusText body];
    [discriminate|].
  destruct (negb (ok st)); [discriminate|].
  destruct body as [e|transcriptData]; [discriminate|].
  destruct (equals (submitted_status transcriptData) "completed"); [discriminate|].
  apply pollFrom_success.
Qed.

Lemma scrapeWithAssemblyAI_explained (D : Deployment) (C : Client) (url : string) :
  always explained (scrapeWithAssemblyAI (served D C) url).
Proof.
  unfold scrapeWithAssemblyAI.
  destruct (extractYouTubeVideoId url) as [videoId|].
  2:{ apply always_ret, explained_failure. discriminate. }
  destruct (negb (truthy videoId)).
  { apply always_ret, explained_failure. discriminate. }
  destruct (negb (truthy_opt (ASSEMBLYAI_API_KEY (served D C)))).
  { intros s. apply scrapeContent_invariants. }
  intros s. unfold bind.
  destruct (assemblyTry _ _ _ s) as [[e|r] s'] eqn:T.
  - apply scrapeContent_invariants.
  - simpl. apply explained_success.
    eapply assemblyTry_success with (s := s). rewrite T. reflexivity.
Qed.

Lemma scrapeWithCustomAPI_explained (D : Deployment) (C : Client) (url : string) :
  always explained (scrapeWithCustomAPI (served D C) url).
Proof.
  unfold scrapeWithCustomAPI.
  destruct (_ || _).
  { intros s. apply scrapeContent_invariants. }
  unfold customTry.
  destruct (custom_api _ _ _ _) as [e|st statusText body].
  { intros s. apply scrapeContent_invariants. }
  destruct (negb (ok st)).
  { intros s. apply scrapeContent_invariants. }
  destruct body as [e|data].
  { intros s. apply scrapeContent_invariants. }
  apply always_ret. now apply explained_success.
Qed.

Lemma scrapeContentEnhanced_explained (D : Deployment) (C : Client) (url type : string) :
  always explained (scrapeContentEnhanced (served D C) url type).
Proof.
  intros s. unfold scrapeContentEnhanced, bind.
  destruct ((type =? "youtube")%string && _).
  - destruct (scrapeWithAssemblyAI _ _ s) as [r1 s1].
    destruct (success r1) eqn:S1; simpl.
    { now apply explained_success. }
    destruct (_ && _).
    + destruct (scrapeWithCustomAPI _ _ s1) as [r2 s2].
      destruct (success r2) eqn:S2; simpl.
      { now apply explained_success. }
      apply scrapeContent_invariants.
    + simpl. apply scrapeContent_invariants.
  - simpl. destruct (_ && _).
    + destruct (scrapeWithCustomAPI _ _ s) as [r2 s2].
      destruct (success r2) eqn:S2; simpl.
      { now apply explained_success. }
      apply scrapeContent_invariants.
    + simpl. apply scrapeContent_invariants.
Qed.

End LibFacts.

Import LibFacts.

(* ===================================================================== *)
(** * The retry envelope *)
(* ===================================================================== *)

Section Retry.
Import Lib.

Variable C : Client.
Variables url type : string.

Lemma includes_unknown_or (prefix m : string) :
  includes (prefix ++ lastMessage (Some m)) m = true.
Proof.
  unfold lastMessage, or_else. destruct m as [|c m]; simpl truthy; cbv iota.
  - apply includes_empty.
  - apply includes_app_end.
Qed.

Lemma exhausted_message (e : exn) :
  let msg := "Scraping failed after 3 attempts: " ++
             lastMessage (Some (message_or e "Unknown error")) in
  includes msg "3" = true /\ includes msg (message_or e "Unknown error") = true.
Proof.
  split.
  - apply (includes_app "Scraping failed after " "3" _).
  - apply includes_unknown_or.
Qed.

(** The three outcomes decide the whole run. *)
Lemma scrapeContent_run (s : State) :
  let outcome i := attemptOutcome (api C (sent s + i) url type) in
  match outcome 0 with
  | inr data =>
      scrapeContent C url type s =
      (data, MkState (sent s + 1) (trace s ++ firstn 1 steps))
  | inl _ =>
      match outcome 1 with
      | inr data =>
          scrapeContent C url type s =
          (data, MkState (sent s + 2) (trace s ++ firstn 3 steps))
      | inl _ =>
          match outcome 2 with
          | inr data =>
              scrapeContent C url type s =
              (data, MkState (sent s + 3) (trace s ++ steps))
          | inl e =>
              scrapeContent C url type s =
              (failure ("Scraping failed after 3 attempts: " ++
                        lastMessage (Some (message_or e "Unknown error"))),
               MkState (sent s + 3) (trace s ++ steps))
          end
      end
  end.
Proof.
  cbv zeta. unfold scrapeContent, maxRetries, steps.
  cbn [attemptsFrom]. unfold bind, post, wait, ret.
  replace (sent s + 0) with (sent s) by lia.
  replace (sent s + 1) with (S (sent s)) by lia.
  replace (sent s + 2) with (S (S (sent s))) by lia.
  replace (sent s + 3) with (S (S (S (sent s)))) by lia.
  cbn [sent trace fst snd Nat.ltb Nat.leb firstn].
  destruct (attemptOutcome (api C (sent s) url type)) as [e1|d1];
    cbv beta iota; cbn [sent trace fst snd]; [| reflexivity].
  destruct (attemptOutcome (api C (S (sent s)) url type)) as [e2|d2];
    cbv beta iota; cbn [sent trace fst snd]; [| now rewrite <- !app_assoc].
  destruct (attemptOutcome (api C (S (S (sent s))) url type)) as [e3|d3];
    cbv beta iota; cbn [sent trace fst snd]; now rewrite <- !app_assoc.
Qed.






End Retry.


(* ===================================================================== *)
(** * The result invariants *)
(* ===================================================================== *)

Module Invariants.
Import Route Lib Scenario.

(** C1, as the code has it. Every result with [success = true] that the
    scrape route produces, and every such result that [scrapeContent]
    relays from the route, has a content that is present, non-empty and at
    least 50 code units long after trimming. *)
Theorem route_success_has_content :
  (forall (E : Env) (request : Request), sufficient (snd (POST E request))) /\
  (forall (D : Deployment) (C : Client) (url type : string) (s : State),
     sufficient (fst (scrapeContent (served D C) url type s))).
Proof.
  split.
  - apply POST_sufficient.
  - intros D C url type s. apply scrapeContent_invariants.
Qed.

Lemma route_success_has_content_witness :
  exists c,
    content (snd (POST offline (Body (Some "https://www.tiktok.com/@a/video/1") None)))
      = Some c /\ c <> "" /\ 50 <= length (trim c).
Proof.
  apply (proj1 route_success_has_content offline
           (Body (Some "https://www.tiktok.com/@a/video/1") None)).
  reflexivity.
Defined.

(** C1 fails for the custom scraper: a reply [{}] of the custom API is
    returned with [success = true] and the empty content. *)
Lemma custom_api_empty_content :
  let r := fst (scrapeWithCustomAPI customClient "https://example.com/post" start) in
  success r = true /\ content r = Some "" /\ ~ sufficient r.
Proof.
  cbv zeta. split; [reflexivity|]. split; [reflexivity|].
  intros H. destruct (H eq_refl) as (c & Hc & Hne & _).
  vm_compute in Hc. congruence.
Qed.

(** The transcription path likewise returns what the service sent: a
    completed transcript without text has no content at all. *)
Lemma assembly_absent_content :
  let r := fst (scrapeWithAssemblyAI assemblyClient "https://youtu.be/dQw4w9WgXcQ" start) in
  success r = true /\ content r = None.
Proof. vm_compute. split; reflexivity. Qed.

(** C2. Every result with [success = false], from the route handler, from
    each strategy chain and from each entry point of the library, has a
    non-empty error message and neither content nor title. *)
Theorem failure_is_explained :
  (forall (E : Env) (url : string),
     explained (scrapeYouTubeContentEnhanced E url) /\
     explained (scrapeArticleContentEnhanced E url) /\
     explained (scrapeTikTokContent url) /\
     explained (scrapeInstagramContent url)) /\
  (forall (E : Env) (request : Request),
     answerable request -> explained (snd (POST E request))) /\
  (forall (D : Deployment) (C : Client) (url type : string) (s : State),
     explained (fst (scrapeContent (served D C) url type s)) /\
     explained (fst (scrapeWithAssemblyAI (served D C) url s)) /\
     explained (fst (scrapeWithCustomAPI (served D C) url s)) /\
     explained (fst (scrapeContentEnhanced (served D C) url type s))).
Proof.
  split; [| split].
  - intros E url. split; [| split; [| split]].
    + apply youtube_invariants.
    + apply article_invariants.
    + apply tiktok_invariants.
    + apply instagram_invariants.
  - apply POST_explained.
  - intros D C url type s. split; [| split; [| split]].
    + apply scrapeContent_invariants.
    + apply scrapeWithAssemblyAI_explained.
    + apply scrapeWithCustomAPI_explained.
    + apply scrapeContentEnhanced_explained.
Qed.

Lemma failure_is_explained_witness :
  (exists e, error (snd (POST offline (Body (Some "https://example.com/a") None))) = Some e
             /\ e <> "") /\
  content (snd (POST offline (Body (Some "https://example.com/a") None))) = None /\
  title (snd (POST offline (Body (Some "https://example.com/a") None))) = None.
Proof.
  apply (proj1 (proj2 failure_is_explained) offline
           (Body (Some "https://example.com/a") None)).
  - exact I.
  - reflexivity.
Defined.

End Invariants.

(* ===================================================================== *)
(** * The video chain *)
(* ===================================================================== *)

Module VideoChain.
Import Route Scenario.

(** The oEmbed step writes a title only into an empty one: a title that
    the page scrape has set is kept, weak or not. *)
Lemma oembed_keeps_title (E : Env) (url videoTitle channelName : string) :
  truthy videoTitle = true ->
  fst (method2_5 E url videoTitle channelName) = videoTitle.
Proof.
  intros H. unfold method2_5.
  destruct (looksWeakTitle videoTitle); [| reflexivity].
  destruct (fetch_oembed E url); [| reflexivity].
  unfold fill. rewrite H. reflexivity.
Qed.

(** C4 at its input: the page scrape yields the title 12K, the title is
    judged weak, the oEmbed document with the title Real Title is
    fetched, and the result still carries 12K. *)
Theorem weak_title_not_replaced :
  let url := "https://www.youtube.com/watch?v=dQw4w9WgXcQ" in
  page_title (method2 weakTitle "dQw4w9WgXcQ") = "12K" /\
  looksWeakTitle "12K" = true /\
  fetch_oembed weakTitle url = Some (MkOEmbed (Some "Real Title") None) /\
  fst (method2_5 weakTitle url "12K" "") = "12K" /\
  success (scrapeYouTubeContentEnhanced weakTitle url) = true /\
  title (scrapeYouTubeContentEnhanced weakTitle url) = Some "12K".
Proof. vm_compute. repeat split. Qed.

(** C10 fails: with a title of 200 blanks from oEmbed the assembled
    content is 209 code units long, so no fallback is substituted; it
    trims to 6 code units, and the chain returns the insufficient-content
    failure without any exception. *)
Lemma blank_title_is_insufficient :
  let url := "https://youtu.be/dQw4w9WgXcQ" in
  let videoId := "dQw4w9WgXcQ" in
  let f := collect blankTitle url videoId in
  let transcript := method1 blankTitle videoId in
  extractYouTubeVideoId url = Some videoId /\
  length (fst (assemble transcript f)) = 209 /\
  trim (fst (assemble transcript f)) = "TITLE:" /\
  conclude url videoId transcript f (withFallback videoId f (assemble transcript f))
    = inr (failure insufficient) /\
  scrapeYouTubeContentEnhanced blankTitle url = failure insufficient.
Proof. vm_compute. repeat split. Qed.

(** C10, as the code has it. The VIDEO ANALYSIS block always trims to
    more than 50 code units, so whenever the assembled content is under
    200 code units the guard passes and an extraction that does not throw
    succeeds. When the assembled content has 200 code units or more, no
    block is substituted and the guard decides on the assembled content
    itself. *)
Theorem fallback_block_passes_guard
    (url videoId transcript : string) (f : Fields) :
  let assembled := assemble transcript f in
  let outcome :=
    conclude url videoId transcript f (withFallback videoId f assembled) in
  50 < length (trim (analysisBlock videoId f)) /\
  (length (fst assembled) < 200 ->
     match outcome with
     | inr r => success r = true
     | inl e => videoDescription f = None
     end) /\
  (200 <= length (fst assembled) ->
     match outcome with
     | inr r => success r = (50 <=? length (trim (fst assembled)))
     | inl e => videoDescription f = None
     end).
Proof.
  cbv zeta. split; [apply analysisBlock_long|].
  unfold withFallback.
  destruct (assemble transcript f) as [finalContent contentSources]. cbn [fst].
  split; intros H.
  - apply Nat.ltb_lt in H. rewrite H.
    pose proof (analysisBlock_long videoId f) as L.
    match goal with
    | |- context [conclude ?u ?v ?t ?g ?p] =>
        pose proof (conclude_cases u v t g p) as K;
        destruct (conclude u v t g p) as [e|r]
    end; cbn [fst] in K.
    + apply K.
    + destruct K as [[_ K]|[K _]]; [lia | exact K].
  - apply Nat.ltb_ge in H. rewrite H.
    match goal with
    | |- context [conclude ?u ?v ?t ?g ?p] =>
        pose proof (conclude_cases u v t g p) as K;
        destruct (conclude u v t g p) as [e|r]
    end; cbn [fst] in K.
    + apply K.
    + destruct K as [[-> K]|(K & _ & L)].
      * symmetry. apply Nat.leb_gt. exact K.
      * rewrite K. symmetry. apply Nat.leb_le. exact L.
Qed.

Lemma fallback_block_passes_guard_witness :
  success (scrapeYouTubeContentEnhanced offline "https://youtu.be/dQw4w9WgXcQ") = true.
Proof.
  pose proof (fallback_block_passes_guard "https://youtu.be/dQw4w9WgXcQ" "dQw4w9WgXcQ"
                (method1 offline "dQw4w9WgXcQ")
                (collect offline "https://youtu.be/dQw4w9WgXcQ" "dQw4w9WgXcQ")) as H.
  cbv zeta in H. destruct H as (_ & H & _).
  assert (L : length (fst (assemble (method1 offline "dQw4w9WgXcQ")
                (collect offline "https://youtu.be/dQw4w9WgXcQ" "dQw4w9WgXcQ"))) < 200)
    by (vm_compute; lia).
  specialize (H L). vm_compute in H. vm_compute. exact H.
Defined.

End VideoChain.

(* ===================================================================== *)
(** * The article chain *)
(* ===================================================================== *)

Module ArticleChain.
Import Route Scenario.

(** The loop leaves [content] alone when no pattern gives a candidate,
    and ends with the candidate when exactly one is given. *)
Lemma contentLoop_none (html : string) :
  forall patterns content,
    candidates patterns html = [] -> contentLoop patterns html content = content.
Proof.
  induction patterns as [|pattern more IH]; intros content H; [reflexivity|].
  cbn [contentLoop candidates] in *.
  destruct (candidate pattern html); [discriminate | now apply IH].
Qed.

Lemma contentLoop_single (html c : string) :
  forall patterns content,
    candidates patterns html = [c] -> contentLoop patterns html content = c.
Proof.
  induction patterns as [|pattern more IH]; intros content H; [discriminate|].
  cbn [contentLoop candidates] in *.
  destruct (candidate pattern html) as [c'|]; [| now apply IH].
  injection H as -> H. rewrite (contentLoop_none html more c H).
  now destruct (200 <? length c).
Qed.

(** The page of 101 letters in a [main] block followed by an empty
    paragraph: the block gives a body of 101 letters, the paragraph pattern
    then matches and leaves the empty text, and the chain fails. *)
Lemma later_match_overwrites_body :
  candidates contentPatterns Cases.overwrittenPage = [repeat "a" 101; ""] /\
  contentLoop contentPatterns Cases.overwrittenPage "" = "" /\
  scrapeArticleContentEnhanced (Cases.pageSite Cases.overwrittenPage)
    "https://example.com/a" = failure meaningless.
Proof. vm_compute. repeat split. Qed.

(** C5, as the code has it.  The gate looks at the value of [content]
    when the pattern loop ends.  Once the page is fetched, a value under
    100 code units gives the failure that names heavy JavaScript or access
    restrictions, and a value of 100 code units or more gives a success
    (the URL being one that the URL parser accepts).  When one pattern
    alone gives a candidate, that candidate is the value: a page whose only
    text is a paragraph, or a [main] block between a script, markup and
    white space, fails with 99 letters and succeeds with 101. *)
Theorem article_acceptance_boundary :
  (forall (E : Env) (url statusText html : string) (status : nat),
     fetch_article E url = Responded status statusText (inr html) ->
     ok status = true ->
     let body := contentLoop contentPatterns html "" in
     (forall c, candidates contentPatterns html = [c] -> body = c) /\
     (length body < 100 ->
        scrapeArticleContentEnhanced E url = failure meaningless) /\
     (100 <= length body ->
        forall hostname, url_hostname E url = inr hostname ->
        success (scrapeArticleContentEnhanced E url) = true)) /\
  includes meaningless "heavy JavaScript" = true /\
  includes meaningless "access restrictions" = true /\
  candidates contentPatterns (paragraphPage 99) = [repeat "a" 99] /\
  success (scrapeArticleContentEnhanced (articleSite 99) "https://example.com/a") = false /\
  candidates contentPatterns (paragraphPage 101) = [repeat "a" 101] /\
  success (scrapeArticleContentEnhanced (articleSite 101) "https://example.com/a") = true /\
  candidates contentPatterns (Cases.mainPage 99) = [repeat "a" 99] /\
  scrapeArticleContentEnhanced (Cases.pageSite (Cases.mainPage 99)) "https://example.com/a"
    = failure meaningless /\
  candidates contentPatterns (Cases.mainPage 101) = [repeat "a" 101] /\
  success (scrapeArticleContentEnhanced (Cases.pageSite (Cases.mainPage 101))
             "https://example.com/a") = true.
Proof.
  split; [| vm_compute; repeat split].
  intros E url statusText html status F K body.
  split; [intros c Hc; now apply contentLoop_single|].
  unfold scrapeArticleContentEnhanced, articleTry. rewrite F, K. cbn [negb].
  pose proof (articleFromHtml_cases E url html) as H. cbv zeta in H. fold body in H.
  destruct (articleFromHtml E url html) as [e|r].
  - destruct H as [H1 H2]. split; [lia|]. intros _ hostname Hh. congruence.
  - destruct H as [[H1 ->]|(H1 & H2 & _)].
    + split; [reflexivity | lia].
    + split; [lia | now intros].
Qed.

Lemma article_acceptance_boundary_witness :
  scrapeArticleContentEnhanced (Cases.pageSite (Cases.mainPage 99)) "https://example.com/a"
    = failure meaningless /\
  success (scrapeArticleContentEnhanced (Cases.pageSite (Cases.mainPage 101))
             "https://example.com/a") = true.
Proof.
  split.
  - apply (proj1 article_acceptance_boundary (Cases.pageSite (Cases.mainPage 99))
             "https://example.com/a" "OK" (Cases.mainPage 99) 200 eq_refl eq_refl).
    vm_compute. lia.
  - apply (proj1 article_acceptance_boundary (Cases.pageSite (Cases.mainPage 101))
             "https://example.com/a" "OK" (Cases.mainPage 101) 200 eq_refl eq_refl)
      with (hostname := "example.com").
    + vm_compute. lia.
    + reflexivity.
Defined.

End ArticleChain.

(* ===================================================================== *)
(** * The social placeholders *)
(* ===================================================================== *)

Module SocialStrategy.
Import Route.



(** C9. For every URL both social strategies return a success whose
    content is a non-empty placeholder that states the limit of automated
    text extraction, and whose metadata note holds the words manual review
    recommended. The result is a function of the URL alone: the handler
    gives it in every environment. *)
Theorem social_placeholder (url : string) :
  placeholder url (scrapeTikTokContent url) /\
  placeholder url (scrapeInstagramContent url) /\
  (forall E1 E2 : Env,
     dispatch E1 "tiktok" url = dispatch E2 "tiktok" url /\
     dispatch E1 "tiktok" url = scrapeTikTokContent url /\
     dispatch E1 "instagram" url = dispatch E2 "instagram" url /\
     dispatch E1 "instagram" url = scrapeInstagramContent url).
Proof.
  split; [| split; [| intros E1 E2; repeat split]];
    (split; [reflexivity|]); split.
  - eexists. split; [reflexivity|]. split; [discriminate|]. split.
    + apply (includes_app "TikTok video analysis from: " url _).
    + find_in.
  - eexists. split; reflexivity.
  - eexists. split; [reflexivity|]. split; [discriminate|]. split.
    + apply (includes_app "Instagram post analysis from: " url _).
    + find_in.
  - eexists. split; reflexivity.
Qed.

End SocialStrategy.

(* ===================================================================== *)
(** * Facts about the matcher *)
(* ===================================================================== *)

Module RegexFacts.

Lemma run_Cat (a b : re) (s : st) (k : st -> option st) :
  run (Cat a b) s k = run a s (fun s' => run b s' k).
Proof. reflexivity. Qed.

Lemma run_Alt (a b : re) (s : st) (k : st -> option st) :
  run (Alt a b) s k =
  match run a s k with Some x => Some x | None => run b s k end.
Proof. reflexivity. Qed.

Lemma run_chr (c : ascii) (s : st) (k : st -> option st) (x : st) :
  run (chr c) s k = Some x ->
  exists t, rest s = String c t /\ k (St (Some c) t (caps s)) = Some x.
Proof.
  unfold chr. simpl. destruct (rest s) as [|d t]; [discriminate|].
  destruct (Ascii.eqb c d) eqn:E; [| discriminate].
  apply Ascii.eqb_eq in E. subst d. intros H. now exists t.
Qed.

(** A literal matches only where the input starts with it. *)
Lemma run_lit (l : string) :
  forall (s : st) (k : st -> option st) (x : st),
    run (lit l) s k = Some x -> prefix l (rest s) = true.
Proof.
  induction l as [|c l IH]; intros s k x H.
  - now destruct (rest s).
  - assert (G : exists t, rest s = String c t /\ prefix l t = true).
    { destruct l as [|d l].
      - destruct (run_chr _ _ _ _ H) as (t & Ht & _). exists t. split; [exact Ht|].
        now destruct t.
      - change (lit (String c (String d l))) with (Cat (chr c) (lit (String d l))) in H.
        rewrite run_Cat in H. destruct (run_chr _ _ _ _ H) as (t & Ht & Hk).
        exists t. split; [exact Ht|]. exact (IH _ _ _ Hk). }
    destruct G as (t & -> & Ht). simpl.
    destruct (ascii_dec c c); [exact Ht | congruence].
Qed.

(** If every match of [r] starts with one of the literals [lits], a string
    in which [r] is found holds one of them. *)
Lemma search_includes (r : re) (lits : list string) :
  (forall s k x, run r s k = Some x ->
     existsb (fun l => prefix l (rest s)) lits = true) ->
  forall (s : string) (p : option ascii) (idx : nat) (m : result),
    search r p idx s = Some m ->
    existsb (fun l => includes s l) lits = true.
Proof.
  intros Hr.
  assert (Here : forall s p idx m, at_pos r p idx s = Some m ->
                   existsb (fun l => includes s l) lits = true).
  { intros s p idx m H. unfold at_pos in H.
    destruct (run r (St p s []) Some) as [x|] eqn:R; [| discriminate].
    apply Hr in R. cbn [rest] in R.
    apply existsb_exists in R. destruct R as (l & Hl & Hp).
    apply existsb_exists. exists l. split; [exact Hl|]. now apply includes_here. }
  induction s as [|c s IH]; intros p idx m H; simpl in H.
  - destruct (at_pos r p idx "") eqn:A; [| discriminate]. exact (Here _ _ _ _ A).
  - destruct (at_pos r p idx (String c s)) eqn:A; [exact (Here _ _ _ _ A)|].
    apply IH in H. apply existsb_exists in H. destruct H as (l & Hl & Hi).
    apply existsb_exists. exists l. split; [exact Hl|]. now apply includes_later.
Qed.

(** ** The fuel of the loops is never used up *)

Lemma star_ext (greedy : bool) (step : st -> (st -> option st) -> option st) :
  (forall s k1 k2, (forall s', k1 s' = k2 s') -> step s k1 = step s k2) ->
  forall n s k1 k2,
    (forall s', k1 s' = k2 s') ->
    star greedy step k1 n s = star greedy step k2 n s.
Proof.
  intros Hstep. induction n as [|n IH]; intros s k1 k2 Hk; simpl.
  - apply Hk.
  - rewrite (Hk s).
    rewrite (Hstep s _ (fun s' =>
      if length (rest s') <? length (rest s)
      then star greedy step k2 n s' else None)).
    + reflexivity.
    + intros s'. destruct (_ <? _); [now apply IH | reflexivity].
Qed.

(** The result of a match depends on the continuation only through its
    values. *)
Lemma run_ext (r : re) :
  forall s k1 k2, (forall s', k1 s' = k2 s') -> run r s k1 = run r s k2.
Proof.
  induction r as [|p|a IHa b IHb|a IHa b IHb|greedy a IHa|i a IHa| | |p];
    intros s k1 k2 Hk; cbn [run].
  - apply Hk.
  - destruct (rest s) as [|c t]; [reflexivity|]. destruct (p c); [apply Hk | reflexivity].
  - apply IHa. intros s'. now apply IHb.
  - rewrite (IHa s k1 k2 Hk), (IHb s k1 k2 Hk). reflexivity.
  - now apply star_ext.
  - apply IHa. intros s'. apply Hk.
  - destruct (prev s); [reflexivity | apply Hk].
  - destruct (rest s); [apply Hk | reflexivity].
  - destruct (prev s) as [c|]; [| apply Hk]. destruct (p c); [reflexivity | apply Hk].
Qed.

(** More fuel than the length of the remaining input changes nothing. *)
Lemma star_fuel (greedy : bool) (a : re) (k : st -> option st) :
  forall n m s,
    length (rest s) < n -> length (rest s) < m ->
    star greedy (run a) k n s = star greedy (run a) k m s.
Proof.
  induction n as [|n IH]; intros m s Hn Hm; [lia|].
  destruct m as [|m]; [lia|]. simpl.
  rewrite (run_ext a s _ (fun s' =>
    if length (rest s') <? length (rest s)
    then star greedy (run a) k m s' else None)).
  - reflexivity.
  - intros s'. destruct (length (rest s') <? length (rest s)) eqn:E; [| reflexivity].
    apply Nat.ltb_lt in E. apply IH; lia.
Qed.

Lemma replace_fuel (r : re) (rep : string) :
  forall n m p s,
    length s < n -> length s < m ->
    replace_from n r rep p s = replace_from m r rep p s.
Proof.
  induction n as [|n IH]; intros m p s Hn Hm; [lia|].
  destruct m as [|m]; [lia|]. simpl.
  destruct (at_pos r p 0 s) as [x|].
  - destruct (length (after x) <? length s) eqn:E.
    + apply Nat.ltb_lt in E. f_equal. apply IH; lia.
    + destruct s as [|c t]; [reflexivity|]. simpl in Hn, Hm.
      do 2 f_equal. apply IH; lia.
  - destruct s as [|c t]; [reflexivity|]. simpl in Hn, Hm.
    f_equal. apply IH; lia.
Qed.

Lemma matches_fuel (r : re) :
  forall n m p s,
    length s < n -> length s < m ->
    matches_from n r p s = matches_from m r p s.
Proof.
  induction n as [|n IH]; intros m p s Hn Hm; [lia|].
  destruct m as [|m]; [lia|]. simpl.
  destruct (at_pos r p 0 s) as [x|].
  - destruct (length (after x) <? length s) eqn:E.
    + apply Nat.ltb_lt in E. f_equal. apply IH; lia.
    + destruct s as [|c t]; [reflexivity|]. simpl in Hn, Hm.
      f_equal. apply IH; lia.
  - destruct s as [|c t]; [reflexivity|]. simpl in Hn, Hm. apply IH; lia.
Qed.

Lemma exec_none (r : re) (lits : list string) (url : string) :
  (forall s k x, run r s k = Some x ->
     existsb (fun l => prefix l (rest s)) lits = true) ->
  existsb (fun l => includes url l) lits = false ->
  exec r url = None.
Proof.
  intros Hr Hn. unfold exec. destruct (search r None 0 url) as [m|] eqn:S; [| reflexivity].
  apply (search_includes r lits Hr) in S. congruence.
Qed.

End RegexFacts.

(* ===================================================================== *)
(** * The pure leaves *)
(* ===================================================================== *)

Module Leaves.
Import RegexFacts.

Lemma lib_id_pattern1_starts (s : st) (k : st -> option st) (x : st) :
  run lib_id_pattern1 s k = Some x ->
  existsb (fun l => prefix l (rest s))
    ["youtube.com/watch?v="; "youtu.be/"; "youtube.com/embed/"] = true.
Proof.
  unfold lib_id_pattern1. rewrite run_Cat, !run_Alt. intros H. cbn [existsb].
  destruct (run (lit "youtube.com/watch?v=") s _) eqn:A.
  { apply run_lit in A. now rewrite A. }
  destruct (run (lit "youtu.be/") s _) eqn:B.
  { apply run_lit in B. rewrite B. now rewrite orb_true_r. }
  apply run_lit in H. rewrite H. now rewrite !orb_true_r.
Qed.

Lemma route_id_pattern1_starts (s : st) (k : st -> option st) (x : st) :
  run route_id_pattern1 s k = Some x ->
  existsb (fun l => prefix l (rest s))
    ["youtube.com/watch?v="; "youtu.be/"; "youtube.com/embed/"; "youtube.com/v/"] = true.
Proof.
  unfold route_id_pattern1. rewrite run_Cat, !run_Alt. intros H. cbn [existsb].
  destruct (run (lit "youtube.com/watch?v=") s _) eqn:A.
  { apply run_lit in A. now rewrite A. }
  destruct (run (lit "youtu.be/") s _) eqn:B.
  { apply run_lit in B. rewrite B. now rewrite orb_true_r. }
  destruct (run (lit "youtube.com/embed/") s _) eqn:D.
  { apply run_lit in D. rewrite D. now rewrite !orb_true_r. }
  apply run_lit in H. rewrite H. now rewrite !orb_true_r.
Qed.

Lemma id_pattern2_starts (s : st) (k : st -> option st) (x : st) :
  run id_pattern2 s k = Some x ->
  existsb (fun l => prefix l (rest s)) ["youtube.com/watch?"] = true.
Proof.
  unfold id_pattern2. cbn [cats]. rewrite run_Cat. intros H. cbn [existsb].
  apply run_lit in H. now rewrite H.
Qed.

Lemma no_watch_v (url : string) :
  includes url "youtube.com/watch?" = false ->
  includes url "youtube.com/watch?v=" = false.
Proof.
  intros H. destruct (includes url "youtube.com/watch?v=") eqn:E; [| reflexivity].
  apply (includes_weaken url "youtube.com/watch?" "v=") in E. congruence.
Qed.

(** C8. The two URLs of the specification give the id dQw4w9WgXcQ, in the
    library and in the route; a URL that holds none of the texts the
    patterns start with (youtube.com/watch?, youtu.be/, youtube.com/embed/,
    youtube.com/v/) gives no id. *)
Theorem video_id_extraction :
  Lib.extractYouTubeVideoId "https://www.youtube.com/watch?v=dQw4w9WgXcQ&t=30s"
    = Some "dQw4w9WgXcQ" /\
  Lib.extractYouTubeVideoId "https://youtu.be/dQw4w9WgXcQ" = Some "dQw4w9WgXcQ" /\
  Route.extractYouTubeVideoId "https://www.youtube.com/watch?v=dQw4w9WgXcQ&t=30s"
    = Some "dQw4w9WgXcQ" /\
  Route.extractYouTubeVideoId "https://youtu.be/dQw4w9WgXcQ" = Some "dQw4w9WgXcQ" /\
  (forall url : string,
     includes url "youtube.com/watch?" = false ->
     includes url "youtu.be/" = false ->
     includes url "youtube.com/embed/" = false ->
     includes url "youtube.com/v/" = false ->
     Lib.extractYouTubeVideoId url = None /\
     Route.extractYouTubeVideoId url = None).
Proof.
  split; [reflexivity|]. split; [reflexivity|].
  split; [reflexivity|]. split; [reflexivity|].
  intros url W B Em V. pose proof (no_watch_v url W) as WV.
  assert (P2 : exec id_pattern2 url = None).
  { apply (exec_none _ _ url id_pattern2_starts). cbn [existsb]. now rewrite W. }
  assert (L1 : exec lib_id_pattern1 url = None).
  { apply (exec_none _ _ url lib_id_pattern1_starts). cbn [existsb].
    now rewrite WV, B, Em. }
  assert (R1 : exec route_id_pattern1 url = None).
  { apply (exec_none _ _ url route_id_pattern1_starts). cbn [existsb].
    now rewrite WV, B, Em, V. }
  split.
  - unfold Lib.extractYouTubeVideoId, Lib.first_group. now rewrite L1, P2.
  - unfold Route.extractYouTubeVideoId, Route.first_captured, captured.
    now rewrite R1, P2.
Qed.

Lemma video_id_extraction_witness :
  Lib.extractYouTubeVideoId "https://example.com/articles/42?ref=home" = None /\
  Route.extractYouTubeVideoId "https://example.com/articles/42?ref=home" = None.
Proof.
  apply (proj2 (proj2 (proj2 (proj2 video_id_extraction)))); reflexivity.
Defined.

End Leaves.

Module Classifier.

(** C7 fails on a URL that holds two of the markers: this TikTok URL also
    holds youtube.com, and the classifier answers youtube. *)
Lemma classifier_overlap :
  let url := "https://www.tiktok.com/@creator/video/7?ref=youtube.com" in
  includes url "tiktok.com" = true /\
  getContentType url = "youtube" /\
  getContentTypeFromUrl url = "youtube" /\
  getContentType url <> "tiktok".
Proof. vm_compute. repeat split. discriminate. Qed.

(** C7, as the code has it. The classifier is a total function that tests
    the markers in a fixed order, the first one found deciding: youtube.com
    or youtu.be give youtube; otherwise tiktok.com gives tiktok; otherwise
    instagram.com gives instagram; otherwise the class is url. The library
    and the route classify alike, and the three URLs of the specification
    are classified as youtube. *)
Theorem classifier_first_marker (url : string) :
  getContentTypeFromUrl url = getContentType url /\
  (includes url "youtube.com" = true \/ includes url "youtu.be" = true ->
     getContentType url = "youtube") /\
  (includes url "youtube.com" = false -> includes url "youtu.be" = false ->
     includes url "tiktok.com" = true ->
     getContentType url = "tiktok") /\
  (includes url "youtube.com" = false -> includes url "youtu.be" = false ->
     includes url "tiktok.com" = false -> includes url "instagram.com" = true ->
     getContentType url = "instagram") /\
  (includes url "youtube.com" = false -> includes url "youtu.be" = false ->
     includes url "tiktok.com" = false -> includes url "instagram.com" = false ->
     getContentType url = "url") /\
  getContentType "https://youtu.be/abc123" = "youtube" /\
  getContentType "https://www.youtube.com/watch?v=abc123" = "youtube" /\
  getContentType "https://youtube.com/embed/abc123" = "youtube".
Proof.
  split; [reflexivity|]. unfold getContentType.
  split; [intros [H|H]; rewrite H; [| rewrite orb_true_r]; reflexivity|].
  split; [intros -> -> ->; reflexivity|].
  split; [intros -> -> -> ->; reflexivity|].
  split; [intros -> -> -> ->; reflexivity|].
  repeat split.
Qed.

Lemma classifier_first_marker_witness :
  getContentType "https://www.youtube.com/watch?v=abc123" = "youtube" /\
  getContentType "https://www.tiktok.com/@creator/video/7" = "tiktok" /\
  getContentType "https://www.instagram.com/p/abc/" = "instagram" /\
  getContentType "https://example.com/articles/42" = "url".
Proof.
  split; [| split; [| split]].
  - apply (proj1 (proj2 (classifier_first_marker _))). left. reflexivity.
  - apply (proj1 (proj2 (proj2 (classifier_first_marker _)))); reflexivity.
  - apply (proj1 (proj2 (proj2 (proj2 (classifier_first_marker _))))); reflexivity.
  - apply (proj1 (proj2 (proj2 (proj2 (proj2 (classifier_first_marker _)))))); reflexivity.
Defined.

End Classifier.

(* ===================================================================== *)
(** * Requests without a URL *)
(* ===================================================================== *)

Module EmptyUrl.
Import Route Lib Scenario.

(** C6 fails for the retry wrapper: called with the empty URL it posts to
    the route three times and waits twice before it returns the failure. *)
Lemma empty_url_is_retried :
  let '(r, s) := scrapeContent plainClient "" "url" start in
  success r = false /\
  sent s = 3 /\
  trace s = [Posted 1; Waited 1000; Posted 2; Waited 2000; Posted 3] /\
  error r = Some ("Scraping failed after 3 attempts: HTTP 400: Bad Request - " ++
                  stringifyPlain (failure "URL is required")).
Proof. vm_compute. repeat split. Qed.

(** C6, as the code has it. The route handler answers a request whose URL
    is missing or empty with status 400 and the failure URL is required,
    whatever the environment: nothing of the outside world is consulted.
    The retry wrapper has no check of its own: with the empty URL, in front
    of the route, each of its three attempts fails, so it returns
    [success = false] only after three posts and waits of 1000 and 2000
    ms. *)
Theorem empty_url_rejected_by_route :
  (forall (E : Env) (type : option string),
     POST E (Body None type) = (400, failure "URL is required") /\
     POST E (Body (Some "") type) = (400, failure "URL is required")) /\
  (forall (D : Deployment) (C : Client) (type : string) (s : State),
     success (fst (scrapeContent (served D C) "" type s)) = false /\
     snd (scrapeContent (served D C) "" type s)
       = MkState (sent s + 3) (trace s ++ steps)).
Proof.
  split; [intros E type; split; reflexivity|].
  intros D C type s.
  assert (F : forall n, exists e,
             attemptOutcome (api (served D C) n "" type) = inl e).
  { intros n. cbn [api served]. unfold routeApi.
    destruct (lost D n) as [e|]; [now exists e|].
    cbn. eexists. reflexivity. }
  pose proof (scrapeContent_run (served D C) "" type s) as R. cbv beta zeta in R.
  destruct (F (sent s + 0)) as [e0 E0]. rewrite E0 in R.
  destruct (F (sent s + 1)) as [e1 E1]. rewrite E1 in R.
  destruct (F (sent s + 2)) as [e2 E2]. rewrite E2 in R.
  rewrite R. split; reflexivity.
Qed.

End EmptyUrl.

(* ===================================================================== *)
(** * More facts about the matcher *)
(* ===================================================================== *)

Module MatcherFacts.
Import RegexFacts.

Lemma follows_refl (s : st) : follows s s.
Proof. now exists "". Qed.

Lemma follows_trans (s1 s2 s3 : st) : follows s1 s2 -> follows s2 s3 -> follows s1 s3.
Proof.
  intros [p H1] [q H2]. exists (p ++ q). rewrite append_assoc, <- H2. exact H1.
Qed.

Lemma star_follows (greedy : bool) (step : st -> (st -> option st) -> option st) :
  (forall s k x, step s k = Some x -> exists s', follows s s' /\ k s' = Some x) ->
  forall n s k x,
    star greedy step k n s = Some x -> exists s', follows s s' /\ k s' = Some x.
Proof.
  intros Hstep. induction n as [|n IH]; intros s k x H; simpl in H.
  - exists s. split; [apply follows_refl | exact H].
  - assert (More : forall y,
      step s (fun s' => if length (rest s') <? length (rest s)
                        then star greedy step k n s' else None) = Some y ->
      exists s', follows s s' /\ k s' = Some y).
    { intros y Hy. apply Hstep in Hy. destruct Hy as (s1 & F1 & Hy).
      destruct (_ <? _); [| discriminate].
      apply IH in Hy. destruct Hy as (s2 & F2 & Hy).
      exists s2. split; [exact (follows_trans _ _ _ F1 F2) | exact Hy]. }
    destruct greedy.
    + destruct (step s _) as [y|] eqn:E.
      * injection H as <-. now apply More.
      * exists s. split; [apply follows_refl | exact H].
    + destruct (k s) as [y|] eqn:E.
      * injection H as <-. exists s. split; [apply follows_refl | exact E].
      * now apply More.
Qed.

(** A successful match hands a later state to its continuation. *)
Lemma run_follows (r : re) :
  forall s k x, run r s k = Some x -> exists s', follows s s' /\ k s' = Some x.
Proof.
  induction r as [|p|a IHa b IHb|a IHa b IHb|greedy a IHa|i a IHa| | |p];
    intros s k x H; cbn [run] in H.
  - exists s. split; [apply follows_refl | exact H].
  - destruct (rest s) as [|c t] eqn:R; [discriminate|].
    destruct (p c); [| discriminate].
    eexists. split; [| exact H]. exists (String c ""). cbn [rest]. now rewrite R.
  - apply IHa in H. destruct H as (s1 & F1 & H).
    apply IHb in H. destruct H as (s2 & F2 & H).
    exists s2. split; [exact (follows_trans _ _ _ F1 F2) | exact H].
  - destruct (run a s k) as [y|] eqn:E.
    + injection H as <-. now apply IHa.
    + now apply IHb.
  - now apply (star_follows greedy (run a) IHa) in H.
  - apply IHa in H. destruct H as (s1 & F1 & H).
    eexists. split; [| exact H]. exact F1.
  - destruct (prev s); [discriminate|]. exists s. split; [apply follows_refl | exact H].
  - destruct (rest s) eqn:R; [| discriminate].
    exists s. split; [apply follows_refl | exact H].
  - exists s. split; [apply follows_refl|].
    destruct (prev s) as [c|]; [| exact H]. destruct (p c); [discriminate | exact H].
Qed.

(** A found match was found at some position of the string. *)
Lemma search_at (r : re) :
  forall s p idx m,
    search r p idx s = Some m ->
    exists pre s' p' idx', s = pre ++ s' /\ at_pos r p' idx' s' = Some m.
Proof.
  induction s as [|c s IH]; intros p idx m H; simpl in H.
  - destruct (at_pos r p idx "") eqn:A; [| discriminate].
    injection H as <-. now exists "", "", p, idx.
  - destruct (at_pos r p idx (String c s)) eqn:A.
    + injection H as <-. now exists "", (String c s), p, idx.
    + apply IH in H. destruct H as (pre & s' & p' & idx' & -> & H).
      now exists (String c pre), s', p', idx'.
Qed.

(** ** Runs of a class *)

Lemma take_app (g r : string) : take (length (g ++ r) - length r) (g ++ r) = g.
Proof.
  rewrite length_append. replace (length g + length r - length r) with (length g) by lia.
  induction g as [|c g IH]; simpl.
  - now destruct r.
  - now rewrite IH.
Qed.

Lemma all_chars_app (p : ascii -> bool) (a b : string) :
  all_chars p (a ++ b) = all_chars p a && all_chars p b.
Proof.
  induction a as [|c a IH]; simpl; [reflexivity|]. now rewrite IH, andb_assoc.
Qed.

Lemma star_class (greedy : bool) (p : ascii -> bool) :
  forall n s k x,
    star greedy (run (Class p)) k n s = Some x ->
    exists g s', rest s = g ++ rest s' /\ caps s' = caps s /\
                 all_chars p g = true /\ k s' = Some x.
Proof.
  induction n as [|n IH]; intros s k x H; simpl in H.
  - exists "", s. now repeat split.
  - assert (Here : k s = Some x ->
      exists g s', rest s = g ++ rest s' /\ caps s' = caps s /\
                   all_chars p g = true /\ k s' = Some x).
    { intros Hk. exists "", s. now repeat split. }
    assert (More : forall y,
      match rest s with
      | "" => None
      | String c t =>
          if p c
          then (fun s' => if length (rest s') <? length (rest s)
                          then star greedy (run (Class p)) k n s' else None)
                 (St (Some c) t (caps s))
          else None
      end = Some y ->
      exists g s', rest s = g ++ rest s' /\ caps s' = caps s /\
                   all_chars p g = true /\ k s' = Some y).
    { intros y Hy. destruct (rest s) as [|c t] eqn:R; [discriminate|].
      destruct (p c) eqn:Pc; [| discriminate]. cbn [rest] in Hy.
      destruct (_ <? _); [| discriminate].
      apply IH in Hy. destruct Hy as (g & s' & Hg & Hc & Hp & Hy).
      cbn [rest caps] in Hg, Hc.
      exists (String c g), s'. split; [simpl; now rewrite Hg|].
      split; [exact Hc|]. split; [simpl; now rewrite Pc|]. exact Hy. }
    destruct greedy.
    + destruct (match rest s with "" => None | String c t => _ end) as [y|] eqn:E.
      * injection H as <-. now apply More.
      * now apply Here.
    + destruct (k s) as [y|] eqn:E.
      * injection H as <-. now apply Here.
      * now apply More.
Qed.

(** A group around [p+] captures a non-empty run of [p]. *)
Lemma run_group_many1 (i : nat) (p : ascii -> bool) (s : st)
    (k : st -> option st) (x : st) :
  run (Group i (many1 (Class p))) s k = Some x ->
  exists g s', follows s s' /\ caps s' = (i, g) :: caps s /\
               rest s = g ++ rest s' /\
               g <> "" /\ all_chars p g = true /\ k s' = Some x.
Proof.
  unfold many1. cbn [run]. intros H.
  destruct (rest s) as [|c t] eqn:R; [discriminate|].
  destruct (p c) eqn:Pc; [| discriminate].
  apply star_class in H. destruct H as (g & s0 & Hg & Hc & Hp & H).
  cbn [rest caps] in Hg, Hc. subst t.
  change (String c (g ++ rest s0)) with (String c g ++ rest s0) in H.
  rewrite take_app in H.
  exists (String c g), (St (prev s0) (rest s0) ((i, String c g) :: caps s0)).
  cbn [rest caps]. rewrite <- Hc.
  split; [now exists (String c g)|].
  split; [reflexivity|]. split; [reflexivity|]. split; [discriminate|].
  split; [simpl; now rewrite Pc | exact H].
Qed.

End MatcherFacts.

(* ===================================================================== *)
(** * The shape of a video id *)
(* ===================================================================== *)

Module VideoId.
Import MatcherFacts.

Lemma captures_group : captures_id video_id_group.
Proof.
  intros s x H. unfold video_id_group, none_of in H.
  apply run_group_many1 in H.
  destruct H as (g & s' & _ & Hc & Hr & Hn & Hp & [= <-]).
  exists g, "", (rest s'). rewrite Hc. cbn [lookup Nat.eqb].
  now repeat split.
Qed.

Lemma captures_Cat (a b : re) : captures_id b -> captures_id (Cat a b).
Proof.
  intros Hb s x H. cbn [run] in H.
  apply run_follows in H. destruct H as (s1 & [pre0 F] & H).
  apply Hb in H. destruct H as (g & pre & post & Hl & Hn & Hp & Hr).
  exists g, (pre0 ++ pre), post. repeat split; try assumption.
  rewrite F, Hr. now rewrite append_assoc.
Qed.

Lemma captures_lib1 : captures_id lib_id_pattern1.
Proof. apply captures_Cat, captures_group. Qed.

Lemma captures_route1 : captures_id route_id_pattern1.
Proof. apply captures_Cat, captures_group. Qed.

Lemma captures_pattern2 : captures_id id_pattern2.
Proof. unfold id_pattern2. cbn [cats]. repeat apply captures_Cat. apply captures_group. Qed.

Lemma exec_captures (r : re) (url : string) (m : result) :
  captures_id r -> exec r url = Some m ->
  exists g, group 1 m = Some g /\ g <> "" /\ all_chars id_char g = true /\
            includes url g = true.
Proof.
  intros Hr H. unfold exec in H. apply search_at in H.
  destruct H as (pre0 & s' & p' & idx' & -> & H). unfold at_pos in H.
  destruct (run r (St p' s' []) Some) as [x|] eqn:R; [| discriminate].
  injection H as <-. apply Hr in R. cbn [rest] in R.
  destruct R as (g & pre & post & Hl & Hn & Hp & ->).
  exists g. unfold group. cbn [groups]. repeat split; try assumption.
  rewrite <- append_assoc. apply includes_app.
Qed.

(** X1. An id that [extractYouTubeVideoId] returns, in the library or in
    the route, is not empty, is a part of the URL, and holds none of the
    code units [&], [?], [#] and line feed. *)
Theorem video_id_shape (url id : string) :
  Lib.extractYouTubeVideoId url = Some id \/
  Route.extractYouTubeVideoId url = Some id ->
  id <> "" /\ includes url id = true /\ all_chars id_char id = true.
Proof.
  assert (G : forall r m, captures_id r -> exec r url = Some m ->
                group 1 m = Some id ->
                id <> "" /\ includes url id = true /\ all_chars id_char id = true).
  { intros r m Hr He Hg. destruct (exec_captures r url m Hr He) as (g & Hg' & H).
    rewrite Hg in Hg'. injection Hg' as <-. tauto. }
  intros [H|H].
  - unfold Lib.extractYouTubeVideoId, Lib.first_group in H.
    destruct (exec lib_id_pattern1 url) as [m|] eqn:E1.
    { exact (G _ _ captures_lib1 E1 H). }
    destruct (exec id_pattern2 url) as [m|] eqn:E2; [| discriminate].
    exact (G _ _ captures_pattern2 E2 H).
  - unfold Route.extractYouTubeVideoId, Route.first_captured, captured in H.
    destruct (exec route_id_pattern1 url) as [m|] eqn:E1.
    { destruct (group 1 m) as [g|] eqn:Hg.
      - destruct (exec_captures _ url m captures_route1 E1) as (g' & Hg' & Hn & Hp & Hi).
        rewrite Hg in Hg'. injection Hg' as <-.
        destruct g as [|c g]; [congruence|]. cbn [truthy] in H. injection H as <-.
        tauto.
      - destruct (exec_captures _ url m captures_route1 E1) as (g' & Hg' & _).
        congruence. }
    destruct (exec id_pattern2 url) as [m|] eqn:E2; [| discriminate].
    destruct (exec_captures _ url m captures_pattern2 E2) as (g & Hg & Hn & Hp & Hi).
    rewrite Hg in H. destruct g as [|c g]; [congruence|]. cbn [truthy] in H.
    injection H as <-. tauto.
Qed.

Lemma video_id_shape_witness :
  "dQw4w9WgXcQ" <> "" /\
  includes "https://www.youtube.com/watch?v=dQw4w9WgXcQ&t=30s" "dQw4w9WgXcQ" = true /\
  all_chars id_char "dQw4w9WgXcQ" = true.
Proof.
  apply (video_id_shape "https://www.youtube.com/watch?v=dQw4w9WgXcQ&t=30s").
  left. reflexivity.
Defined.

End VideoId.

(* ===================================================================== *)
(** * White space after cleaning *)
(* ===================================================================== *)

Module Whitespace.
Import Route.

Lemma trimStart_length (s : string) : length (trimStart s) <= length s.
Proof.
  induction s as [|c s IH]; simpl; [lia|]. destruct (is_space c); simpl; lia.
Qed.

Lemma trimStart_no_space (s : string) : starts_space (trimStart s) = false.
Proof.
  induction s as [|c s IH]; simpl; [reflexivity|].
  destruct (is_space c) eqn:E; [exact IH | simpl; exact E].
Qed.

Lemma trimStart_id (s : string) : starts_space s = false -> trimStart s = s.
Proof. destruct s as [|c s]; simpl; [reflexivity|]. now intros ->. Qed.

(** The greedy loop over white space, when nothing has to follow, stops
    at the first solid code unit. *)
Lemma star_space :
  forall n s,
    length (rest s) < n ->
    exists q, star true (run space) Some n s
              = Some (St q (trimStart (rest s)) (caps s)).
Proof.
  induction n as [|n IH]; intros s Hn; [lia|]. cbn [star].
  destruct s as [p r c]. unfold space at 1. cbn [run rest caps prev] in *.
  destruct r as [|d t]; [now exists p|].
  destruct (is_space d) eqn:E.
  - replace (length t <? length (String d t)) with true
      by (symmetry; apply Nat.ltb_lt; simpl; lia).
    destruct (IH (St (Some d) t c)) as [q Hq]; [simpl in *; lia|].
    cbn [rest caps] in Hq. exists q. rewrite Hq. simpl trimStart. now rewrite E.
  - exists p. simpl trimStart. now rewrite E.
Qed.

(** What [\s+] finds at the start of a string. *)
Lemma spaces_at (p : option ascii) (idx : nat) (s : string) :
  match at_pos spaces p idx s with
  | Some m => starts_space s = true /\ after m = trimStart s
  | None => starts_space s = false
  end.
Proof.
  unfold at_pos, spaces, many1. cbn [run rest caps].
  destruct s as [|d t]; [reflexivity|]. unfold space at 1. cbn [run rest caps].
  cbn [starts_space]. destruct (is_space d) eqn:E; [| reflexivity].
  destruct (star_space (S (length t)) (St (Some d) t [])) as [q Hq]; [simpl; lia|].
  cbn [rest caps] in Hq. rewrite Hq. cbn [after rest]. split; [reflexivity|].
  simpl. now rewrite E.
Qed.

Lemma collapse_spaces :
  forall fuel p s,
    length s < fuel ->
    collapsed (replace_from fuel spaces " " p s) = true /\
    starts_space (replace_from fuel spaces " " p s) = starts_space s.
Proof.
  induction fuel as [|fuel IH]; intros p s Hf; [lia|]. cbn [replace_from].
  pose proof (spaces_at p 0 s) as A.
  destruct (at_pos spaces p 0 s) as [m|].
  - destruct A as [A1 A2]. rewrite A2.
    destruct s as [|d t]; [discriminate|]. cbn [starts_space] in A1.
    assert (L : length (trimStart (String d t)) < length (String d t)).
    { simpl. rewrite A1. pose proof (trimStart_length t). simpl. lia. }
    replace (length (trimStart (String d t)) <? length (String d t)) with true
      by (symmetry; now apply Nat.ltb_lt).
    destruct (IH (last m) (trimStart (String d t))) as [C S]; [simpl in *; lia|].
    rewrite trimStart_no_space in S.
    change (" " ++ ?x) with (String " " x). cbn [collapsed starts_space].
    rewrite S, C, A1. split; reflexivity.
  - destruct s as [|d t]; [now split|]. cbn [starts_space] in A.
    destruct (IH (Some d) t) as [C S]; [simpl in *; lia|].
    cbn [collapsed starts_space]. rewrite A, C. now split.
Qed.

Lemma replace_spaces_collapsed (s : string) :
  collapsed (replace_all spaces " " s) = true /\
  starts_space (replace_all spaces " " s) = starts_space s.
Proof. unfold replace_all. apply collapse_spaces. lia. Qed.

Lemma collapsed_tail (c : ascii) (t : string) :
  collapsed (String c t) = true -> collapsed t = true.
Proof. cbn [collapsed]. intros H. now apply andb_true_iff in H. Qed.

Lemma collapsed_trimStart (s : string) :
  collapsed s = true -> collapsed (trimStart s) = true.
Proof.
  induction s as [|c s IH]; [reflexivity|]. intros H. simpl trimStart.
  destruct (is_space c); [apply IH; exact (collapsed_tail _ _ H) | exact H].
Qed.

Lemma trimEnd_head (t : string) (d : ascii) (u : string) :
  trimEnd t = String d u -> exists t', t = String d t'.
Proof.
  destruct t as [|c t]; simpl; [discriminate|].
  destruct (trimEnd t); [destruct (is_space c) |]; intros [= <- <-]; eauto.
Qed.

Lemma collapsed_trimEnd (s : string) :
  collapsed s = true -> collapsed (trimEnd s) = true.
Proof.
  induction s as [|c s IH]; [reflexivity|]. intros H.
  pose proof (collapsed_tail _ _ H) as Ht. specialize (IH Ht).
  simpl trimEnd. destruct (trimEnd s) as [|d u] eqn:E.
  - destruct (is_space c) eqn:Ec; [reflexivity|]. cbn [collapsed]. now rewrite Ec.
  - destruct (trimEnd_head _ _ _ E) as [t' ->].
    cbn [collapsed] in H. cbn [collapsed starts_space] in *.
    apply andb_true_iff in H. destruct H as [H _]. rewrite H.
    cbn [collapsed] in IH. exact IH.
Qed.

(** A string with solid ends is its own trim. *)
Lemma trim_solid (s : string) :
  starts_space s = false -> last_solid s = true -> trim s = s.
Proof.
  intros H1 H2. unfold trim. rewrite (trimStart_id _ H1). now apply trimEnd_last_solid.
Qed.

Lemma tidy_trim (s : string) : collapsed s = true -> tidy (trim s).
Proof.
  intros H. split; [| apply trim_idem].
  unfold trim. now apply collapsed_trimEnd, collapsed_trimStart.
Qed.

Lemma last_solid_cons (c : ascii) (t : string) :
  t <> "" -> last_solid (String c t) = last_solid t.
Proof. destruct t; [congruence | reflexivity]. Qed.

Lemma last_solid_trimStart (s : string) :
  last_solid s = true -> last_solid (trimStart s) = true.
Proof.
  induction s as [|c s IH]; [discriminate|]. intros H. simpl trimStart.
  destruct (is_space c) eqn:E; [| exact H].
  destruct s as [|d s]; [simpl in H; rewrite E in H; discriminate|].
  apply IH. exact H.
Qed.

(** Replacing the runs of white space keeps a solid last code unit. *)
Lemma replace_spaces_last :
  forall fuel p s,
    length s < fuel -> last_solid s = true ->
    last_solid (replace_from fuel spaces " " p s) = true.
Proof.
  induction fuel as [|fuel IH]; intros p s Hf Hs; [lia|]. cbn [replace_from].
  pose proof (spaces_at p 0 s) as A.
  destruct (at_pos spaces p 0 s) as [m|].
  - destruct A as [A1 A2]. rewrite A2.
    destruct s as [|d t]; [discriminate|]. cbn [starts_space] in A1.
    assert (L : length (trimStart (String d t)) < length (String d t)).
    { simpl. rewrite A1. pose proof (trimStart_length t). simpl. lia. }
    replace (length (trimStart (String d t)) <? length (String d t)) with true
      by (symmetry; now apply Nat.ltb_lt).
    pose proof (last_solid_trimStart _ Hs) as Hs'.
    assert (R : last_solid (replace_from fuel spaces " " (last m)
                              (trimStart (String d t))) = true)
      by (apply IH; [simpl in *; lia | exact Hs']).
    change (" " ++ ?x) with (String " " x).
    rewrite last_solid_cons; [exact R|].
    intros E. rewrite E in R. discriminate.
  - destruct s as [|d t]; [discriminate|].
    destruct t as [|e t].
    + destruct fuel; [simpl in Hf; lia|]. exact Hs.
    + assert (R : last_solid (replace_from fuel spaces " " (Some d) (String e t)) = true)
        by (apply IH; [simpl in *; lia | exact Hs]).
      rewrite last_solid_cons; [exact R|].
      intros E. rewrite E in R. discriminate.
Qed.

Lemma trimEnd_solid_or_empty (s : string) :
  trimEnd s = "" \/ last_solid (trimEnd s) = true.
Proof.
  induction s as [|c s IH]; [now left|]. simpl.
  destruct (trimEnd s) as [|d u] eqn:E.
  - destruct (is_space c) eqn:Ec; [now left|]. right. simpl. now rewrite Ec.
  - right. destruct IH as [IH|IH]; [discriminate|]. exact IH.
Qed.

(** Collapsing the white space of a trimmed string gives a tidy one. *)
Lemma tidy_replace_trim (s : string) : tidy (replace_all spaces " " (trim s)).
Proof.
  destruct (replace_spaces_collapsed (trim s)) as [C S]. split; [exact C|].
  assert (N : starts_space (trim s) = false).
  { unfold trim. destruct (trimStart_blank_or_solid s) as [E|E].
    - now rewrite E.
    - apply trimEnd_first_solid in E. destruct (trimEnd (trimStart s)); [reflexivity|].
      simpl in *. now apply negb_true_iff in E. }
  destruct (trimEnd_solid_or_empty (trimStart s)) as [E|E]; fold (trim s) in E.
  - rewrite E. reflexivity.
  - apply trim_solid; [now rewrite S|].
    unfold replace_all. apply replace_spaces_last; [lia | exact E].
Qed.

Lemma tidy_empty : tidy "".
Proof. now split. Qed.

Lemma tidy_cleanTranscript (segments : list string) : tidy (cleanTranscript segments).
Proof. unfold cleanTranscript. apply tidy_trim, replace_spaces_collapsed. Qed.

Lemma tidy_titleLoop (html : string) :
  forall patterns title, tidy title -> tidy (articleTitleLoop patterns html title).
Proof.
  induction patterns as [|pattern more IH]; intros title Ht; [exact Ht|].
  cbn [articleTitleLoop]. destruct (captured pattern html) as [m1|]; [| now apply IH].
  pose proof (tidy_replace_trim m1) as T.
  destruct (5 <? length _); [exact T | now apply IH].
Qed.

Lemma tidy_method1 (E : Env) (videoId : string) : tidy (method1 E videoId).
Proof.
  unfold method1.
  destruct (transcript_module E); [| apply tidy_empty].
  generalize [Some "en"; Some "ar"; None].
  induction l as [|options more IH]; [apply tidy_empty|].
  cbn [transcriptAttempts].
  destruct (fetchTranscript E videoId options) as [[|seg segs]|];
    [exact IH | apply tidy_cleanTranscript | exact IH].
Qed.

Lemma tidy_cleanBlock (m1 : string) : tidy (cleanBlock m1).
Proof. unfold cleanBlock. apply tidy_trim, replace_spaces_collapsed. Qed.

(** X2. The transcript text, the article title, and every article body
    taken from a block pattern have their white space normalised: none at
    either end, and every run of white space reduced to one blank. *)
Theorem cleaned_text_is_tidy :
  (forall (E : Env) (videoId : string), tidy (method1 E videoId)) /\
  (forall html : string, tidy (articleTitleLoop articleTitlePatterns html "")) /\
  (forall m1 : string, tidy (cleanBlock m1)).
Proof.
  split; [| split].
  - apply tidy_method1.
  - intros html. apply tidy_titleLoop, tidy_empty.
  - apply tidy_cleanBlock.
Qed.

End Whitespace.

(* ===================================================================== *)
(** * What the library spends *)
(* ===================================================================== *)

Module Spending.
Import Lib Scenario.

Lemma posts_app (a b : list Event) : posts (a ++ b) = posts a + posts b.
Proof.
  induction a as [|[n|ms] a IH]; simpl; [reflexivity | now rewrite IH | exact IH].
Qed.

Lemma waited_app (a b : list Event) : (waited (a ++ b) = waited a + waited b)%Z.
Proof.
  induction a as [|[n|ms] a IH]; simpl; [reflexivity | exact IH | rewrite IH; lia].
Qed.

Lemma costs_ret {A : Type} (a : A) : costs 0 0 (ret a).
Proof.
  intros s. exists []. simpl. rewrite Nat.add_0_r, app_nil_r.
  destruct s. repeat split; lia.
Qed.

Lemma costs_weaken {A : Type} (n n' : nat) (ms ms' : Z) (m : M A) :
  costs n ms m -> n <= n' -> (ms <= ms')%Z -> costs n' ms' m.
Proof.
  intros H Hn Hm s. destruct (H s) as (t & E & P & W). exists t. repeat split; lia || exact E.
Qed.

Lemma costs_bind {A B : Type} (n1 n2 : nat) (ms1 ms2 : Z) (m : M A) (k : A -> M B) :
  costs n1 ms1 m -> (forall a, costs n2 ms2 (k a)) ->
  costs (n1 + n2) (ms1 + ms2) (bind m k).
Proof.
  intros Hm Hk s. unfold bind. destruct (Hm s) as (t1 & E1 & P1 & W1).
  destruct (m s) as [a s1]. cbn [snd] in E1. subst s1.
  destruct (Hk a (MkState (sent s + posts t1) (trace s ++ t1))) as (t2 & E2 & P2 & W2).
  cbn [sent trace] in E2. exists (t1 ++ t2)%list.
  rewrite E2, posts_app, waited_app, app_assoc, Nat.add_assoc.
  repeat split; lia.
Qed.

Lemma costs_wait (ms : Z) : (0 <= ms)%Z -> costs 0 ms (wait ms).
Proof.
  intros H s. exists [Waited ms]. simpl. rewrite Nat.add_0_r. repeat split; lia.
Qed.

Lemma costs_scrapeContent (C : Client) (url type : string) :
  costs 3 3000 (scrapeContent C url type).
Proof.
  intros s. pose proof (scrapeContent_run C url type s) as R. cbv beta zeta in R.
  destruct (attemptOutcome (api C (sent s + 0) url type)) as [e1|d1].
  2:{ rewrite R. exists (firstn 1 steps). simpl. repeat split; lia. }
  destruct (attemptOutcome (api C (sent s + 1) url type)) as [e2|d2].
  2:{ rewrite R. exists (firstn 3 steps). simpl. repeat split; lia. }
  destruct (attemptOutcome (api C (sent s + 2) url type)) as [e3|d3];
    rewrite R; exists steps; simpl; repeat split; lia.
Qed.

Lemma costs_pollFrom (C : Client) (transcriptId : option string) :
  forall remaining attempts,
    costs 0 (10000 * Z.of_nat remaining) (pollFrom C transcriptId remaining attempts).
Proof.
  induction remaining as [|remaining IH]; intros attempts.
  - apply costs_ret.
  - cbn [pollFrom].
    replace (10000 * Z.of_nat (S remaining))%Z
      with (10000 + 10000 * Z.of_nat remaining)%Z by lia.
    apply (costs_bind 0 0); [apply costs_wait; lia|]. intros _.
    assert (Z0 : (0 <= 10000 * Z.of_nat remaining)%Z) by lia.
    destruct (assembly_poll C transcriptId attempts) as [e|statusData].
    { eapply costs_weaken; [apply costs_ret | lia | exact Z0]. }
    destruct (equals (status statusData) "error").
    { eapply costs_weaken; [apply costs_ret | lia | exact Z0]. }
    destruct (equals (status statusData) "completed").
    { eapply costs_weaken; [apply costs_ret | lia | exact Z0]. }
    apply IH.
Qed.

Lemma costs_assemblyTry (C : Client) (key videoId : string) :
  costs 0 300000 (assemblyTry C key videoId).
Proof.
  unfold assemblyTry.
  destruct (assembly_submit C key videoId) as [e|st statusText body].
  { eapply costs_weaken; [apply costs_ret | lia | lia]. }
  destruct (negb (ok st)).
  { eapply costs_weaken; [apply costs_ret | lia | lia]. }
  destruct body as [e|transcriptData].
  { eapply costs_weaken; [apply costs_ret | lia | lia]. }
  destruct (equals (submitted_status transcriptData) "completed").
  { eapply costs_weaken; [apply costs_ret | lia | lia]. }
  apply (costs_pollFrom C (id transcriptData) maxAttempts 0).
Qed.

Lemma costs_scrapeWithAssemblyAI (C : Client) (url : string) :
  costs 3 303000 (scrapeWithAssemblyAI C url).
Proof.
  unfold scrapeWithAssemblyAI.
  destruct (extractYouTubeVideoId url) as [videoId|].
  2:{ eapply costs_weaken; [apply costs_ret | lia | lia]. }
  destruct (negb (truthy videoId)).
  { eapply costs_weaken; [apply costs_ret | lia | lia]. }
  destruct (negb (truthy_opt (ASSEMBLYAI_API_KEY C))).
  { eapply costs_weaken; [apply costs_scrapeContent | lia | lia]. }
  apply (costs_bind 0 3 300000 3000); [apply costs_assemblyTry|].
  intros [e|r].
  - apply costs_scrapeContent.
  - eapply costs_weaken; [apply costs_ret | lia | lia].
Qed.

Lemma costs_scrapeWithCustomAPI (C : Client) (url : string) :
  costs 3 3000 (scrapeWithCustomAPI C url).
Proof.
  unfold scrapeWithCustomAPI.
  destruct (_ || _); [apply costs_scrapeContent|].
  destruct (customTry C _ _ url).
  - apply costs_scrapeContent.
  - eapply costs_weaken; [apply costs_ret | lia | lia].
Qed.

(** X3. What one call of an entry point of the library spends at most:
    [scrapeWithAssemblyAI] 3 requests to [/api/scrape] and 303 s of
    waiting (30 polls 10 s apart, and the two back-off waits of the
    fall-back); [scrapeWithCustomAPI] 3 requests and 3 s;
    [scrapeContentEnhanced] 9 requests, three for each of the three times
    it may fall back on [scrapeContent], and 309 s. *)
Theorem library_spends_at_most (C : Client) (url type : string) :
  costs 3 303000 (scrapeWithAssemblyAI C url) /\
  costs 3 3000 (scrapeWithCustomAPI C url) /\
  costs 9 309000 (scrapeContentEnhanced C url type).
Proof.
  split; [apply costs_scrapeWithAssemblyAI|].
  split; [apply costs_scrapeWithCustomAPI|].
  unfold scrapeContentEnhanced.
  apply (costs_bind 3 6 303000 6000).
  { destruct (_ && _).
    - apply (costs_bind 3 0 303000 0); [apply costs_scrapeWithAssemblyAI|].
      intros r. apply costs_ret.
    - eapply costs_weaken; [apply costs_ret | lia | lia]. }
  intros [assemblyResult|].
  { eapply costs_weaken; [apply costs_ret | lia | lia]. }
  apply (costs_bind 3 3 3000 3000).
  { destruct (_ && _).
    - apply (costs_bind 3 0 3000 0); [apply costs_scrapeWithCustomAPI|].
      intros r. apply costs_ret.
    - eapply costs_weaken; [apply costs_ret | lia | lia]. }
  intros [customResult|].
  - eapply costs_weaken; [apply costs_ret | lia | lia].
  - apply costs_scrapeContent.
Qed.

End Spending.

(* ===================================================================== *)
(** * Edges of the library *)
(* ===================================================================== *)

Module LibEdges.
Import Lib Scenario Cases.

Lemma truthy_nonempty (s : string) : s <> "" -> truthy s = true.
Proof. destruct s; [congruence | reflexivity]. Qed.

Lemma or_else_some (s d : string) : s <> "" -> or_else (Some s) d = s.
Proof. destruct s; [congruence | reflexivity]. Qed.

(** X4. A request that reaches the route with a URL that is not empty is
    answered with status 200 whatever the extraction gave, so
    [scrapeContent] takes the answer as it is: one request, no wait, and
    the result of the strategy, also when that result is a failure. *)
Theorem extraction_failure_not_retried (D : Deployment) (C : Client)
    (url type : string) (s : State) :
  lost D (sent s) = None -> url <> "" ->
  scrapeContent (served D C) url type s =
  (Route.dispatch (server D (sent s))
     (if truthy type then type else getContentTypeFromUrl url) url,
   MkState (sent s + 1) (trace s ++ [Posted 1])).
Proof.
  intros HL Hu. pose proof (scrapeContent_run (served D C) url type s) as R.
  cbv beta zeta in R. cbn [api served] in R.
  replace (sent s + 0) with (sent s) in R by lia.
  unfold routeApi in R. rewrite HL in R. unfold Route.POST in R.
  cbn [truthy_opt] in R. rewrite (truthy_nonempty url Hu) in R.
  cbn [negb] in R. rewrite (or_else_some url "" Hu) in R.
  destruct type as [|c type]; exact R.
Qed.

Lemma extraction_failure_not_retried_witness :
  scrapeContent (served localhost plainClient) "https://example.com/a" "article" start =
  (Route.dispatch offline "article" "https://example.com/a",
   MkState 1 [Posted 1]).
Proof.
  apply (extraction_failure_not_retried localhost plainClient
           "https://example.com/a" "article" start);
    [reflexivity | discriminate].
Defined.

(** ** The transcription service *)

Lemma pollFrom_pending (C : Client) (transcriptId : option string) :
  forall k remaining attempts s,
    k <= remaining ->
    (forall n, attempts <= n < attempts + k -> pending C transcriptId n) ->
    pollFrom C transcriptId remaining attempts s =
    pollFrom C transcriptId (remaining - k) (attempts + k)
      (MkState (sent s) (trace s ++ List.repeat (Waited 10000) k)).
Proof.
  induction k as [|k IH]; intros remaining attempts s Hk Hp.
  - rewrite Nat.sub_0_r, Nat.add_0_r. cbn [List.repeat]. rewrite app_nil_r.
    now destruct s.
  - destruct remaining as [|remaining]; [lia|].
    cbn [pollFrom]. unfold bind at 1. unfold wait. cbv beta iota.
    destruct (Hp attempts ltac:(lia)) as (p & -> & -> & ->).
    rewrite IH; [| lia | intros n Hn; apply Hp; lia].
    cbn [sent trace Nat.sub List.repeat].
    replace (S attempts + k) with (attempts + S k) by lia.
    now rewrite <- app_assoc.
Qed.

Lemma scrapeWithAssemblyAI_accepted (C : Client) (url : string) (d : Submitted) :
  accepted C url d ->
  equals (submitted_status d) "completed" = false ->
  forall s,
    scrapeWithAssemblyAI C url s =
    (let '(r, s') := pollFrom C (id d) maxAttempts 0 s in
     match r with
     | inr result => (result, s')
     | inl _ => scrapeContent C url "youtube" s'
     end).
Proof.
  intros (videoId & key & st & statusText & Hv & Hk & Hn & Hs & Ho) Hc s.
  unfold scrapeWithAssemblyAI. rewrite Hv.
  assert (Tv : truthy videoId = true).
  { unfold extractYouTubeVideoId, first_group in Hv.
    destruct (exec lib_id_pattern1 url) as [m|] eqn:E1.
    - destruct (VideoId.exec_captures _ url m VideoId.captures_lib1 E1)
        as (g & Hg & Hne & _).
      rewrite Hv in Hg. injection Hg as <-. now apply truthy_nonempty.
    - destruct (exec id_pattern2 url) as [m|] eqn:E2; [| discriminate].
      destruct (VideoId.exec_captures _ url m VideoId.captures_pattern2 E2)
        as (g & Hg & Hne & _).
      rewrite Hv in Hg. injection Hg as <-. now apply truthy_nonempty. }
  rewrite Tv, Hk. cbn [negb truthy_opt]. rewrite (truthy_nonempty key Hn).
  cbn [negb]. rewrite (or_else_some key "" Hn).
  unfold bind, assemblyTry. rewrite Hs, Ho. cbn [negb]. rewrite Hc.
  destruct (pollFrom C (id d) maxAttempts 0 s) as [[e|r] s']; reflexivity.
Qed.

(** X5. When the submission is accepted, polls [0 .. n-1] say neither
    [error] nor [completed] and poll [n < 30] says [completed],
    [scrapeWithAssemblyAI] returns the transcript of that poll after
    [n + 1] waits of 10 s, and sends nothing to [/api/scrape]. *)
Theorem transcript_after_polls (C : Client) (url : string) (d : Submitted)
    (n : nat) (p : Polled) (s : State) :
  accepted C url d ->
  equals (submitted_status d) "completed" = false ->
  n < 30 ->
  (forall i, i < n -> pending C (id d) i) ->
  assembly_poll C (id d) n = inr p ->
  equals (status p) "error" = false ->
  equals (status p) "completed" = true ->
  scrapeWithAssemblyAI C url s =
  (transcriptResult p,
   MkState (sent s) (trace s ++ List.repeat (Waited 10000) (S n))).
Proof.
  intros Ha Hc Hn Hp Hq He Hd.
  rewrite (scrapeWithAssemblyAI_accepted C url d Ha Hc).
  rewrite (pollFrom_pending C (id d) n maxAttempts 0 s);
    [| unfold maxAttempts; lia | intros i Hi; apply Hp; lia].
  unfold maxAttempts. destruct (30 - n) as [|remaining] eqn:E; [lia|].
  cbn [pollFrom Nat.add]. unfold bind at 1. unfold wait. cbv beta iota.
  rewrite Hq, He, Hd. unfold ret. cbn [sent trace].
  rewrite <- app_assoc.
  replace (List.repeat (Waited 10000) n ++ [Waited 10000])%list
    with (List.repeat (Waited 10000) (S n)); [reflexivity|].
  clear. induction n as [|n IH]; [reflexivity|].
  cbn [List.repeat app]. now rewrite <- IH.
Qed.

Lemma transcript_after_polls_witness :
  scrapeWithAssemblyAI assemblyClient watchUrl start =
  (transcriptResult silentTranscript, MkState 0 [Waited 10000]).
Proof.
  apply (transcript_after_polls assemblyClient watchUrl
           (MkSubmitted (Some "queued") (Some "t1")) 0 silentTranscript start).
  - exists "dQw4w9WgXcQ", "key", 200, "OK".
    repeat split; try (vm_compute; reflexivity); discriminate.
  - reflexivity.
  - lia.
  - intros i Hi. lia.
  - reflexivity.
  - reflexivity.
  - reflexivity.
Defined.

(** X6. A transcription that is still not [completed] at the thirtieth
    poll costs 300 s of waiting, and then the video is scraped by
    [scrapeContent] as if there were no transcription service. *)
Theorem stalled_transcription_falls_back (C : Client) (url : string)
    (d : Submitted) (s : State) :
  accepted C url d ->
  equals (submitted_status d) "completed" = false ->
  (forall i, i < 30 -> pending C (id d) i) ->
  scrapeWithAssemblyAI C url s =
  scrapeContent C url "youtube"
    (MkState (sent s) (trace s ++ List.repeat (Waited 10000) 30)).
Proof.
  intros Ha Hc Hp.
  rewrite (scrapeWithAssemblyAI_accepted C url d Ha Hc).
  rewrite (pollFrom_pending C (id d) 30 maxAttempts 0 s);
    [| unfold maxAttempts; lia | intros i Hi; apply Hp; lia].
  reflexivity.
Qed.

Lemma stalled_transcription_falls_back_witness :
  scrapeWithAssemblyAI stalledClient watchUrl start =
  scrapeContent stalledClient watchUrl "youtube"
    (MkState 0 (List.repeat (Waited 10000) 30)).
Proof.
  apply (stalled_transcription_falls_back stalledClient watchUrl
           (MkSubmitted (Some "queued") (Some "t1")) start).
  - exists "dQw4w9WgXcQ", "key", 200, "OK".
    repeat split; try (vm_compute; reflexivity); discriminate.
  - reflexivity.
  - intros i Hi. eexists. repeat split; reflexivity.
Defined.

(** X7. A submission that the service answers as already [completed] is
    never polled: its transcript is not fetched, and the video is scraped
    by [scrapeContent] at once. *)
Theorem completed_submission_is_dropped (C : Client) (url : string)
    (d : Submitted) :
  accepted C url d ->
  equals (submitted_status d) "completed" = true ->
  scrapeWithAssemblyAI C url = scrapeContent C url "youtube".
Proof.
  intros (videoId & key & st & statusText & Hv & Hk & Hn & Hs & Ho) Hc.
  unfold scrapeWithAssemblyAI. rewrite Hv.
  destruct (negb (truthy videoId)) eqn:Tv.
  { exfalso. unfold extractYouTubeVideoId, first_group in Hv.
    destruct (exec lib_id_pattern1 url) as [m|] eqn:E1.
    - destruct (VideoId.exec_captures _ url m VideoId.captures_lib1 E1)
        as (g & Hg & Hne & _).
      rewrite Hv in Hg. injection Hg as <-.
      rewrite (truthy_nonempty videoId Hne) in Tv. discriminate.
    - destruct (exec id_pattern2 url) as [m|] eqn:E2; [| discriminate].
      destruct (VideoId.exec_captures _ url m VideoId.captures_pattern2 E2)
        as (g & Hg & Hne & _).
      rewrite Hv in Hg. injection Hg as <-.
      rewrite (truthy_nonempty videoId Hne) in Tv. discriminate. }
  rewrite Hk. cbn [truthy_opt]. rewrite (truthy_nonempty key Hn).
  cbn [negb]. rewrite (or_else_some key "" Hn).
  unfold assemblyTry. rewrite Hs, Ho. cbn [negb]. rewrite Hc.
  reflexivity.
Qed.

Lemma completed_submission_is_dropped_witness :
  scrapeWithAssemblyAI readyClient watchUrl = scrapeContent readyClient watchUrl "youtube".
Proof.
  apply (completed_submission_is_dropped readyClient watchUrl
           (MkSubmitted (Some "completed") (Some "t1"))).
  - exists "dQw4w9WgXcQ", "key", 200, "OK".
    repeat split; try (vm_compute; reflexivity); discriminate.
  - reflexivity.
Defined.

(** ** The enhanced entry point *)

(** X8. Without the credentials that apply, [scrapeContentEnhanced] is
    [scrapeContent]: when the type is not [youtube] or there is no
    AssemblyAI key, and the custom scraper lacks its key or its address. *)
Theorem enhanced_without_credentials (C : Client) (url type : string) :
  type <> "youtube" \/ truthy_opt (ASSEMBLYAI_API_KEY C) = false ->
  truthy_opt (CUSTOM_SCRAPER_API_KEY C) = false \/
  truthy_opt (CUSTOM_SCRAPER_API_URL C) = false ->
  scrapeContentEnhanced C url type = scrapeContent C url type.
Proof.
  intros H1 H2. unfold scrapeContentEnhanced.
  assert (E1 : (type =? "youtube")%string && truthy_opt (ASSEMBLYAI_API_KEY C) = false).
  { destruct H1 as [H|H].
    - apply String.eqb_neq in H. now rewrite H.
    - rewrite H. apply andb_false_r. }
  assert (E2 : truthy_opt (CUSTOM_SCRAPER_API_KEY C) &&
               truthy_opt (CUSTOM_SCRAPER_API_URL C) = false).
  { destruct H2 as [H|H]; rewrite H; [reflexivity | apply andb_false_r]. }
  rewrite E1, E2. reflexivity.
Qed.

Lemma enhanced_without_credentials_witness :
  scrapeContentEnhanced plainClient watchUrl "youtube" =
  scrapeContent plainClient watchUrl "youtube".
Proof.
  apply (enhanced_without_credentials plainClient watchUrl "youtube");
    right; reflexivity.
Defined.

(** X9. [scrapeContentEnhanced] reports a failure only as the answer of
    its last resort: a result without [success] is the result of a run of
    [scrapeContent] on the same URL and type, never one of the
    transcription service or the custom scraper. *)
Theorem enhanced_failure_is_plain (C : Client) (url type : string) (s : State) :
  success (fst (scrapeContentEnhanced C url type s)) = false ->
  exists s', scrapeContentEnhanced C url type s = scrapeContent C url type s'.
Proof.
  unfold scrapeContentEnhanced, bind, ret.
  destruct ((type =? "youtube")%string && truthy_opt (ASSEMBLYAI_API_KEY C)).
  - destruct (scrapeWithAssemblyAI C url s) as [r1 s1].
    destruct (success r1) eqn:S1; [cbn [fst]; congruence|].
    destruct (truthy_opt (CUSTOM_SCRAPER_API_KEY C) &&
              truthy_opt (CUSTOM_SCRAPER_API_URL C)).
    + destruct (scrapeWithCustomAPI C url s1) as [r2 s2].
      destruct (success r2) eqn:S2; [cbn [fst]; congruence|].
      intros _. now exists s2.
    + intros _. now exists s1.
  - destruct (truthy_opt (CUSTOM_SCRAPER_API_KEY C) &&
              truthy_opt (CUSTOM_SCRAPER_API_URL C)).
    + destruct (scrapeWithCustomAPI C url s) as [r2 s2].
      destruct (success r2) eqn:S2; [cbn [fst]; congruence|].
      intros _. now exists s2.
    + intros _. now exists s.
Qed.

Lemma enhanced_failure_is_plain_witness :
  exists s', scrapeContentEnhanced plainClient "" "article" start =
             scrapeContent plainClient "" "article" s'.
Proof.
  apply (enhanced_failure_is_plain plainClient "" "article" start).
  vm_compute. reflexivity.
Defined.

End LibEdges.

(* ===================================================================== *)
(** * The result of the video chain *)
(* ===================================================================== *)

Module VideoResult.
Import Route Scenario.

Lemma trimEnd_split (t : string) : exists w, t = trimEnd t ++ w.
Proof.
  induction t as [|c t [w IH]]; [now exists ""|].
  cbn [trimEnd]. destruct (trimEnd t) as [|d u] eqn:E.
  - destruct (is_space c); [now eexists | exists w].
    cbn [append]. simpl in IH. now rewrite <- IH.
  - exists w. cbn [append]. now rewrite IH at 1.
Qed.

(** What [trimEnd] leaves of a text holds what it leaves of each part. *)
Lemma includes_trimEnd (pre t tail : string) :
  includes (trimEnd (pre ++ t ++ tail)) (trimEnd t) = true.
Proof.
  destruct (string_dec (trimEnd tail) "") as [E|E].
  - rewrite <- append_assoc, (trimEnd_empty_iff _ E).
    destruct (string_dec (trimEnd t) "") as [F|F].
    + rewrite F. apply includes_empty.
    + rewrite (trimEnd_nonempty _ F). apply includes_app_end.
  - rewrite <- append_assoc, (trimEnd_nonempty _ E).
    destruct (trimEnd_split t) as [w Hw]. rewrite Hw at 1.
    rewrite !append_assoc. apply includes_app.
Qed.

Lemma trimEnd_of_trimmed (t : string) : trim t = t -> trimEnd t = t.
Proof. intros H. rewrite <- H at 1. unfold trim. rewrite trimEnd_idem. exact H. Qed.

Lemma trimEnd_length (t : string) : length (trimEnd t) <= length t.
Proof.
  destruct (trimEnd_split t) as [w Hw]. rewrite Hw at 2.
  rewrite length_append. lia.
Qed.

Lemma trim_length (t : string) : length (trim t) <= length t.
Proof.
  unfold trim. etransitivity; [apply trimEnd_length | apply Whitespace.trimStart_length].
Qed.

(** ** The assembled text and its sources *)

Lemma assemble_sources (transcript : string) (f : Fields) :
  snd (assemble transcript f) =
  ((if longer_than 100 (Some transcript) then ["Video Transcript"] else []) ++
   (if longer_than 20 (videoDescription f) then ["Video Description"] else []))%list.
Proof.
  unfold assemble.
  destruct (longer_than 100 (Some transcript));
    destruct (longer_than 20 (videoDescription f)); reflexivity.
Qed.

Lemma assemble_text (transcript : string) (f : Fields) :
  fst (assemble transcript f) =
  (if longer_than 100 (Some transcript)
   then "TRANSCRIPT:" ++ nl ++ transcript ++ nl ++ nl else "") ++
  (if truthy_opt (videoTitle f)
   then "TITLE: " ++ or_else (videoTitle f) "" ++ nl ++ nl else "") ++
  (if longer_than 20 (videoDescription f)
   then "DESCRIPTION:" ++ nl ++ or_else (videoDescription f) "" ++ nl ++ nl else "") ++
  (if truthy_opt (channelName f)
   then "CHANNEL: " ++ or_else (channelName f) "" ++ nl ++ nl else "") ++
  (if truthy_opt (viewCount f)
   then "Views: " ++ or_else (viewCount f) "" ++ nl ++ nl else "").
Proof.
  unfold assemble.
  destruct (longer_than 100 (Some transcript));
    destruct (truthy_opt (videoTitle f));
    destruct (longer_than 20 (videoDescription f));
    destruct (truthy_opt (channelName f));
    destruct (truthy_opt (viewCount f));
    cbn [fst snd]; rewrite ?append_assoc, ?append_empty_r; cbn [append];
    rewrite ?append_assoc, ?append_empty_r; reflexivity.
Qed.

Lemma longer_than_length (n : nat) (s : string) :
  longer_than n (Some s) = (n <? length s).
Proof.
  unfold longer_than. destruct s as [|c s]; [| reflexivity].
  simpl. symmetry. apply Nat.ltb_ge. lia.
Qed.

(** The assembled text starts with a label, so [trim] only works at its
    end. *)
Lemma assemble_trim (transcript : string) (f : Fields) :
  trim (fst (assemble transcript f)) = trimEnd (fst (assemble transcript f)).
Proof.
  rewrite assemble_text. unfold trim. f_equal.
  destruct (longer_than 100 (Some transcript)); [reflexivity|].
  destruct (truthy_opt (videoTitle f)); [reflexivity|].
  destruct (longer_than 20 (videoDescription f)); [reflexivity|].
  destruct (truthy_opt (channelName f)); [reflexivity|].
  destruct (truthy_opt (viewCount f)); reflexivity.
Qed.

(** A successful run, taken apart. *)
Lemma youtube_success (E : Env) (url : string) :
  success (scrapeYouTubeContentEnhanced E url) = true ->
  exists videoId description,
    extractYouTubeVideoId url = Some videoId /\
    let transcript := method1 E videoId in
    let f := collect E url videoId in
    let final := withFallback videoId f (assemble transcript f) in
    videoDescription f = Some description /\
    scrapeYouTubeContentEnhanced E url =
    {| success := true;
       title := Some (or_else (videoTitle f) ("YouTube Video - " ++ videoId));
       content := Some (trim (fst final));
       metadata := Some (VideoMeta
         {| Video.videoId := videoId;
            Video.channel := channelName f;
            Video.viewCount := viewCount f;
            Video.publishDate := publishDate f;
            Video.type := "video";
            Video.platform := "YouTube";
            Video.url := url;
            Video.contentLength := length (fst final);
            Video.wordCount := List.length (split spaces (fst final));
            Video.sources := snd final;
            Video.hasTranscript := 100 <? length transcript;
            Video.hasDescription := 20 <? length description;
            Video.extractionMethod := join ", " (snd final) |});
       error := None |}.
Proof.
  unfold scrapeYouTubeContentEnhanced.
  destruct (extractYouTubeVideoId url) as [videoId|]; [| discriminate].
  cbv zeta.
  destruct (withFallback videoId (collect E url videoId)
              (assemble (method1 E videoId) (collect E url videoId)))
    as [finalContent contentSources] eqn:W.
  unfold conclude.
  destruct (negb (truthy finalContent) || (length (trim finalContent) <? 50)).
  { discriminate. }
  destruct (videoDescription (collect E url videoId)) as [description|] eqn:D.
  - intros _. exists videoId, description. rewrite W, D.
    split; [reflexivity|]. split; reflexivity.
  - intros H. exfalso. revert H. unfold youtubeCatch.
    repeat match goal with |- context [if ?b then _ else _] => destruct b end;
      discriminate.
Qed.

(** X10. In a successful result of the video chain the flags and the
    list of sources agree: [hasTranscript] holds exactly when the sources
    name the transcript, [hasDescription] exactly when they name the
    description, [extractionMethod] is the sources joined by commas, the
    metadata carry the id and the URL of the request, and [contentLength]
    is at least the length of the content. *)
Theorem video_metadata_consistent (E : Env) (url : string) :
  success (scrapeYouTubeContentEnhanced E url) = true ->
  exists videoId meta c,
    extractYouTubeVideoId url = Some videoId /\
    metadata (scrapeYouTubeContentEnhanced E url) = Some (VideoMeta meta) /\
    content (scrapeYouTubeContentEnhanced E url) = Some c /\
    Video.videoId meta = videoId /\ Video.url meta = url /\
    (Video.hasTranscript meta = true <-> In "Video Transcript" (Video.sources meta)) /\
    (Video.hasDescription meta = true <-> In "Video Description" (Video.sources meta)) /\
    Video.extractionMethod meta = join ", " (Video.sources meta) /\
    length c <= Video.contentLength meta.
Proof.
  intros H. destruct (youtube_success E url H) as (videoId & description & Hv & Hd & ->).
  cbv zeta in Hd.
  eexists videoId, _, _. split; [exact Hv|].
  split; [reflexivity|]. split; [reflexivity|]. cbn [Video.videoId Video.url
    Video.hasTranscript Video.hasDescription Video.sources Video.extractionMethod
    Video.contentLength].
  split; [reflexivity|]. split; [reflexivity|].
  assert (S : snd (withFallback videoId (collect E url videoId)
                    (assemble (method1 E videoId) (collect E url videoId))) =
              (snd (assemble (method1 E videoId) (collect E url videoId)) ++
               (if length (fst (assemble (method1 E videoId) (collect E url videoId))) <? 200
                then ["Enhanced Analysis"] else []))%list).
  { unfold withFallback. destruct (assemble _ _) as [fc cs]. cbn [fst snd].
    destruct (length fc <? 200); [reflexivity | now rewrite app_nil_r]. }
  rewrite S, assemble_sources, Hd, !longer_than_length.
  split; [| split; [| split; [reflexivity | apply trim_length]]].
  - destruct (100 <? length (method1 E videoId));
      destruct (20 <? length description);
      destruct (length _ <? 200); cbn [app In];
      (split; [intros K; first [discriminate K | auto 6]
              | intros K; try reflexivity; exfalso;
                repeat (destruct K as [K|K]; [discriminate K|]); exact K]).
  - destruct (100 <? length (method1 E videoId));
      destruct (20 <? length description);
      destruct (length _ <? 200); cbn [app In];
      (split; [intros K; first [discriminate K | auto 6]
              | intros K; try reflexivity; exfalso;
                repeat (destruct K as [K|K]; [discriminate K|]); exact K]).
Qed.

Lemma video_metadata_consistent_witness :
  exists videoId meta c,
    extractYouTubeVideoId Cases.watchUrl = Some videoId /\
    metadata (scrapeYouTubeContentEnhanced talk Cases.watchUrl) = Some (VideoMeta meta) /\
    content (scrapeYouTubeContentEnhanced talk Cases.watchUrl) = Some c /\
    Video.videoId meta = videoId /\ Video.url meta = Cases.watchUrl /\
    (Video.hasTranscript meta = true <-> In "Video Transcript" (Video.sources meta)) /\
    (Video.hasDescription meta = true <-> In "Video Description" (Video.sources meta)) /\
    Video.extractionMethod meta = join ", " (Video.sources meta) /\
    length c <= Video.contentLength meta.
Proof.
  apply (video_metadata_consistent talk Cases.watchUrl). vm_compute. reflexivity.
Defined.

Lemma withFallback_cases (videoId : string) (f : Fields) (assembled : string * list string) :
  (length (fst assembled) < 200 /\
   withFallback videoId f assembled =
   (analysisBlock videoId f, (snd assembled ++ ["Enhanced Analysis"])%list)) \/
  (200 <= length (fst assembled) /\ withFallback videoId f assembled = assembled).
Proof.
  unfold withFallback. destruct assembled as [fc cs]. cbn [fst snd].
  destruct (length fc <? 200) eqn:L.
  - left. apply Nat.ltb_lt in L. now split.
  - right. apply Nat.ltb_ge in L. now split.
Qed.

(** X11. The sources say what the content of a successful video result
    is made of.  With [Enhanced Analysis] among them the content is the
    VIDEO ANALYSIS block alone, and a transcript or description that was
    found is not in it; without, the content holds the whole transcript
    when the sources name it, and the description (up to white space at
    its end) when they name that. *)
Theorem video_content_follows_sources (E : Env) (url : string) :
  success (scrapeYouTubeContentEnhanced E url) = true ->
  exists videoId meta c,
    extractYouTubeVideoId url = Some videoId /\
    metadata (scrapeYouTubeContentEnhanced E url) = Some (VideoMeta meta) /\
    content (scrapeYouTubeContentEnhanced E url) = Some c /\
    (In "Enhanced Analysis" (Video.sources meta) ->
     c = analysisBlock videoId (collect E url videoId)) /\
    (~ In "Enhanced Analysis" (Video.sources meta) ->
     (In "Video Transcript" (Video.sources meta) ->
      includes c (method1 E videoId) = true) /\
     (In "Video Description" (Video.sources meta) ->
      exists d, videoDescription (collect E url videoId) = Some d /\
                includes c (trimEnd d) = true)).
Proof.
  intros H. destruct (youtube_success E url H) as (videoId & description & Hv & Hd & ->).
  cbv zeta in Hd.
  eexists videoId, _, _. split; [exact Hv|].
  split; [reflexivity|]. split; [reflexivity|]. cbn [Video.sources].
  set (transcript := method1 E videoId). set (f := collect E url videoId).
  fold f in Hd.
  destruct (withFallback_cases videoId f (assemble transcript f)) as [[L ->]|[L ->]];
    cbn [fst snd].
  - split.
    + intros _. apply analysisBlock_trim.
    + intros N. exfalso. apply N. apply in_or_app. right. now left.
  - rewrite assemble_sources, Hd, !longer_than_length.
    assert (NE : ~ In "Enhanced Analysis"
                   ((if 100 <? length transcript then ["Video Transcript"] else []) ++
                    (if 20 <? length description then ["Video Description"] else []))%list).
    { destruct (100 <? length transcript); destruct (20 <? length description);
        cbn [app In]; intros K;
        repeat (destruct K as [K|K]; [discriminate K|]); exact K. }
    split; [intros K; contradiction|]. intros _.
    rewrite assemble_trim, assemble_text, Hd, !longer_than_length.
    split.
    + intros K. destruct (100 <? length transcript).
      2:{ exfalso. destruct (20 <? length description); cbn [app In] in K;
          repeat (destruct K as [K|K]; [discriminate K|]); exact K. }
      assert (T : trimEnd transcript = transcript)
        by apply trimEnd_of_trimmed, (proj2 (Whitespace.tidy_method1 E videoId)).
      match goal with
      | |- includes (trimEnd (("TRANSCRIPT:" ++ nl ++ transcript ++ ?t) ++ ?u)) _ = true =>
          pose proof (includes_trimEnd ("TRANSCRIPT:" ++ nl) transcript (t ++ u)) as I;
          replace (("TRANSCRIPT:" ++ nl ++ transcript ++ t) ++ u)
            with (("TRANSCRIPT:" ++ nl) ++ transcript ++ (t ++ u))
            by (rewrite !append_assoc; reflexivity)
      end.
      rewrite T in I. exact I.
    + intros K. exists description. split; [reflexivity|].
      destruct (20 <? length description) eqn:D.
      2:{ exfalso. destruct (100 <? length transcript); cbn [app In] in K;
          repeat (destruct K as [K|K]; [discriminate K|]); exact K. }
      assert (O : or_else (Some description) "" = description).
      { destruct description; reflexivity. }
      rewrite O.
      match goal with
      | |- includes (trimEnd (?a ++ ?b ++ ("DESCRIPTION:" ++ nl ++ ?d ++ ?t) ++ ?u)) _ = true =>
          replace (a ++ b ++ ("DESCRIPTION:" ++ nl ++ d ++ t) ++ u)
            with ((a ++ b ++ "DESCRIPTION:" ++ nl) ++ d ++ (t ++ u))
            by (rewrite !append_assoc; reflexivity)
      end.
      apply includes_trimEnd.
Qed.

Lemma video_content_follows_sources_witness :
  exists videoId meta c,
    extractYouTubeVideoId Cases.watchUrl = Some videoId /\
    metadata (scrapeYouTubeContentEnhanced talk Cases.watchUrl) = Some (VideoMeta meta) /\
    content (scrapeYouTubeContentEnhanced talk Cases.watchUrl) = Some c /\
    (In "Enhanced Analysis" (Video.sources meta) ->
     c = analysisBlock videoId (collect talk Cases.watchUrl videoId)) /\
    (~ In "Enhanced Analysis" (Video.sources meta) ->
     (In "Video Transcript" (Video.sources meta) ->
      includes c (method1 talk videoId) = true) /\
     (In "Video Description" (Video.sources meta) ->
      exists d, videoDescription (collect talk Cases.watchUrl videoId) = Some d /\
                includes c (trimEnd d) = true)).
Proof.
  apply (video_content_follows_sources talk Cases.watchUrl). vm_compute. reflexivity.
Defined.

(** ** An item of the videos API without a description *)

Lemma collect_no_description (E : Env) (url videoId key : string)
    (video : VideoItem) (more : list VideoItem) (sn : Snippet) :
  YOUTUBE_API_KEY E = Some key -> key <> "" ->
  page_description (method2 E videoId) = "" ->
  fetch_videos_api E videoId key = Some (video :: more) ->
  snippet video = Some sn -> snippet_description sn = None ->
  videoDescription (collect E url videoId) = None.
Proof.
  intros Hk Hn Hp Ha Hs Hd. unfold collect.
  destruct (method2_5 E url _ _) as [title1 channel1].
  unfold method3. rewrite Hk, Hp. cbn [truthy_opt videoTitle videoDescription truthy negb].
  assert (T : truthy key = true) by (destruct key; [congruence | reflexivity]).
  rewrite T, orb_true_r. cbn [andb or_else]. rewrite T, Ha.
  unfold applyVideo. rewrite Hs. cbn [videoDescription viewCount].
  destruct (truthy_opt (Some (page_views (method2 E videoId))));
    [| destruct (statistics video)];
    cbn [videoDescription]; unfold assign_if_empty; cbn [truthy_opt truthy];
    exact Hd.
Qed.

(** X12. When the watch page gives no description and the first item of
    the videos API has a snippet without a [description] field, the video
    chain fails, whatever title, channel and transcript it found: reading
    the length of the missing description throws, and the handler of the
    chain reports it. *)
Theorem missing_api_description_fails (E : Env) (url videoId key : string)
    (video : VideoItem) (more : list VideoItem) (sn : Snippet) :
  extractYouTubeVideoId url = Some videoId ->
  YOUTUBE_API_KEY E = Some key -> key <> "" ->
  page_description (method2 E videoId) = "" ->
  fetch_videos_api E videoId key = Some (video :: more) ->
  snippet video = Some sn -> snippet_description sn = None ->
  success (scrapeYouTubeContentEnhanced E url) = false /\
  (error (scrapeYouTubeContentEnhanced E url) = Some insufficient \/
   error (scrapeYouTubeContentEnhanced E url) =
   Some "Enhanced YouTube scraping failed: Cannot read properties of undefined (reading 'length'). Please try a different video.").
Proof.
  intros Hv Hk Hn Hp Ha Hs Hd.
  pose proof (collect_no_description E url videoId key video more sn Hk Hn Hp Ha Hs Hd) as D.
  unfold scrapeYouTubeContentEnhanced. rewrite Hv. cbv zeta.
  destruct (withFallback _ _ _) as [finalContent contentSources].
  unfold conclude. rewrite D.
  destruct (negb (truthy finalContent) || _).
  - split; [reflexivity | left; reflexivity].
  - split; [reflexivity | right; reflexivity].
Qed.

Lemma missing_api_description_fails_witness :
  success (scrapeYouTubeContentEnhanced Cases.bareApi Cases.watchUrl) = false /\
  (error (scrapeYouTubeContentEnhanced Cases.bareApi Cases.watchUrl) = Some insufficient \/
   error (scrapeYouTubeContentEnhanced Cases.bareApi Cases.watchUrl) =
   Some "Enhanced YouTube scraping failed: Cannot read properties of undefined (reading 'length'). Please try a different video.").
Proof.
  apply (missing_api_description_fails Cases.bareApi Cases.watchUrl "dQw4w9WgXcQ" "key"
           (MkVideoItem (Some (MkSnippet (Some "A talk about things") None None None)) None)
           [] (MkSnippet (Some "A talk about things") None None None));
    try reflexivity.
  discriminate.
Defined.

End VideoResult.

(* ===================================================================== *)
(** * Which source of a field wins *)
(* ===================================================================== *)

Module Precedence.
Import Route Scenario.

Lemma truthy_ne (s : string) : truthy s = true <-> s <> "".
Proof. destruct s; split; congruence || reflexivity || discriminate. Qed.

Lemma fill_keeps (x : string) (v : option string) : truthy x = true -> fill x v = x.
Proof. intros H. unfold fill. now rewrite H. Qed.

Lemma method2_5_keeps (E : Env) (url videoTitle channelName : string) :
  (truthy videoTitle = true -> fst (method2_5 E url videoTitle channelName) = videoTitle) /\
  (truthy channelName = true -> snd (method2_5 E url videoTitle channelName) = channelName).
Proof.
  unfold method2_5. destruct (looksWeakTitle videoTitle); [| now split].
  destruct (fetch_oembed E url); [| now split].
  split; intros H; apply fill_keeps, H.
Qed.

Lemma assign_keeps (x : string) (v : option string) :
  truthy x = true -> assign_if_empty (Some x) v = Some x.
Proof. intros H. unfold assign_if_empty. cbn [truthy_opt]. now rewrite H. Qed.

Lemma method3_keeps (E : Env) (videoId : string) (f : Fields) :
  (forall x, truthy x = true -> videoTitle f = Some x ->
             videoTitle (method3 E videoId f) = Some x) /\
  (forall x, truthy x = true -> videoDescription f = Some x ->
             videoDescription (method3 E videoId f) = Some x) /\
  (forall x, truthy x = true -> channelName f = Some x ->
             channelName (method3 E videoId f) = Some x) /\
  (forall x, truthy x = true -> viewCount f = Some x ->
             viewCount (method3 E videoId f) = Some x).
Proof.
  unfold method3.
  destruct (_ && _); [| repeat split; intros; assumption].
  destruct (fetch_videos_api E videoId _) as [[|video more]|];
    [repeat split; intros; assumption | | repeat split; intros; assumption].
  unfold applyVideo. destruct (snippet video) as [sn|];
    [| repeat split; intros; assumption].
  split; [| split; [| split]]; intros x Hx Hf.
  - destruct (truthy_opt (viewCount f)); [| destruct (statistics video)];
      cbn [videoTitle]; rewrite Hf; now apply assign_keeps.
  - destruct (truthy_opt (viewCount f)); [| destruct (statistics video)];
      cbn [videoDescription]; rewrite Hf; now apply assign_keeps.
  - destruct (truthy_opt (viewCount f)); [| destruct (statistics video)];
      cbn [channelName]; rewrite Hf; now apply assign_keeps.
  - rewrite Hf. cbn [truthy_opt]. rewrite Hx. reflexivity.
Qed.

(** X13. What the watch page gives wins: a title, description, channel
    name or view count that the page scrape found is what the synthesis
    starts from, whatever oEmbed and the videos API answer. *)
Theorem page_takes_precedence (E : Env) (url videoId : string) (page : Page) :
  method2 E videoId = page ->
  (page_title page <> "" ->
   videoTitle (collect E url videoId) = Some (page_title page)) /\
  (page_description page <> "" ->
   videoDescription (collect E url videoId) = Some (page_description page)) /\
  (page_channel page <> "" ->
   channelName (collect E url videoId) = Some (page_channel page)) /\
  (page_views page <> "" ->
   viewCount (collect E url videoId) = Some (page_views page)).
Proof.
  intros <-. unfold collect.
  pose proof (method2_5_keeps E url (page_title (method2 E videoId))
                (page_channel (method2 E videoId))) as [K1 K2].
  destruct (method2_5 E url _ _) as [title1 channel1]. cbn [fst snd] in K1, K2.
  match goal with
  | |- context [method3 E videoId ?f] =>
      destruct (method3_keeps E videoId f) as (M1 & M2 & M3 & M4)
  end.
  split; [| split; [| split]]; intros H; apply truthy_ne in H.
  - apply M1; [exact H|]. cbn [videoTitle]. now rewrite (K1 H).
  - apply M2; [exact H | reflexivity].
  - apply M3; [exact H|]. cbn [channelName]. now rewrite (K2 H).
  - apply M4; [exact H | reflexivity].
Qed.

Lemma page_takes_precedence_witness :
  videoTitle (collect weakTitle Cases.watchUrl "dQw4w9WgXcQ") = Some "12K".
Proof.
  apply (proj1 (page_takes_precedence weakTitle Cases.watchUrl "dQw4w9WgXcQ"
                  (MkPage "12K" "" "" "") eq_refl)).
  discriminate.
Defined.

End Precedence.

(* ===================================================================== *)
(** * The shape of a success of the route *)
(* ===================================================================== *)

Module Shape.
Import Route Scenario.

Lemma last_solid_app (a b : string) : b <> "" -> last_solid (a ++ b) = last_solid b.
Proof.
  intros H. induction a as [|c a IH]; [reflexivity|].
  cbn [append last_solid]. rewrite IH.
  destruct (a ++ b) eqn:E; [| reflexivity].
  destruct a; [simpl in E; congruence | discriminate].
Qed.

Lemma trim_framed (a url b : string) :
  first_solid a = true -> last_solid b = true -> trim (a ++ url ++ b) = a ++ url ++ b.
Proof.
  intros Ha Hb. unfold trim. rewrite trimStart_solid by exact Ha.
  assert (Nb : b <> "") by (destruct b; [discriminate | congruence]).
  apply trimEnd_last_solid.
  rewrite last_solid_app; [rewrite last_solid_app; assumption|].
  destruct url; [exact Nb | discriminate].
Qed.

Lemma or_else_nonempty (v : option string) (d : string) : d <> "" -> or_else v d <> "".
Proof.
  intros H. unfold or_else. destruct v as [[|c s]|]; cbn [truthy]; congruence.
Qed.

Lemma youtube_shaped (E : Env) (url : string) :
  shaped url (scrapeYouTubeContentEnhanced E url).
Proof.
  intros H. destruct (VideoResult.youtube_success E url H)
    as (videoId & description & Hv & Hd & ->).
  split; [reflexivity|]. eexists _, _, _.
  split; [reflexivity|]. split; [apply or_else_nonempty; discriminate|].
  split; [reflexivity|]. split; [apply trim_idem|]. split; reflexivity.
Qed.

Lemma article_shaped (E : Env) (url : string) :
  shaped url (scrapeArticleContentEnhanced E url).
Proof.
  assert (F : forall e, shaped url (articleCatch e)).
  { intros e H. destruct (articleCatch_failed e) as (msg & K & _).
    rewrite K in H. discriminate. }
  unfold scrapeArticleContentEnhanced, articleTry.
  destruct (fetch_article E url) as [e|status statusText body]; [apply F|].
  destruct (negb (ok status)); [apply F|].
  destruct body as [e|html]; [apply F|].
  unfold articleFromHtml.
  destruct (negb (truthy _) || _); [discriminate|].
  destruct (url_hostname E url) as [e|hostname]; [apply F|].
  intros _. split; [reflexivity|]. eexists _, _, _.
  split; [reflexivity|]. split; [apply or_else_nonempty; discriminate|].
  split; [reflexivity|]. split; [apply trim_idem|]. split; reflexivity.
Qed.

Lemma social_shaped (url : string) :
  shaped url (scrapeTikTokContent url) /\ shaped url (scrapeInstagramContent url).
Proof.
  split; intros _; (split; [reflexivity|]); eexists _, _, _;
    (split; [reflexivity|]); (split; [discriminate|]);
    (split; [reflexivity|]); (split; [| split; reflexivity]).
  - apply (trim_framed "TikTok video analysis from: " url); reflexivity.
  - apply (trim_framed "Instagram post analysis from: " url); reflexivity.
Qed.

(** X14. A reply of the route that reports success has status 200, no
    error, a title that is not empty, a content without white space at
    either end, and metadata that record the URL of the request, whichever
    strategy produced it. *)
Theorem successful_reply_shape (E : Env) (request : Request) :
  success (snd (POST E request)) = true ->
  exists url type t c m,
    request = Body (Some url) type /\ url <> "" /\
    fst (POST E request) = 200 /\
    error (snd (POST E request)) = None /\
    title (snd (POST E request)) = Some t /\ t <> "" /\
    content (snd (POST E request)) = Some c /\ trim c = c /\
    metadata (snd (POST E request)) = Some m /\ meta_url m = Some url.
Proof.
  destruct request as [e|[url|] type]; cbn [POST]; [discriminate | | discriminate].
  cbn [truthy_opt]. destruct (truthy url) eqn:T; cbn [negb]; [| discriminate].
  cbn [fst snd]. intros H.
  assert (O : or_else (Some url) "" = url) by (cbn [or_else]; now rewrite T).
  rewrite O in *.
  assert (S : forall contentType, shaped url (dispatch E contentType url)).
  { intros contentType. unfold dispatch.
    destruct (contentType =? "youtube")%string; [apply youtube_shaped|].
    destruct (contentType =? "tiktok")%string; [apply social_shaped|].
    destruct (contentType =? "instagram")%string; [apply social_shaped|].
    apply article_shaped. }
  destruct (S _ H) as (He & t & c & m & H1 & H2 & H3 & H4 & H5 & H6).
  exists url, type, t, c, m.
  split; [reflexivity|]. split; [now apply Precedence.truthy_ne|].
  repeat (split; [assumption || reflexivity|]). assumption.
Qed.

Lemma successful_reply_shape_witness :
  exists url type t c m,
    Body (Some "https://www.tiktok.com/@u/video/1") (Some "tiktok") = Body (Some url) type /\
    url <> "" /\
    fst (POST offline (Body (Some "https://www.tiktok.com/@u/video/1") (Some "tiktok"))) = 200 /\
    error (snd (POST offline (Body (Some "https://www.tiktok.com/@u/video/1") (Some "tiktok")))) = None /\
    title (snd (POST offline (Body (Some "https://www.tiktok.com/@u/video/1") (Some "tiktok")))) = Some t /\
    t <> "" /\
    content (snd (POST offline (Body (Some "https://www.tiktok.com/@u/video/1") (Some "tiktok")))) = Some c /\
    trim c = c /\
    metadata (snd (POST offline (Body (Some "https://www.tiktok.com/@u/video/1") (Some "tiktok")))) = Some m /\
    meta_url m = Some url.
Proof.
  apply (successful_reply_shape offline
           (Body (Some "https://www.tiktok.com/@u/video/1") (Some "tiktok"))).
  reflexivity.
Defined.

End Shape.

(* ===================================================================== *)
(** * The result of the article chain *)
(* ===================================================================== *)

Module ArticleResult.
Import Route Scenario.

(** ** Which body is taken *)

Lemma last_cons (a d : string) (l : list string) :
  List.last (a :: l) d = List.last l a.
Proof.
  revert a d. induction l as [|b l IH]; intros a d; [reflexivity|].
  change (List.last (a :: b :: l) d) with (List.last (b :: l) d).
  now rewrite !IH.
Qed.

(** X15. The body of an article is the first candidate, in the order of
    the content patterns, that is longer than 200 code units; when there
    is none it is the last candidate that any pattern gave, not the
    longest. *)
Theorem body_is_first_long_or_last (html : string) :
  forall (patterns : list ContentPattern) (content : string),
    contentLoop patterns html content = chosen (candidates patterns html) content.
Proof.
  induction patterns as [|pattern more IH]; intros content; [reflexivity|].
  cbn [contentLoop candidates].
  destruct (candidate pattern html) as [c|]; [| apply IH].
  unfold chosen. cbn [List.find].
  destruct (200 <? length c); [reflexivity|].
  rewrite IH. unfold chosen. now rewrite last_cons.
Qed.

(** ** Replies that are not pages *)

(** X16. A reply of the site with a status outside 200..299 makes the
    article chain fail without reading the body.  When the status text
    holds the word timeout the error is the slow-site message, also for a
    403; otherwise a 403 gives the restricted-access message. *)
Theorem article_http_error (E : Env) (url statusText : string) (status : nat)
    (body : exn + string) :
  fetch_article E url = Responded status statusText body ->
  ok status = false ->
  let r := scrapeArticleContentEnhanced E url in
  success r = false /\ content r = None /\
  (includes statusText "timeout" = true ->
   error r = Some "The website took too long to respond. Try a different article or check your internet connection.") /\
  (includes statusText "timeout" = false -> status = 403 ->
   error r = Some "Access to this website is restricted. Try a different article from a more accessible source.").
Proof.
  intros F O r. subst r. unfold scrapeArticleContentEnhanced, articleTry.
  rewrite F, O. cbn [negb].
  split; [| split; [| split]].
  - destruct (articleCatch_failed (JsError ("HTTP " ++ of_nat status ++ ": " ++ statusText)))
      as (msg & -> & _). reflexivity.
  - destruct (articleCatch_failed (JsError ("HTTP " ++ of_nat status ++ ": " ++ statusText)))
      as (msg & -> & _). reflexivity.
  - intros T. unfold articleCatch.
    rewrite (includes_app_r "HTTP " _ _
               (includes_app_r (of_nat status) _ _
                  (includes_app_r ": " _ _ T))).
    reflexivity.
  - intros T ->. unfold articleCatch.
    change (of_nat 403) with "403".
    assert (N : includes ("HTTP " ++ "403" ++ ": " ++ statusText) "timeout" = false).
    { cbn [append]. rewrite !includes_cons, T. reflexivity. }
    rewrite N. reflexivity.
Qed.

Lemma article_http_error_witness :
  let r := scrapeArticleContentEnhanced Cases.forbiddenSite "https://example.com/a" in
  success r = false /\ content r = None /\
  (includes "Forbidden" "timeout" = true ->
   error r = Some "The website took too long to respond. Try a different article or check your internet connection.") /\
  (includes "Forbidden" "timeout" = false -> 403 = 403 ->
   error r = Some "Access to this website is restricted. Try a different article from a more accessible source.").
Proof.
  apply (article_http_error Cases.forbiddenSite "https://example.com/a" "Forbidden" 403
           (inr ""));
    reflexivity.
Defined.

(** ** What the content of an article holds *)

Lemma trimEnd_join (sep : string) (l : list string) :
  Forall (fun x => last_solid x = true) l -> trimEnd (join sep l) = join sep l.
Proof.
  intros H. destruct l as [|x l]; [reflexivity|].
  apply trimEnd_last_solid. revert x H.
  induction l as [|y l IH]; intros x H.
  - now inversion H.
  - change (join sep (x :: y :: l)) with (x ++ sep ++ join sep (y :: l)).
    assert (K : last_solid (join sep (y :: l)) = true)
      by (apply IH; now inversion H).
    assert (N : join sep (y :: l) <> "")
      by (intros N; rewrite N in K; discriminate).
    rewrite Shape.last_solid_app.
    + rewrite Shape.last_solid_app; assumption.
    + destruct sep; [exact N | discriminate].
Qed.

Lemma trimEnd_joinParagraphs (matches : list string) :
  trimEnd (joinParagraphs matches) = joinParagraphs matches.
Proof.
  unfold joinParagraphs. apply trimEnd_join.
  apply Forall_forall. intros x Hx. apply filter_In in Hx. destruct Hx as [Hx L].
  apply in_map_iff in Hx. destruct Hx as (p & <- & _).
  unfold trim in *. destruct (Whitespace.trimEnd_solid_or_empty (trimStart (replace_all any_tag "" p)))
    as [K|K]; [| exact K].
  rewrite K in L. discriminate.
Qed.

Lemma trimEnd_candidate (pattern : ContentPattern) (html c : string) :
  candidate pattern html = Some c -> trimEnd c = c.
Proof.
  destruct pattern as [r|r]; cbn [candidate].
  - destruct (exec r html); [| discriminate]. intros [= <-].
    apply VideoResult.trimEnd_of_trimmed, (proj2 (Whitespace.tidy_cleanBlock _)).
  - destruct (match_all r html); [| discriminate]. intros [= <-].
    apply trimEnd_joinParagraphs.
Qed.

Lemma trimEnd_contentLoop (html : string) :
  forall patterns content,
    trimEnd content = content ->
    trimEnd (contentLoop patterns html content) = contentLoop patterns html content.
Proof.
  induction patterns as [|pattern more IH]; intros content H; [exact H|].
  cbn [contentLoop]. destruct (candidate pattern html) as [c|] eqn:C; [| now apply IH].
  pose proof (trimEnd_candidate _ _ _ C) as T.
  destruct (200 <? length c); [exact T | now apply IH].
Qed.

Lemma trimEnd_app_nonempty (a s : string) : trimEnd s <> "" -> trimEnd (a ++ s) <> "".
Proof.
  intros H. rewrite (trimEnd_nonempty _ H). destruct a; [exact H | discriminate].
Qed.

Lemma trimEnd_solid_nonempty (s : string) : first_solid s = true -> trimEnd s <> "".
Proof.
  intros H. apply trimEnd_first_solid in H. intros E. rewrite E in H. discriminate.
Qed.

(** A part that is followed by something solid survives [trimEnd]. *)
Lemma includes_before_solid (pre t tail : string) :
  trimEnd tail <> "" -> includes (trimEnd (pre ++ t ++ tail)) t = true.
Proof.
  intros H. rewrite <- append_assoc, (trimEnd_nonempty _ H), append_assoc.
  apply includes_app.
Qed.

(** X17. The content of a successful article result holds the whole
    extracted body, the title line and the source line with the host
    name; the body is at least 100 code units long, and the title of the
    result is the title found in the page, or Untitled Article. *)
Theorem article_content_holds (E : Env) (url : string) :
  success (scrapeArticleContentEnhanced E url) = true ->
  exists status statusText html hostname c,
    fetch_article E url = Responded status statusText (inr html) /\
    url_hostname E url = inr hostname /\
    content (scrapeArticleContentEnhanced E url) = Some c /\
    let body := contentLoop contentPatterns html "" in
    let heading := or_else (Some (articleTitleLoop articleTitlePatterns html "")) "Untitled Article" in
    100 <= length body /\
    includes c body = true /\
    includes c ("Title: " ++ heading) = true /\
    includes c ("Source: " ++ hostname) = true /\
    title (scrapeArticleContentEnhanced E url) = Some heading.
Proof.
  assert (F : forall e, success (articleCatch e) = false).
  { intros e. destruct (articleCatch_failed e) as (msg & -> & _). reflexivity. }
  unfold scrapeArticleContentEnhanced, articleTry.
  destruct (fetch_article E url) as [e|status statusText body];
    [rewrite F; discriminate|].
  destruct (negb (ok status)); [rewrite F; discriminate|].
  destruct body as [e|html]; [rewrite F; discriminate|].
  unfold articleFromHtml.
  destruct (negb (truthy _) || (length _ <? 100)) eqn:G; [discriminate|].
  destruct (url_hostname E url) as [e|hostname]; [rewrite F; discriminate|].
  intros _. exists status, statusText, html, hostname. eexists.
  split; [reflexivity|]. split; [reflexivity|]. split; [reflexivity|].
  cbv zeta. cbn [content title].
  apply orb_false_iff in G. destruct G as [_ G]. apply Nat.ltb_ge in G.
  split; [exact G|].
  unfold trim, articleTemplate. rewrite trimStart_nl, trimStart_solid by reflexivity.
  set (body := contentLoop contentPatterns html "") in *.
  set (heading := or_else (Some (articleTitleLoop articleTitlePatterns html "")) "Untitled Article").
  split; [| split; [| split; [| reflexivity]]].
  - assert (T : trimEnd body = body) by (apply trimEnd_contentLoop; reflexivity).
    match goal with
    | |- includes (trimEnd ?x) _ = true =>
        match x with
        | context C [body ++ ?tail] =>
            let pre := context C [""] in
            replace x with (pre ++ body ++ tail)
              by (rewrite !append_assoc; reflexivity);
            pose proof (VideoResult.includes_trimEnd pre body tail) as I
        end
    end.
    rewrite T in I. exact I.
  - match goal with
    | |- includes (trimEnd ?x) _ = true =>
        match x with
        | context C ["Title: " ++ heading ++ ?tail] =>
            let pre := context C [""] in
            replace x with (pre ++ ("Title: " ++ heading) ++ tail)
              by (rewrite !append_assoc; reflexivity);
            apply includes_before_solid
        end
    end.
    apply (trimEnd_app_nonempty nl), trimEnd_solid_nonempty. reflexivity.
  - match goal with
    | |- includes (trimEnd ?x) _ = true =>
        match x with
        | context C ["Source: " ++ hostname ++ ?tail] =>
            let pre := context C [""] in
            replace x with (pre ++ ("Source: " ++ hostname) ++ tail)
              by (rewrite !append_assoc; reflexivity);
            apply includes_before_solid
        end
    end.
    apply (trimEnd_app_nonempty (nl ++ nl)), trimEnd_solid_nonempty. reflexivity.
Qed.

Lemma article_content_holds_witness :
  exists status statusText html hostname c,
    fetch_article (articleSite 101) "https://example.com/a" =
      Responded status statusText (inr html) /\
    url_hostname (articleSite 101) "https://example.com/a" = inr hostname /\
    content (scrapeArticleContentEnhanced (articleSite 101) "https://example.com/a") = Some c /\
    let body := contentLoop contentPatterns html "" in
    let heading := or_else (Some (articleTitleLoop articleTitlePatterns html "")) "Untitled Article" in
    100 <= length body /\
    includes c body = true /\
    includes c ("Title: " ++ heading) = true /\
    includes c ("Source: " ++ hostname) = true /\
    title (scrapeArticleContentEnhanced (articleSite 101) "https://example.com/a") = Some heading.
Proof.
  apply (article_content_holds (articleSite 101) "https://example.com/a").
  vm_compute. reflexivity.
Defined.

End ArticleResult.

(* ===================================================================== *)
(** * The extractor and the classifier *)
(* ===================================================================== *)

Module Routing.
Import Route Scenario RegexFacts Leaves.

Lemma exec_includes (r : re) (lits : list string) (url : string) (m : result) :
  (forall s k x, run r s k = Some x ->
     existsb (fun l => prefix l (rest s)) lits = true) ->
  exec r url = Some m ->
  existsb (fun l => includes url l) lits = true.
Proof. intros Hr H. exact (search_includes r lits Hr url None 0 m H). Qed.

Lemma marked_of_literals (url : string) :
  existsb (fun l => includes url l)
    ["youtube.com/watch?v="; "youtu.be/"; "youtube.com/embed/"; "youtube.com/v/";
     "youtube.com/watch?"] = true ->
  includes url "youtube.com" || includes url "youtu.be" = true.
Proof.
  cbn [existsb]. rewrite !orb_true_iff.
  intros [H|[H|[H|[H|[H|H]]]]]; [left | right | left | left | left | discriminate].
  - exact (includes_weaken url "youtube.com" "/watch?v=" H).
  - exact (includes_weaken url "youtu.be" "/" H).
  - exact (includes_weaken url "youtube.com" "/embed/" H).
  - exact (includes_weaken url "youtube.com" "/v/" H).
  - exact (includes_weaken url "youtube.com" "/watch?" H).
Qed.

Lemma existsb_more (url : string) (lits more : list string) :
  existsb (fun l => includes url l) lits = true ->
  (forall l, In l lits -> In l more) ->
  existsb (fun l => includes url l) more = true.
Proof.
  intros H Hin. apply existsb_exists in H. destruct H as (l & Hl & Hi).
  apply existsb_exists. exists l. split; [now apply Hin | exact Hi].
Qed.

Lemma extracted_is_marked (url id : string) :
  Lib.extractYouTubeVideoId url = Some id \/ Route.extractYouTubeVideoId url = Some id ->
  includes url "youtube.com" || includes url "youtu.be" = true.
Proof.
  intros H. apply marked_of_literals.
  assert (K : (exists m, exec lib_id_pattern1 url = Some m) \/
              (exists m, exec route_id_pattern1 url = Some m) \/
              (exists m, exec id_pattern2 url = Some m)).
  { destruct H as [H|H].
    - unfold Lib.extractYouTubeVideoId, Lib.first_group in H.
      destruct (exec lib_id_pattern1 url) as [m|]; [left; eauto|].
      destruct (exec id_pattern2 url) as [m|]; [right; right; eauto | discriminate].
    - unfold Route.extractYouTubeVideoId, first_captured, captured in H.
      destruct (exec route_id_pattern1 url) as [m|]; [right; left; eauto|].
      destruct (exec id_pattern2 url) as [m|]; [right; right; eauto | discriminate]. }
  destruct K as [[m K]|[[m K]|[m K]]].
  - apply (exec_includes _ _ _ _ lib_id_pattern1_starts) in K.
    apply (existsb_more _ _ _ K). cbn [In]. tauto.
  - apply (exec_includes _ _ _ _ route_id_pattern1_starts) in K.
    apply (existsb_more _ _ _ K). cbn [In]. tauto.
  - apply (exec_includes _ _ _ _ id_pattern2_starts) in K.
    apply (existsb_more _ _ _ K). cbn [In]. tauto.
Qed.

(** X18. A URL from which the library or the route extracts a video id
    is classified as youtube by both classifiers, so a request that names
    no type for it is answered by the video chain. *)
Theorem extractable_url_is_video (E : Env) (url id : string) :
  Lib.extractYouTubeVideoId url = Some id \/ Route.extractYouTubeVideoId url = Some id ->
  getContentType url = "youtube" /\
  getContentTypeFromUrl url = "youtube" /\
  POST E (Body (Some url) None) = (200, scrapeYouTubeContentEnhanced E url).
Proof.
  intros H. pose proof (extracted_is_marked url id H) as M.
  unfold getContentType, getContentTypeFromUrl. rewrite M.
  split; [reflexivity|]. split; [reflexivity|].
  assert (N : truthy url = true).
  { destruct url; [discriminate M | reflexivity]. }
  unfold POST. cbn [truthy_opt]. rewrite N. cbn [negb or_else]. rewrite N.
  unfold getContentTypeFromUrl. rewrite M. reflexivity.
Qed.

Lemma extractable_url_is_video_witness :
  getContentType "https://youtu.be/dQw4w9WgXcQ" = "youtube" /\
  getContentTypeFromUrl "https://youtu.be/dQw4w9WgXcQ" = "youtube" /\
  POST offline (Body (Some "https://youtu.be/dQw4w9WgXcQ") None) =
  (200, scrapeYouTubeContentEnhanced offline "https://youtu.be/dQw4w9WgXcQ").
Proof.
  apply (extractable_url_is_video offline "https://youtu.be/dQw4w9WgXcQ" "dQw4w9WgXcQ").
  left. reflexivity.
Defined.

End Routing.

(* ===================================================================== *)
(** * The context handed to the script generator *)
(* ===================================================================== *)

Module Context.
Import Script.

Lemma includes_join (sep : string) (l : list string) (x t : string) :
  In x l -> includes x t = true -> includes (join sep l) t = true.
Proof.
  intros Hin Ht. induction l as [|y l IH]; [contradiction|].
  destruct l as [|z l].
  - destruct Hin as [->|[]]. exact Ht.
  - change (join sep (y :: z :: l)) with (y ++ sep ++ join sep (z :: l)).
    destruct Hin as [->|Hin].
    + now apply includes_app_l.
    + apply includes_app_r, includes_app_r, IH, Hin.
Qed.

Lemma add_line_includes (section label t : string) (v : option string) :
  includes section t = true -> includes (add_line section label v) t = true.
Proof.
  intros H. unfold add_line. destruct (truthy_opt v); [now apply includes_app_l | exact H].
Qed.

(** A section starts with its header line and goes on with the content
    line, when there is a content. *)
Lemma section_start (index : nat) (item : ConnectedItem) :
  exists more,
    section index item =
    nl ++ header index item ++ nl ++
    (if truthy (or_else (scrapedContent item) (content item))
     then "Content: " ++ or_else (scrapedContent item) (content item) ++ nl
     else "") ++ more.
Proof.
  unfold section, header, add_line.
  destruct (truthy (or_else (scrapedContent item) (content item)));
    destruct (metadata item) as [m|];
    try destruct (truthy_opt (author m));
    try destruct (truthy_opt (duration m));
    try destruct (truthy_opt (publishedDate m));
    try destruct (truthy_opt (description m));
    eexists; rewrite ?append_assoc; cbn [append];
    rewrite ?append_assoc;
    repeat (f_equal; try reflexivity); try (symmetry; apply append_empty_r);
    try reflexivity.
Qed.

Lemma section_in (items : list ConnectedItem) :
  forall i k item,
    nth_error items i = Some item -> In (section (k + i) item) (sectionsFrom k items).
Proof.
  induction items as [|x items IH]; intros i k item H; [now destruct i|].
  destruct i as [|i]; cbn [nth_error] in H.
  - injection H as ->. rewrite Nat.add_0_r. now left.
  - right. replace (k + S i) with (S k + i) by lia. now apply IH.
Qed.

Lemma section_shadowed (index : nat) (item : ConnectedItem) (c : string) :
  truthy_opt (scrapedContent item) = true ->
  section index (with_content c item) = section index item.
Proof.
  intros H. unfold section, with_content. cbn [title type content scrapedContent metadata].
  destruct (scrapedContent item) as [s|]; [| discriminate].
  cbn [truthy_opt] in H. cbn [or_else]. rewrite H. reflexivity.
Qed.

(** X19. Scraped content shadows the content of an item: when an item
    has scraped content, the context does not depend on its [content]
    field. *)
Theorem scraped_content_shadows (items items' : list ConnectedItem) :
  Forall2 (fun a b => b = a \/
                      (truthy_opt (scrapedContent a) = true /\
                       exists c, b = with_content c a)) items items' ->
  buildEnrichedContext (Some items') = buildEnrichedContext (Some items).
Proof.
  intros H.
  assert (S : forall k, sectionsFrom k items' = sectionsFrom k items).
  { induction H as [|a b items items' Hab H IH]; intros k; [reflexivity|].
    cbn [sectionsFrom]. rewrite IH. f_equal.
    destruct Hab as [->|(T & c & ->)]; [reflexivity | now apply section_shadowed]. }
  unfold buildEnrichedContext. destruct H; [reflexivity|]. now rewrite S.
Qed.

Lemma scraped_content_shadows_witness :
  buildEnrichedContext
    (Some [with_content "another address" (nth 0 twoSources (MkItem "" "" "" "" None None));
           nth 1 twoSources (MkItem "" "" "" "" None None)]) =
  buildEnrichedContext (Some twoSources).
Proof.
  apply (scraped_content_shadows twoSources).
  apply Forall2_cons; [| apply Forall2_cons; [now left | apply Forall2_nil]].
  right. split; [reflexivity|]. now exists "another address".
Defined.

(** X20. The context is empty exactly when there is no item; otherwise
    every item is in it with its header line, numbered from 1 in the order
    of the list, and with its content line in full: the scraped content
    when there is one, the content otherwise. *)
Theorem context_lists_every_source (items : list ConnectedItem) :
  (buildEnrichedContext (Some items) = "" <-> items = []) /\
  forall i item,
    nth_error items i = Some item ->
    let text := or_else (scrapedContent item) (content item) in
    includes (buildEnrichedContext (Some items)) (header i item) = true /\
    (text <> "" ->
     includes (buildEnrichedContext (Some items)) ("Content: " ++ text ++ nl) = true).
Proof.
  split.
  - split; [| intros ->; reflexivity].
    destruct items as [|x items]; [reflexivity|]. intros H. exfalso.
    cbn [buildEnrichedContext sectionsFrom] in H.
    destruct (section_start 0 x) as [more Hs]. rewrite Hs in H.
    destruct (sectionsFrom 1 items); discriminate H.
  - intros i item H text.
    assert (In (section i item) (sectionsFrom 0 items)) as Hin
      by apply (section_in items i 0 item H).
    assert (B : buildEnrichedContext (Some items) = join nl (sectionsFrom 0 items)).
    { destruct items; [now destruct i | reflexivity]. }
    rewrite B. destruct (section_start i item) as [more Hs]. fold text in Hs.
    split.
    + apply (includes_join _ _ _ _ Hin). rewrite Hs.
      apply (includes_app nl (header i item)).
    + intros Ht. apply (includes_join _ _ _ _ Hin). rewrite Hs.
      destruct text as [|c text]; [congruence|]. cbn [truthy].
      rewrite <- (append_assoc nl), <- (append_assoc (nl ++ header i item)).
      apply includes_app.
Qed.

Lemma context_lists_every_source_witness :
  includes (buildEnrichedContext (Some twoSources)) "--- Source 2: A note (note) ---" = true /\
  includes (buildEnrichedContext (Some twoSources))
    ("Content: remember the milk" ++ nl) = true.
Proof.
  destruct (proj2 (context_lists_every_source twoSources) 1
              (MkItem "b" "note" "A note" "remember the milk" None None) eq_refl)
    as [A B].
  split; [exact A | apply B; discriminate].
Defined.

End Context.

